(** * find_moving_objects: the LaserScan interpreter (laserscan_interpreter.cpp)

    A shallow embedding of [src/laserscan_interpreter.cpp]: the confidence
    formula of the Bank ([Bank::calculateConfidence]), the bank-size
    calibration ([hzCalculationCallback]) and the callback-swapping ingress of
    the interpreter, in its single-scan build and in its scan-array build
    ([LSARRAY]).

    Numbers.  A finite C++ [double] is the rational number it denotes ([Q],
    compared with [==]); [int] and [long] values are [Z].

    The rate measurement of [hzCalculationCallback] decides a branch (the
    time ceiling, the test for an integral product) and an integer (the bank
    size) from the results of three [double] operations: the difference of
    two clock readings, the quotient of count and elapsed time, the product
    of target and rate.  Each of the three is rounded as IEEE 754 binary64
    rounds it, to the nearest [double], ties to even ([round_double]).  The
    operations that follow on the rounded product (the conversion to [long],
    the subtraction of the integer part, [ceil], and the addition of 1 in
    the range of [int]) are exact on a [double].

    The confidence of [Bank::calculateConfidence] and the two roots the
    calibration writes are numbers that are returned or stored and decide
    nothing in this file: their arithmetic is kept exact, so a value of the
    embedding is the value of the C++ expression before the rounding of
    each operation.

    No value.  Where the result of one of the three rounded operations is
    not a finite [double] (a division by a zero [elapsed_time] among them),
    or where a conversion from [double] to [long] or [int] is out of range,
    the embedding returns [None] and follows the computation no further: the
    conversion [(long) nr_scans] of an infinity or of NaN is undefined in
    C++.  The difference of two readings of [ros::Time::now().toSec()], each
    below 2^32, is always finite. *)

From Stdlib Require Import ZArith QArith Qround Qabs Lqa Lia.
From Stdlib Require SpecFloat.
From stdpp Require Import base option list strings pretty.

Local Open Scope Q_scope.

(** ** Numeric conversions *)

(** [(long) x] and the implicit conversion of a [double] to [int] drop the
    fractional part (truncation toward zero). *)
Definition Qtruncate (x : Q) : Z := Z.quot (Qnum x) (Zpos (Qden x)).

(** The ranges of [long] (64 bits) and [int] (32 bits). *)
Definition LONG_MIN : Z := (- 2 ^ 63)%Z.
Definition LONG_MAX : Z := (2 ^ 63 - 1)%Z.
Definition INT_MIN : Z := (- 2 ^ 31)%Z.
Definition INT_MAX : Z := (2 ^ 31 - 1)%Z.

(** A conversion whose truncated value does not fit the target type is
    undefined behaviour in C++: no value. *)
Definition double_to_long (x : Q) : option Z :=
  let z := Qtruncate x in
  if ((LONG_MIN <=? z) && (z <=? LONG_MAX))%Z then Some z else None.

Definition double_to_int (x : Q) : option Z :=
  let z := Qtruncate x in
  if ((INT_MIN <=? z) && (z <=? INT_MAX))%Z then Some z else None.

(** ** Rounding to [double] *)

(** An integer as a binary float with exponent 0. *)
Definition Z2SF (z : Z) : SpecFloat.spec_float :=
  match z with
  | Z0 => SpecFloat.S754_zero false
  | Zpos p => SpecFloat.S754_finite false p 0
  | Zneg p => SpecFloat.S754_finite true p 0
  end.

(** The number a binary float denotes, as a fraction in lowest terms; an
    infinity and NaN denote none. *)
Definition SF2Q (f : SpecFloat.spec_float) : option Q :=
  match f with
  | SpecFloat.S754_zero _ => Some 0
  | SpecFloat.S754_finite s m e =>
      let v := match e with
               | Zneg p => Zpos m # (2 ^ p)
               | _ => inject_Z (Zpos m * 2 ^ e)
               end in
      Some (Qred (if s then - v else v))
  | _ => None
  end.

(** The result of a [double] operation whose exact result is [x]: the
    binary64 number nearest to [x], ties to even, subnormal numbers
    included.  [SpecFloat.SFdiv], at precision 53 and with 1024 as the bound
    of the exponent, is the IEEE 754 division; numerator and denominator of
    [x] are its operands.  No value where the result is an infinity. *)
Definition round_double (x : Q) : option Q :=
  SF2Q (SpecFloat.SFdiv 53 1024 (Z2SF (Qnum x)) (Z2SF (Zpos (Qden x)))).

(** The value of a decimal literal of type [double]. *)
Definition double_literal (x : Q) : Q := default 0 (round_double x).

(** ** Data of the confidence calculation *)

(** Of a [MovingObject] message the confidence calculation reads the width
    seen at the new time only. *)
Record MovingObject := { seen_width : Q }.

(** [BankArgument], with the members this source file sets or reads. *)
Record BankArgument := {
  ema_alpha : Q;
  nr_scans_in_bank : Z;
  object_threshold_edge_max_delta_range : Q;
  object_threshold_min_nr_points : Z;
  object_threshold_max_distance : Q;
  object_threshold_min_speed : Q;
  object_threshold_max_delta_width_in_points : Z;
  object_threshold_bank_tracking_max_delta_distance : Q;
  object_threshold_min_confidence : Q;
  base_confidence : Q;
  publish_ema : bool;
  publish_objects_closest_point_markers : bool;
  publish_objects_velocity_arrows : bool;
  publish_objects_delta_position_lines : bool;
  publish_objects_width_lines : bool;
  velocity_arrows_use_full_gray_scale : bool;
  velocity_arrows_use_sensor_frame : bool;
  velocity_arrows_use_base_frame : bool;
  velocity_arrows_use_fixed_frame : bool;
  publish_objects : bool;
  map_frame : string;
  fixed_frame : string;
  base_frame : string;
  velocity_arrow_ns : string;
  delta_position_line_ns : string;
  width_line_ns : string;
  topic_ema : string;
  topic_objects_closest_point_markers : string;
  topic_objects_velocity_arrows : string;
  topic_objects_delta_position_lines : string;
  topic_objects_width_lines : string;
  topic_objects : string;
  publish_buffer_size : Z;
  node_name_suffix : string
}.

(** The file-scope variables [root_1] and [root_2]: shared by the confidence
    calculation, which reads them, and the calibration, which writes them. *)
Record Globals := { root_1 : Q; root_2 : Q }.

(** [double root_1=0.35, root_2=0.65;] *)
Definition globals_init : Globals := {| root_1 := 0.35; root_2 := 0.65 |}.

(** [const double a = -10 / 3;]: both operands are of type [int], so the
    quotient is the integer quotient (rounded toward zero), converted to
    [double] afterwards. *)
Definition a : Q := inject_Z (Z.quot (-10) 3).

(** ** CONFIDENCE CALCULATION FOR BANK *)

(** The body of [Bank::calculateConfidence], with the two roots it reads
    passed in, in exact arithmetic.  [fabsf] is the absolute value of the
    C library for [float]: the C++ program narrows the difference of the two
    widths to single precision on the way in; the embedding takes the
    absolute value of the difference itself. *)
Definition calculateConfidence (g : Globals)
    (mo : MovingObject) (ba : BankArgument) (dt mo_old_width : Q)
    (transform_old_time_map_frame_success
     transform_new_time_map_frame_success
     transform_old_time_fixed_frame_success
     transform_new_time_fixed_frame_success
     transform_old_time_base_frame_success
     transform_new_time_base_frame_success : bool) : Q :=
  ema_alpha ba *
  (base_confidence ba +
   (if transform_old_time_map_frame_success &&
       transform_new_time_map_frame_success &&
       transform_old_time_fixed_frame_success &&
       transform_new_time_fixed_frame_success &&
       transform_old_time_base_frame_success &&
       transform_new_time_base_frame_success then 0.5 else 0.0) +
   a * (dt - root_1 g) * (dt - root_2 g) +
   (-5.0 * Qabs (seen_width mo - mo_old_width))).

(** The formula as the specification words it, with the coefficient of the
    parabola given as the fraction -10/3. *)
Definition spec_a : Q := -10 # 3.

Definition spec_confidence (g : Globals)
    (mo : MovingObject) (ba : BankArgument) (dt mo_old_width : Q)
    (all_six_succeeded : bool) : Q :=
  ema_alpha ba *
  (base_confidence ba +
   (if all_six_succeeded then 0.5 else 0.0) +
   spec_a * (dt - root_1 g) * (dt - root_2 g) +
   (-5.0 * Qabs (seen_width mo - mo_old_width))).

(** ** BANK SIZE OPTIMISATION (the arithmetic of [hzCalculationCallback]) *)

(** [received_messages / elapsed_time]: the count is converted to [double]
    and divided, the quotient rounded.  With [elapsed_time] zero the C++
    quotient is an infinity or NaN, whose conversion [(long)] two statements
    on is undefined: no value. *)
Definition measured_hz (received_messages : Z) (elapsed_time : Q) : option Q :=
  if Qeq_bool elapsed_time 0 then None
  else round_double (inject_Z received_messages / elapsed_time).

(** [nr_scans - ((long) nr_scans) == 0.0 ? nr_scans + 1 : ceil(nr_scans)],
    assigned to the [int] member [nr_scans_in_bank].  On a [double]
    [nr_scans] in the range of [long] the integer part, the difference and
    [ceil] are exact, and so is [nr_scans + 1] wherever it fits [int]. *)
Definition optimized_nr_scans (nr_scans : Q) : option Z :=
  l ← double_to_long nr_scans;
  double_to_int
    (if Qeq_bool (nr_scans - inject_Z l) 0.0
     then nr_scans + 1
     else inject_Z (Qceiling nr_scans)).

(** [if (nr_scans_in_bank < 2) nr_scans_in_bank = 2;] *)
Definition sanity_check (nr_scans_in_bank : Z) : Z :=
  if (nr_scans_in_bank <? 2)%Z then 2%Z else nr_scans_in_bank.

(** [max_time <= elapsed_time || max_messages <= received_messages] *)
Definition are_we_done (max_time : Q) (max_messages : Z)
    (elapsed_time : Q) (received_messages : Z) : bool :=
  Qle_bool max_time elapsed_time || (max_messages <=? received_messages)%Z.

(** The assignments [root_1 = optimize_nr_scans_in_bank * 0.6] and
    [root_2 = optimize_nr_scans_in_bank * 1.4], the two products exact. *)
Definition adapted_roots (optimize_nr_scans_in_bank : Q) : Globals :=
  {| root_1 := optimize_nr_scans_in_bank * 0.6;
     root_2 := optimize_nr_scans_in_bank * 1.4 |}.

Local Close Scope Q_scope.

(** ** Messages *)

(** [sensor_msgs::LaserScan]. *)
Record LaserScan := {
  frame_id : string;
  stamp : Q;
  angle_min : Q;
  angle_max : Q;
  angle_increment : Q;
  time_increment : Q;
  scan_time : Q;
  range_min : Q;
  range_max : Q;
  ranges : list Q;
  intensities : list Q
}.

(** [find_moving_objects::LaserScanArray]: the member [msgs] is all the
    interpreter reads. *)
Record LaserScanArray := { msgs : list LaserScan }.

(** ** What the missing headers declare *)

(** [LaserScanInterpreter.h] declares the two ceilings of the rate
    measurement; their values are not in this source file. *)
Class Ceilings := {
  max_time : Q;
  max_messages : Z
}.

(** [bank.h] declares the class [Bank] and the constructor of
    [BankArgument]; the interpreter calls [init], [addMessage] and
    [findAndReportMovingObjects], each on a Bank it owns.  A call returns its
    code together with the Bank as the call leaves it. *)
Class BankClass := {
  Bank : Type;
  Bank_new : Bank;
  BankArgument_new : BankArgument;
  init : BankArgument → LaserScan → Bank → Z * Bank;
  addMessage : LaserScan → Bank → Z * Bank;
  findAndReportMovingObjects : Bank → Bank
}.

(** The callback a subscription is bound to ([sub = nh.subscribe(...)]). *)
Inductive Callback :=
  | CbWaitForFirstMessage
  | CbHzCalculation
  | CbFirst
  | CbSteady.

(** Warm-up: the two callbacks of the rate measurement. *)
Definition warming_up (c : Callback) : bool :=
  match c with
  | CbWaitForFirstMessage | CbHzCalculation => true
  | CbFirst | CbSteady => false
  end.

(** [bank_argument.nr_scans_in_bank = n] *)
Definition set_nr_scans_in_bank (n : Z) (ba : BankArgument) : BankArgument :=
  {| ema_alpha := ema_alpha ba;
     nr_scans_in_bank := n;
     object_threshold_edge_max_delta_range := object_threshold_edge_max_delta_range ba;
     object_threshold_min_nr_points := object_threshold_min_nr_points ba;
     object_threshold_max_distance := object_threshold_max_distance ba;
     object_threshold_min_speed := object_threshold_min_speed ba;
     object_threshold_max_delta_width_in_points := object_threshold_max_delta_width_in_points ba;
     object_threshold_bank_tracking_max_delta_distance := object_threshold_bank_tracking_max_delta_distance ba;
     object_threshold_min_confidence := object_threshold_min_confidence ba;
     base_confidence := base_confidence ba;
     publish_ema := publish_ema ba;
     publish_objects_closest_point_markers := publish_objects_closest_point_markers ba;
     publish_objects_velocity_arrows := publish_objects_velocity_arrows ba;
     publish_objects_delta_position_lines := publish_objects_delta_position_lines ba;
     publish_objects_width_lines := publish_objects_width_lines ba;
     velocity_arrows_use_full_gray_scale := velocity_arrows_use_full_gray_scale ba;
     velocity_arrows_use_sensor_frame := velocity_arrows_use_sensor_frame ba;
     velocity_arrows_use_base_frame := velocity_arrows_use_base_frame ba;
     velocity_arrows_use_fixed_frame := velocity_arrows_use_fixed_frame ba;
     publish_objects := publish_objects ba;
     map_frame := map_frame ba;
     fixed_frame := fixed_frame ba;
     base_frame := base_frame ba;
     velocity_arrow_ns := velocity_arrow_ns ba;
     delta_position_line_ns := delta_position_line_ns ba;
     width_line_ns := width_line_ns ba;
     topic_ema := topic_ema ba;
     topic_objects_closest_point_markers := topic_objects_closest_point_markers ba;
     topic_objects_velocity_arrows := topic_objects_velocity_arrows ba;
     topic_objects_delta_position_lines := topic_objects_delta_position_lines ba;
     topic_objects_width_lines := topic_objects_width_lines ba;
     topic_objects := topic_objects ba;
     publish_buffer_size := publish_buffer_size ba;
     node_name_suffix := node_name_suffix ba |}.

(** The nine [append(append_str)] calls of the scan-array first-message
    callback, on one [BankArgument]. *)
Definition append_names (append_str : string) (ba : BankArgument) : BankArgument :=
  {| ema_alpha := ema_alpha ba;
     nr_scans_in_bank := nr_scans_in_bank ba;
     object_threshold_edge_max_delta_range := object_threshold_edge_max_delta_range ba;
     object_threshold_min_nr_points := object_threshold_min_nr_points ba;
     object_threshold_max_distance := object_threshold_max_distance ba;
     object_threshold_min_speed := object_threshold_min_speed ba;
     object_threshold_max_delta_width_in_points := object_threshold_max_delta_width_in_points ba;
     object_threshold_bank_tracking_max_delta_distance := object_threshold_bank_tracking_max_delta_distance ba;
     object_threshold_min_confidence := object_threshold_min_confidence ba;
     base_confidence := base_confidence ba;
     publish_ema := publish_ema ba;
     publish_objects_closest_point_markers := publish_objects_closest_point_markers ba;
     publish_objects_velocity_arrows := publish_objects_velocity_arrows ba;
     publish_objects_delta_position_lines := publish_objects_delta_position_lines ba;
     publish_objects_width_lines := publish_objects_width_lines ba;
     velocity_arrows_use_full_gray_scale := velocity_arrows_use_full_gray_scale ba;
     velocity_arrows_use_sensor_frame := velocity_arrows_use_sensor_frame ba;
     velocity_arrows_use_base_frame := velocity_arrows_use_base_frame ba;
     velocity_arrows_use_fixed_frame := velocity_arrows_use_fixed_frame ba;
     publish_objects := publish_objects ba;
     map_frame := map_frame ba;
     fixed_frame := fixed_frame ba;
     base_frame := base_frame ba;
     velocity_arrow_ns := velocity_arrow_ns ba +:+ append_str;
     delta_position_line_ns := delta_position_line_ns ba +:+ append_str;
     width_line_ns := width_line_ns ba +:+ append_str;
     topic_ema := topic_ema ba +:+ append_str;
     topic_objects_closest_point_markers := topic_objects_closest_point_markers ba +:+ append_str;
     topic_objects_velocity_arrows := topic_objects_velocity_arrows ba +:+ append_str;
     topic_objects_delta_position_lines := topic_objects_delta_position_lines ba +:+ append_str;
     topic_objects_width_lines := topic_objects_width_lines ba +:+ append_str;
     topic_objects := topic_objects ba;
     publish_buffer_size := publish_buffer_size ba;
     node_name_suffix := node_name_suffix ba +:+ append_str |}.

(** [for (int i = first; i < first + n; ++i) body], on a state the body may
    leave undefined. *)
Fixpoint for_loop {St : Type} (n : nat) (i : nat)
    (body : nat → St → option St) (s : St) : option St :=
  match n with
  | O => Some s
  | S n' => s' ← body i s; for_loop n' (S i) body s'
  end.

(** [v[i] = x] on a [std::vector]: outside the vector the access is undefined. *)
Definition vector_assign {A : Type} (i : nat) (x : A) (v : list A) : option (list A) :=
  if decide (i < length v)%nat then Some (<[i := x]> v) else None.

(** ["_" + std::to_string(i)] *)
Definition append_str_of (i : nat) : string := "_" +:+ pretty i.

(** A message as its callback meets it: together with the reading of
    [ros::Time::now().toSec()] the callback would take, a [double] below
    2^32. *)
Record Stamped (M : Type) := { now : Q; message : M }.
Arguments now {M} _.
Arguments message {M} _.

(** [ros::spin()]: the receive loop hands the messages to the bound
    callback, one after the other; it stops where a callback has no defined
    behaviour. *)
Fixpoint spin {M St : Type} (deliver : M → St → option St)
    (queue : list M) (st : St) : option St :=
  match queue with
  | [] => Some st
  | m :: queue' => st' ← deliver m st; spin deliver queue' st'
  end.

(** ** The single-scan interpreter ([LSARRAY] not defined) *)

Module LaserScanInterpreterNode.
Section Node.
Context {ceilings : Ceilings} {bank_class : BankClass}.

(** The members of the node, the bound callback of [sub], and the two
    file-scope roots of the process the node runs in.  The log streams are
    not part of the state. *)
Record Node := {
  sub : Callback;
  received_messages : Z;
  optimize_nr_scans_in_bank : Q;
  start_time : Q;
  bank_argument : BankArgument;
  bank : Bank;
  globals : Globals
}.

(** CALLBACK FOR FIRST MESSAGE *)
Definition laserScanCallbackFirst (msg : LaserScan) (st : Node) : Node :=
  let '(rc, b) := init (bank_argument st) msg (bank st) in
  if decide (rc ≠ 0%Z) then
    (* we do not change callback, but use this one again *)
    {| sub := sub st;
       received_messages := received_messages st;
       optimize_nr_scans_in_bank := optimize_nr_scans_in_bank st;
       start_time := start_time st;
       bank_argument := bank_argument st;
       bank := b;
       globals := globals st |}
  else
    (* Use the other callback from now on *)
    {| sub := CbSteady;
       received_messages := received_messages st;
       optimize_nr_scans_in_bank := optimize_nr_scans_in_bank st;
       start_time := start_time st;
       bank_argument := bank_argument st;
       bank := b;
       globals := globals st |}.

(** CALLBACK FOR ALL BUT THE FIRST MESSAGE *)
Definition laserScanCallback (msg : LaserScan) (st : Node) : Node :=
  let '(rc, b) := addMessage msg (bank st) in
  {| sub := sub st;
     received_messages := received_messages st;
     optimize_nr_scans_in_bank := optimize_nr_scans_in_bank st;
     start_time := start_time st;
     bank_argument := bank_argument st;
     bank := if decide (rc ≠ 0%Z) then b else findAndReportMovingObjects b;
     globals := globals st |}.

(** CALLBACK FOR WAITING UNTIL THE FIRST MESSAGE WAS RECEIVED *)
Definition waitForFirstMessageCallback (time_now : Q) (st : Node) : Node :=
  {| sub := CbHzCalculation;
     received_messages := received_messages st;
     optimize_nr_scans_in_bank := optimize_nr_scans_in_bank st;
     start_time := time_now;
     bank_argument := bank_argument st;
     bank := bank st;
     globals := globals st |}.

(** CALLBACK FOR HZ CALCULATION.  [elapsed_time], [hz] and [nr_scans] are
    the three [const double] of the body, each the rounded result of its
    operation. *)
Definition hzCalculationCallback (time_now : Q) (st : Node) : option Node :=
  let received := (received_messages st + 1)%Z in
  elapsed_time ← round_double (time_now - start_time st)%Q;
  if are_we_done max_time max_messages elapsed_time received then
    hz ← measured_hz received elapsed_time;
    nr_scans ← round_double (optimize_nr_scans_in_bank st * hz)%Q;
    n ← optimized_nr_scans nr_scans;
    Some {| sub := CbFirst;
            received_messages := received;
            optimize_nr_scans_in_bank := optimize_nr_scans_in_bank st;
            start_time := start_time st;
            bank_argument := set_nr_scans_in_bank (sanity_check n) (bank_argument st);
            bank := bank st;
            globals := adapted_roots (optimize_nr_scans_in_bank st) |}
  else
    Some {| sub := sub st;
            received_messages := received;
            optimize_nr_scans_in_bank := optimize_nr_scans_in_bank st;
            start_time := start_time st;
            bank_argument := bank_argument st;
            bank := bank st;
            globals := globals st |}.

(** The constructor followed by [onInit]: [configured] is the
    [bank_argument] the parameter server yields and [optimize] the value of
    the parameter [optimize_nr_scans_in_bank].  [start_time] has no value
    before the first message; no callback reads it before
    [waitForFirstMessageCallback] has set it. *)
Definition onInit (configured : BankArgument) (optimize : Q) : Node :=
  {| sub := if negb (Qeq_bool optimize 0.0)
            then CbWaitForFirstMessage
            else CbFirst;
     received_messages := 0;
     optimize_nr_scans_in_bank := optimize;
     start_time := 0%Q;
     bank_argument := configured;
     bank := Bank_new;
     globals := globals_init |}.

(** One message, handed to the callback [sub] is bound to. *)
Definition deliver (ev : Stamped LaserScan) (st : Node) : option Node :=
  match sub st with
  | CbWaitForFirstMessage => Some (waitForFirstMessageCallback (now ev) st)
  | CbHzCalculation => hzCalculationCallback (now ev) st
  | CbFirst => Some (laserScanCallbackFirst (message ev) st)
  | CbSteady => Some (laserScanCallback (message ev) st)
  end.
End Node.
End LaserScanInterpreterNode.

(** ** The scan-array interpreter ([LSARRAY] defined) *)

Module LaserScanArrayInterpreterNode.
Section Node.
Context {ceilings : Ceilings} {bank_class : BankClass}.

(** The vector [banks] holds the Banks themselves; a slot [resize] has
    just made holds a fresh Bank until the creation loop assigns it. *)
Record Node := {
  sub : Callback;
  received_messages : Z;
  optimize_nr_scans_in_bank : Q;
  start_time : Q;
  bank_arguments : list BankArgument;
  banks : list Bank;
  globals : Globals
}.

(** [banks[i] = new Bank(tfListener); bank_arguments[i] = bank_arguments[0];] *)
Definition create_bank (i : nat) (s : list Bank * list BankArgument)
    : option (list Bank * list BankArgument) :=
  bks ← vector_assign i Bank_new s.1;
  first ← s.2 !! 0%nat;
  bas ← vector_assign i first s.2;
  Some (bks, bas).

(** The loop "Modify bank arguments", at index [i]. *)
Definition modify_bank_argument (i : nat) (bas : list BankArgument)
    : option (list BankArgument) :=
  ba ← bas !! i;
  vector_assign i (append_names (append_str_of i) ba) bas.

(** [banks[i]->init(bank_arguments[i], &(msg->msgs[i]));] the code is dropped. *)
Definition init_bank (bas : list BankArgument) (scans : list LaserScan)
    (i : nat) (bks : list Bank) : option (list Bank) :=
  b ← bks !! i;
  ba ← bas !! i;
  m ← scans !! i;
  vector_assign i (init ba m b).2 bks.

(** CALLBACK FOR FIRST MESSAGE *)
Definition laserScanArrayCallbackFirst (msg : LaserScanArray) (st : Node)
    : option Node :=
  let nr_msgs := length (msgs msg) in
  '(bks, bas) ←
    (if decide (length (banks st) = 0%nat) then
       let bas := resize nr_msgs BankArgument_new (bank_arguments st) in
       let bks := resize nr_msgs Bank_new (banks st) in
       '(bks, bas) ← for_loop nr_msgs 0 create_bank (bks, bas);
       bas ← for_loop nr_msgs 0 modify_bank_argument bas;
       Some (bks, bas)
     else Some (banks st, bank_arguments st));
  bks ← for_loop nr_msgs 0 (init_bank bas (msgs msg)) bks;
  (* Now change callback regardless of init outcome *)
  Some {| sub := CbSteady;
          received_messages := received_messages st;
          optimize_nr_scans_in_bank := optimize_nr_scans_in_bank st;
          start_time := start_time st;
          bank_arguments := bas;
          banks := bks;
          globals := globals st |}.

(** The body of the loop of [laserScanArrayCallback]. *)
Definition add_and_report (scans : list LaserScan) (i : nat) (bks : list Bank)
    : option (list Bank) :=
  b ← bks !! i;
  m ← scans !! i;
  let '(rc, b') := addMessage m b in
  if decide (rc ≠ 0%Z) then vector_assign i b' bks
  else vector_assign i (findAndReportMovingObjects b') bks.

(** CALLBACK FOR ALL BUT THE FIRST MESSAGE *)
Definition laserScanArrayCallback (msg : LaserScanArray) (st : Node)
    : option Node :=
  bks ← for_loop (length (msgs msg)) 0 (add_and_report (msgs msg)) (banks st);
  Some {| sub := sub st;
          received_messages := received_messages st;
          optimize_nr_scans_in_bank := optimize_nr_scans_in_bank st;
          start_time := start_time st;
          bank_arguments := bank_arguments st;
          banks := bks;
          globals := globals st |}.

(** CALLBACK FOR WAITING UNTIL THE FIRST MESSAGE WAS RECEIVED *)
Definition waitForFirstMessageCallback (time_now : Q) (st : Node) : Node :=
  {| sub := CbHzCalculation;
     received_messages := received_messages st;
     optimize_nr_scans_in_bank := optimize_nr_scans_in_bank st;
     start_time := time_now;
     bank_arguments := bank_arguments st;
     banks := banks st;
     globals := globals st |}.

(** CALLBACK FOR HZ CALCULATION.  [elapsed_time], [hz] and [nr_scans] are
    the three [const double] of the body, each the rounded result of its
    operation. *)
Definition hzCalculationCallback (time_now : Q) (st : Node) : option Node :=
  let received := (received_messages st + 1)%Z in
  elapsed_time ← round_double (time_now - start_time st)%Q;
  if are_we_done max_time max_messages elapsed_time received then
    hz ← measured_hz received elapsed_time;
    nr_scans ← round_double (optimize_nr_scans_in_bank st * hz)%Q;
    n ← optimized_nr_scans nr_scans;
    first ← bank_arguments st !! 0%nat;
    Some {| sub := CbFirst;
            received_messages := received;
            optimize_nr_scans_in_bank := optimize_nr_scans_in_bank st;
            start_time := start_time st;
            bank_arguments :=
              <[0%nat := set_nr_scans_in_bank (sanity_check n) first]> (bank_arguments st);
            banks := banks st;
            globals := adapted_roots (optimize_nr_scans_in_bank st) |}
  else
    Some {| sub := sub st;
            received_messages := received;
            optimize_nr_scans_in_bank := optimize_nr_scans_in_bank st;
            start_time := start_time st;
            bank_arguments := bank_arguments st;
            banks := banks st;
            globals := globals st |}.

(** The constructor followed by [onInit]: [bank_arguments.push_back] makes
    the configured argument the first and only one. *)
Definition onInit (configured : BankArgument) (optimize : Q) : Node :=
  {| sub := if negb (Qeq_bool optimize 0.0)
            then CbWaitForFirstMessage
            else CbFirst;
     received_messages := 0;
     optimize_nr_scans_in_bank := optimize;
     start_time := 0%Q;
     bank_arguments := [configured];
     banks := [];
     globals := globals_init |}.

(** One message, handed to the callback [sub] is bound to. *)
Definition deliver (ev : Stamped LaserScanArray) (st : Node) : option Node :=
  match sub st with
  | CbWaitForFirstMessage => Some (waitForFirstMessageCallback (now ev) st)
  | CbHzCalculation => hzCalculationCallback (now ev) st
  | CbFirst => laserScanArrayCallbackFirst (message ev) st
  | CbSteady => laserScanArrayCallback (message ev) st
  end.
End Node.
End LaserScanArrayInterpreterNode.

(** ** A Bank after the specification *)

(** Modelled from the spec: the class [Bank] ([bank.h], [bank.cpp]) is not
    among the source files.  The Bank owns its [BankArgument] and a window of
    scan records of capacity [nr_scans_in_bank]. *)
Record SpecBank := {
  argument : option BankArgument;
  window : list LaserScan
}.

(** Modelled from the spec: a malformed record is an empty one. *)
Definition well_formed (scan : LaserScan) : bool :=
  match ranges scan with [] => false | _ => true end.

(** Modelled from the spec: [Bank::init] is absent from the source files.
    "Initialization [...] always succeeds for a well-formed record (a
    malformed/empty record is the only rejection path, signaled by a distinct
    failure code [...])", and on failure the "engine state [is] unchanged". *)
Definition spec_init (ba : BankArgument) (scan : LaserScan) (b : SpecBank)
    : Z * SpecBank :=
  if well_formed scan
  then (0%Z, {| argument := Some ba; window := [scan] |})
  else ((-1)%Z, b).

(** Modelled from the spec: [Bank::addMessage] is absent from the source
    files.  "Append the record to the Window (evicting the oldest if at
    capacity [...])". *)
Definition spec_addMessage (scan : LaserScan) (b : SpecBank) : Z * SpecBank :=
  match argument b with
  | Some ba =>
      if well_formed scan then
        let kept :=
          if (nr_scans_in_bank ba <=? Z.of_nat (length (window b)))%Z
          then drop 1 (window b) else window b in
        (0%Z, {| argument := argument b; window := kept ++ [scan] |})
      else ((-1)%Z, b)
  | None => ((-1)%Z, b)
  end.

(** Modelled from the spec: [Bank::findAndReportMovingObjects] is absent
    from the source files.  The report of a detection cycle leaves the Bank;
    the window is as it was. *)
Definition spec_findAndReportMovingObjects (b : SpecBank) : SpecBank := b.

(** The Bank of the specification as an instance of what [bank.h] declares.
    The value of a default-constructed [BankArgument] is immaterial: the
    interpreter overwrites every slot holding one before it reads it. *)
Definition spec_bank : BankClass :=
  {| Bank := SpecBank;
     Bank_new := {| argument := None; window := [] |};
     BankArgument_new :=
       {| ema_alpha := 1; nr_scans_in_bank := 2;
          object_threshold_edge_max_delta_range := 0;
          object_threshold_min_nr_points := 0;
          object_threshold_max_distance := 0;
          object_threshold_min_speed := 0;
          object_threshold_max_delta_width_in_points := 0;
          object_threshold_bank_tracking_max_delta_distance := 0;
          object_threshold_min_confidence := 0;
          base_confidence := 0;
          publish_ema := false;
          publish_objects_closest_point_markers := false;
          publish_objects_velocity_arrows := false;
          publish_objects_delta_position_lines := false;
          publish_objects_width_lines := false;
          velocity_arrows_use_full_gray_scale := false;
          velocity_arrows_use_sensor_frame := false;
          velocity_arrows_use_base_frame := false;
          velocity_arrows_use_fixed_frame := false;
          publish_objects := false;
          map_frame := ""; fixed_frame := ""; base_frame := "";
          velocity_arrow_ns := ""; delta_position_line_ns := "";
          width_line_ns := ""; topic_ema := "";
          topic_objects_closest_point_markers := "";
          topic_objects_velocity_arrows := "";
          topic_objects_delta_position_lines := "";
          topic_objects_width_lines := ""; topic_objects := "";
          publish_buffer_size := 0; node_name_suffix := "" |};
     init := spec_init;
     addMessage := spec_addMessage;
     findAndReportMovingObjects := spec_findAndReportMovingObjects |}.

(** ** Concrete inputs, for evaluating the definitions *)

Definition example_ceilings : Ceilings :=
  {| max_time := 1%Q; max_messages := 2%Z |}.

Definition example_argument : BankArgument :=
  {| ema_alpha := 1.0%Q; nr_scans_in_bank := 11;
     object_threshold_edge_max_delta_range := 0.15%Q;
     object_threshold_min_nr_points := 5;
     object_threshold_max_distance := 6.5%Q;
     object_threshold_min_speed := 0.1%Q;
     object_threshold_max_delta_width_in_points := 15;
     object_threshold_bank_tracking_max_delta_distance := 0.4%Q;
     object_threshold_min_confidence := 0.7%Q;
     base_confidence := 0.4%Q;
     publish_ema := true;
     publish_objects_closest_point_markers := true;
     publish_objects_velocity_arrows := true;
     publish_objects_delta_position_lines := true;
     publish_objects_width_lines := true;
     velocity_arrows_use_full_gray_scale := false;
     velocity_arrows_use_sensor_frame := false;
     velocity_arrows_use_base_frame := false;
     velocity_arrows_use_fixed_frame := false;
     publish_objects := true;
     map_frame := "map"; fixed_frame := "odom"; base_frame := "base_link";
     velocity_arrow_ns := "velocity_arrow";
     delta_position_line_ns := "delta_position_line";
     width_line_ns := "width_line";
     topic_ema := "ema";
     topic_objects_closest_point_markers := "closest_point_markers";
     topic_objects_velocity_arrows := "velocity_arrows";
     topic_objects_delta_position_lines := "delta_position_lines";
     topic_objects_width_lines := "width_lines";
     topic_objects := "moving_objects";
     publish_buffer_size := 10; node_name_suffix := "" |}.

(** The same argument with a negative smoothing factor. *)
Definition negative_alpha_argument : BankArgument :=
  {| ema_alpha := (-1)%Q; nr_scans_in_bank := 11;
     object_threshold_edge_max_delta_range := 0.15%Q;
     object_threshold_min_nr_points := 5;
     object_threshold_max_distance := 6.5%Q;
     object_threshold_min_speed := 0.1%Q;
     object_threshold_max_delta_width_in_points := 15;
     object_threshold_bank_tracking_max_delta_distance := 0.4%Q;
     object_threshold_min_confidence := 0.7%Q;
     base_confidence := 0.4%Q;
     publish_ema := true;
     publish_objects_closest_point_markers := true;
     publish_objects_velocity_arrows := true;
     publish_objects_delta_position_lines := true;
     publish_objects_width_lines := true;
     velocity_arrows_use_full_gray_scale := false;
     velocity_arrows_use_sensor_frame := false;
     velocity_arrows_use_base_frame := false;
     velocity_arrows_use_fixed_frame := false;
     publish_objects := true;
     map_frame := "map"; fixed_frame := "odom"; base_frame := "base_link";
     velocity_arrow_ns := "velocity_arrow";
     delta_position_line_ns := "delta_position_line";
     width_line_ns := "width_line";
     topic_ema := "ema";
     topic_objects_closest_point_markers := "closest_point_markers";
     topic_objects_velocity_arrows := "velocity_arrows";
     topic_objects_delta_position_lines := "delta_position_lines";
     topic_objects_width_lines := "width_lines";
     topic_objects := "moving_objects";
     publish_buffer_size := 10; node_name_suffix := "" |}.

Definition example_object : MovingObject := {| seen_width := 0.3%Q |}.

(** A scan with three readings, and one with none. *)
Definition three_ranges_scan : LaserScan :=
  {| frame_id := "laser"; stamp := 0%Q;
     angle_min := (-1)%Q; angle_max := 1%Q; angle_increment := 1%Q;
     time_increment := 0%Q; scan_time := 0.1%Q;
     range_min := 0.1%Q; range_max := 10%Q;
     ranges := [5%Q; 5%Q; 5%Q]; intensities := [] |}.

Definition empty_scan : LaserScan :=
  {| frame_id := "laser"; stamp := 0%Q;
     angle_min := (-1)%Q; angle_max := 1%Q; angle_increment := 1%Q;
     time_increment := 0%Q; scan_time := 0.1%Q;
     range_min := 0.1%Q; range_max := 10%Q;
     ranges := []; intensities := [] |}.

(** Three messages, half a second apart: with [example_ceilings] the first
    starts the rate measurement and the third ends it. *)
Definition warm_up_queue {M : Type} (m : M) : list (Stamped M) :=
  [ {| now := 10%Q; message := m |};
    {| now := 10.5%Q; message := m |};
    {| now := 11%Q; message := m |} ].

Module LS := LaserScanInterpreterNode.
Module LSA := LaserScanArrayInterpreterNode.

(** A single-scan node in the middle of its rate measurement: started at
    time 10 with a target of one second, one message counted. *)
Definition measuring_node : LS.Node (bank_class := spec_bank) :=
  {| LS.sub := CbHzCalculation;
     LS.received_messages := 1;
     LS.optimize_nr_scans_in_bank := 1%Q;
     LS.start_time := 10%Q;
     LS.bank_argument := example_argument;
     LS.bank := Bank_new;
     LS.globals := globals_init |}.


(** Ceilings of one second and a hundred messages. *)
Definition time_ceilings : Ceilings :=
  {| max_time := 1%Q; max_messages := 100%Z |}.

(** A single-scan node in the middle of its rate measurement, where the
    rounding of [double] shows: started at the [double] 0.2 with a target of
    the [double] 0.3 seconds, nine messages counted. *)
Definition rounding_node : LS.Node (bank_class := spec_bank) :=
  {| LS.sub := CbHzCalculation;
     LS.received_messages := 9;
     LS.optimize_nr_scans_in_bank := double_literal 0.3;
     LS.start_time := double_literal 0.2;
     LS.bank_argument := example_argument;
     LS.bank := Bank_new;
     LS.globals := globals_init |}.

(** The same for the scan-array build. *)
Definition rounding_array_node : LSA.Node (bank_class := spec_bank) :=
  {| LSA.sub := CbHzCalculation;
     LSA.received_messages := 9;
     LSA.optimize_nr_scans_in_bank := double_literal 0.3;
     LSA.start_time := double_literal 0.2;
     LSA.bank_arguments := [example_argument];
     LSA.banks := [];
     LSA.globals := globals_init |}.

(** The tenth message, met at the [double] 1.2: the difference of the two
    clock readings, 1 - 2^-54 before rounding, is the [double] 1. *)
Definition tenth_message {M : Type} (m : M) : Stamped M :=
  {| now := double_literal 1.2; message := m |}.

(** The number of messages of a queue whose callback ends the warm-up: the
    state before it satisfies [warm], the state after it does not. *)
Fixpoint warm_up_ends {M St : Type} (deliver : M → St → option St)
    (warm : St → bool) (queue : list M) (st : St) : nat :=
  match queue with
  | [] => 0
  | m :: queue' =>
      match deliver m st with
      | Some st' =>
          ((if warm st && negb (warm st') then 1 else 0)
           + warm_up_ends deliver warm queue' st')%nat
      | None => 0%nat
      end
  end.

(** The window sizes the Banks of a scan-array node are given. *)
Definition window_sizes `{BankClass} (st : LSA.Node) : list Z :=
  nr_scans_in_bank <$> LSA.bank_arguments st.

(** A scan-array node before its first array message: no Bank yet, and the
    one argument [onInit] pushed. *)
Definition awaiting_first_array `{BankClass} (st : LSA.Node) : Prop :=
  LSA.banks st = [] ∧ ∃ first, LSA.bank_arguments st = [first].

(** Modelled from the spec: [Bank::init] is absent from the source files;
    "initialization-failure [...] engine state unchanged": an [init] that
    returns a failure code leaves the Bank as it found it. *)
Definition init_failure_keeps_bank (B : BankClass) : Prop :=
  ∀ ba scan b, (init ba scan b).1 ≠ 0%Z → (init ba scan b).2 = b.

(** [ba] is [first] with the suffix of stream [i] on the five topic names
    the first-message callback lists, the three namespaces and the node-name
    suffix, and is equal to [first] in every other member, [topic_objects]
    among them. *)
Definition suffixed_copy (i : nat) (first ba : BankArgument) : Prop :=
  topic_ema ba = topic_ema first +:+ "_" +:+ pretty i ∧
  topic_objects_closest_point_markers ba
    = topic_objects_closest_point_markers first +:+ "_" +:+ pretty i ∧
  topic_objects_velocity_arrows ba
    = topic_objects_velocity_arrows first +:+ "_" +:+ pretty i ∧
  topic_objects_delta_position_lines ba
    = topic_objects_delta_position_lines first +:+ "_" +:+ pretty i ∧
  topic_objects_width_lines ba
    = topic_objects_width_lines first +:+ "_" +:+ pretty i ∧
  velocity_arrow_ns ba = velocity_arrow_ns first +:+ "_" +:+ pretty i ∧
  delta_position_line_ns ba = delta_position_line_ns first +:+ "_" +:+ pretty i ∧
  width_line_ns ba = width_line_ns first +:+ "_" +:+ pretty i ∧
  node_name_suffix ba = node_name_suffix first +:+ "_" +:+ pretty i ∧
  topic_objects ba = topic_objects first ∧
  ema_alpha ba = ema_alpha first ∧
  nr_scans_in_bank ba = nr_scans_in_bank first ∧
  object_threshold_edge_max_delta_range ba = object_threshold_edge_max_delta_range first ∧
  object_threshold_min_nr_points ba = object_threshold_min_nr_points first ∧
  object_threshold_max_distance ba = object_threshold_max_distance first ∧
  object_threshold_min_speed ba = object_threshold_min_speed first ∧
  object_threshold_max_delta_width_in_points ba
    = object_threshold_max_delta_width_in_points first ∧
  object_threshold_bank_tracking_max_delta_distance ba
    = object_threshold_bank_tracking_max_delta_distance first ∧
  object_threshold_min_confidence ba = object_threshold_min_confidence first ∧
  base_confidence ba = base_confidence first ∧
  publish_ema ba = publish_ema first ∧
  publish_objects_closest_point_markers ba = publish_objects_closest_point_markers first ∧
  publish_objects_velocity_arrows ba = publish_objects_velocity_arrows first ∧
  publish_objects_delta_position_lines ba = publish_objects_delta_position_lines first ∧
  publish_objects_width_lines ba = publish_objects_width_lines first ∧
  velocity_arrows_use_full_gray_scale ba = velocity_arrows_use_full_gray_scale first ∧
  velocity_arrows_use_sensor_frame ba = velocity_arrows_use_sensor_frame first ∧
  velocity_arrows_use_base_frame ba = velocity_arrows_use_base_frame first ∧
  velocity_arrows_use_fixed_frame ba = velocity_arrows_use_fixed_frame first ∧
  publish_objects ba = publish_objects first ∧
  map_frame ba = map_frame first ∧
  fixed_frame ba = fixed_frame first ∧
  base_frame ba = base_frame first ∧
  publish_buffer_size ba = publish_buffer_size first.

(** A scan-array node in the middle of its rate measurement: started at
    time 10 with a target of one second, one message counted. *)
Definition measuring_array_node : LSA.Node (bank_class := spec_bank) :=
  {| LSA.sub := CbHzCalculation;
     LSA.received_messages := 1;
     LSA.optimize_nr_scans_in_bank := 1%Q;
     LSA.start_time := 10%Q;
     LSA.bank_arguments := [example_argument];
     LSA.banks := [];
     LSA.globals := globals_init |}.

(** A scan-array node with two Banks, as a first array message of
    [three_ranges_scan] and [empty_scan] leaves it: [init] has taken the
    first scan and refused the second. *)
Definition two_stream_node : LSA.Node (bank_class := spec_bank) :=
  {| LSA.sub := CbSteady;
     LSA.received_messages := 0;
     LSA.optimize_nr_scans_in_bank := 0%Q;
     LSA.start_time := 0%Q;
     LSA.bank_arguments :=
       [append_names "_0" example_argument; append_names "_1" example_argument];
     LSA.banks :=
       [ ({| argument := Some (append_names "_0" example_argument);
             window := [three_ranges_scan] |} : Bank (BankClass := spec_bank));
         ({| argument := None; window := [] |} : Bank (BankClass := spec_bank)) ];
     LSA.globals := globals_init |}.

(** What a steady callback does to one Bank with one scan: [addMessage],
    and [findAndReportMovingObjects] when the message was added. *)
Definition add_then_report `{BankClass} (scan : LaserScan) (b : Bank) : Bank :=
  let '(rc, b') := addMessage scan b in
  if decide (rc ≠ 0%Z) then b' else findAndReportMovingObjects b'.

(** The midpoint of the two roots. *)
Definition midpoint (g : Globals) : Q := ((root_1 g + root_2 g) / 2)%Q.

(** The roots of a process started with the target [optimize]: the defaults
    of line 80 while the warm-up lasts ([warm]) and where the target is zero,
    the roots adapted to the target from the end of the warm-up on. *)
Definition roots_of_a_run (optimize : Q) (warm : bool) : Globals :=
  if warm || Qeq_bool optimize 0.0%Q then globals_init else adapted_roots optimize.

(** * Properties *)

(** ** The confidence formula *)

Section Confidence.
Local Open Scope Q_scope.

Lemma a_value : a == -3.
Proof. reflexivity. Qed.

(** The value the code returns, with the coefficient it really uses. *)
Lemma calculateConfidence_formula g mo ba dt w (t1 t2 t3 t4 t5 t6 : bool) :
  calculateConfidence g mo ba dt w t1 t2 t3 t4 t5 t6 ==
  ema_alpha ba *
  (base_confidence ba
   + (if t1 && t2 && t3 && t4 && t5 && t6 then 0.5 else 0)
   + -3 * (dt - root_1 g) * (dt - root_2 g)
   + -5 * Qabs (seen_width mo - w)).
Proof.
  unfold calculateConfidence. rewrite a_value.
  destruct (t1 && t2 && t3 && t4 && t5 && t6); ring.
Qed.

(** The code and the formula of the specification differ by the share of the
    parabola that the lost third of the coefficient carries. *)
Lemma calculateConfidence_vs_spec g mo ba dt w (t1 t2 t3 t4 t5 t6 : bool) :
  calculateConfidence g mo ba dt w t1 t2 t3 t4 t5 t6
  - spec_confidence g mo ba dt w (t1 && t2 && t3 && t4 && t5 && t6)
  == ema_alpha ba * ((1 # 3) * (dt - root_1 g) * (dt - root_2 g)).
Proof.
  unfold calculateConfidence, spec_confidence, spec_a. rewrite a_value.
  destruct (t1 && t2 && t3 && t4 && t5 && t6); ring.
Qed.

(** C1: the formula of the specification has the coefficient -10/3; the
    constant [a] of the code is the integer quotient of -10 by 3, that is -3.
    With the default roots, [ema_alpha = 1], [base_confidence = 0.4], equal
    widths, all six transforms found and [dt = 0.5], the code returns 0.9675
    where the formula of the specification gives 0.975. *)
Theorem calculateConfidence_coefficient_is_truncated :
  a == -3 /\ ~ a == spec_a /\
  calculateConfidence globals_init example_object example_argument 0.5 0.3
    true true true true true true == 0.9675 /\
  spec_confidence globals_init example_object example_argument 0.5 0.3 true
    == 0.975 /\
  ~ calculateConfidence globals_init example_object example_argument 0.5 0.3
      true true true true true true
    == spec_confidence globals_init example_object example_argument 0.5 0.3 true.
Proof.
  repeat split; try reflexivity.
  - intros E. apply Qeq_bool_iff in E. discriminate E.
  - intros E. apply Qeq_bool_iff in E. vm_compute in E. discriminate E.
Qed.

(** The gain of the transform bonus, as a difference. *)
Lemma transform_bonus_difference g mo ba dt w (t1 t2 t3 t4 t5 t6 : bool) :
  t1 && t2 && t3 && t4 && t5 && t6 = false ->
  calculateConfidence g mo ba dt w true true true true true true
  - calculateConfidence g mo ba dt w t1 t2 t3 t4 t5 t6
  == 0.5 * ema_alpha ba.
Proof.
  intros Hsome. unfold calculateConfidence. rewrite Hsome. simpl andb. cbv iota.
  ring.
Qed.

(** C3: with everything else fixed, the confidence with all six transform
    flags true is the confidence with some flag false plus exactly
    [0.5 * ema_alpha]; for a positive [ema_alpha] that is a strict excess. *)
Theorem calculateConfidence_transform_bonus g mo ba dt w (t1 t2 t3 t4 t5 t6 : bool) :
  t1 && t2 && t3 && t4 && t5 && t6 = false ->
  calculateConfidence g mo ba dt w true true true true true true
  - calculateConfidence g mo ba dt w t1 t2 t3 t4 t5 t6
  == 0.5 * ema_alpha ba /\
  (0 < ema_alpha ba ->
   calculateConfidence g mo ba dt w t1 t2 t3 t4 t5 t6
   < calculateConfidence g mo ba dt w true true true true true true).
Proof.
  intros Hsome.
  pose proof (transform_bonus_difference g mo ba dt w _ _ _ _ _ _ Hsome) as Hdiff.
  split; [exact Hdiff|]. intros Hpos. lra.
Qed.

Lemma calculateConfidence_transform_bonus_witness :
  calculateConfidence globals_init example_object example_argument 0.5 0.3
    true true true true true true
  - calculateConfidence globals_init example_object example_argument 0.5 0.3
      true false true true true true
  == 0.5 * ema_alpha example_argument /\
  (0 < ema_alpha example_argument ->
   calculateConfidence globals_init example_object example_argument 0.5 0.3
     true false true true true true
   < calculateConfidence globals_init example_object example_argument 0.5 0.3
       true true true true true true).
Proof.
  apply (calculateConfidence_transform_bonus globals_init example_object
           example_argument 0.5 0.3 true false true true true true).
  reflexivity.
Defined.

Lemma square_le_of_Qabs_le (x y : Q) : Qabs x <= Qabs y -> x * x <= y * y.
Proof.
  intros Hxy.
  assert (Hx : Qabs x * Qabs x == x * x).
  { apply (Qabs_case x (fun r => r * r == x * x)); intros; ring. }
  assert (Hy : Qabs y * Qabs y == y * y).
  { apply (Qabs_case y (fun r => r * r == y * y)); intros; ring. }
  rewrite <- Hx, <- Hy.
  pose proof (Qabs_nonneg x). pose proof (Qabs_nonneg y).
  nra.
Qed.

(** The gap between the confidences at two window durations, in terms of
    their distances to the midpoint of the roots. *)
Lemma calculateConfidence_gap g mo ba w (t1 t2 t3 t4 t5 t6 : bool) dt1 dt2 :
  calculateConfidence g mo ba dt1 w t1 t2 t3 t4 t5 t6
  - calculateConfidence g mo ba dt2 w t1 t2 t3 t4 t5 t6
  == 3 * (ema_alpha ba *
          ((dt2 - midpoint g) * (dt2 - midpoint g)
           - (dt1 - midpoint g) * (dt1 - midpoint g))).
Proof.
  unfold calculateConfidence, midpoint. rewrite a_value.
  destruct (t1 && t2 && t3 && t4 && t5 && t6); field.
Qed.

(** C4, amended: for a smoothing factor that is not negative, the confidence
    does not increase as [dt] moves away from the midpoint of the roots, all
    else fixed; and with [base_confidence = 0.4], [ema_alpha = 1], all six
    transforms found, equal widths and the default roots, the confidence at
    [dt = 0.5] exceeds the confidence at [dt = 0.1] and at [dt = 1]. *)
Theorem calculateConfidence_parabola :
  (forall g mo ba w (t1 t2 t3 t4 t5 t6 : bool) dt1 dt2,
     0 <= ema_alpha ba ->
     Qabs (dt1 - midpoint g) <= Qabs (dt2 - midpoint g) ->
     calculateConfidence g mo ba dt2 w t1 t2 t3 t4 t5 t6
     <= calculateConfidence g mo ba dt1 w t1 t2 t3 t4 t5 t6) /\
  calculateConfidence globals_init example_object example_argument 0.1 0.3
    true true true true true true
  < calculateConfidence globals_init example_object example_argument 0.5 0.3
      true true true true true true /\
  calculateConfidence globals_init example_object example_argument 1.0 0.3
    true true true true true true
  < calculateConfidence globals_init example_object example_argument 0.5 0.3
      true true true true true true.
Proof.
  split; [|split; reflexivity].
  intros g mo ba w t1 t2 t3 t4 t5 t6 dt1 dt2 Halpha Hdist.
  apply square_le_of_Qabs_le in Hdist.
  pose proof (calculateConfidence_gap g mo ba w t1 t2 t3 t4 t5 t6 dt1 dt2) as Hgap.
  set (x := (dt1 - midpoint g) * (dt1 - midpoint g)) in *.
  set (y := (dt2 - midpoint g) * (dt2 - midpoint g)) in *.
  assert (Hpos : 0 <= ema_alpha ba * (y - x)) by (apply Qmult_le_0_compat; lra).
  lra.
Qed.

Lemma calculateConfidence_parabola_witness :
  0 <= ema_alpha example_argument /\
  Qabs (0.5 - midpoint globals_init) <= Qabs (0.1 - midpoint globals_init) /\
  calculateConfidence globals_init example_object example_argument 0.1 0.3
    true true true true true true
  <= calculateConfidence globals_init example_object example_argument 0.5 0.3
       true true true true true true.
Proof.
  split; [|split].
  - discriminate.
  - discriminate.
  - apply (proj1 calculateConfidence_parabola); discriminate.
Defined.

(** C4 as stated fails: with [ema_alpha = -1] the confidence at [dt = 0.1],
    further from the midpoint 0.5, is above the confidence at [dt = 0.5]. *)
Lemma calculateConfidence_parabola_negative_alpha :
  Qabs (0.5 - midpoint globals_init) <= Qabs (0.1 - midpoint globals_init) /\
  ~ calculateConfidence globals_init example_object negative_alpha_argument 0.1 0.3
      true true true true true true
    <= calculateConfidence globals_init example_object negative_alpha_argument 0.5 0.3
         true true true true true true.
Proof.
  split; [discriminate|].
  intros Hle. apply Qle_bool_iff in Hle. vm_compute in Hle. discriminate Hle.
Qed.

End Confidence.

(** ** The bank-size calculation *)

Section BankSize.
Local Open Scope Q_scope.

Lemma Qtruncate_inject_Z (x : Q) (k : Z) : x == inject_Z k -> Qtruncate x = k.
Proof.
  unfold Qeq, Qtruncate. cbn [inject_Z Qnum Qden]. intros Hx.
  rewrite Z.mul_1_r in Hx. rewrite Hx. apply Z.quot_mul. discriminate.
Qed.

Lemma Qtruncate_bounds (lo hi : Z) (x : Q) :
  inject_Z lo <= x <= inject_Z hi -> (lo <= Qtruncate x <= hi)%Z.
Proof.
  unfold Qle, Qtruncate. cbn [inject_Z Qnum Qden]. intros [Hlo Hhi].
  rewrite Z.mul_1_r in Hlo, Hhi.
  assert (Hd : (0 < Z.pos (Qden x))%Z) by reflexivity.
  split.
  - rewrite <- (Z.quot_mul lo (Z.pos (Qden x))) by discriminate.
    apply Z.quot_le_mono; assumption.
  - rewrite <- (Z.quot_mul hi (Z.pos (Qden x))) by discriminate.
    apply Z.quot_le_mono; assumption.
Qed.

Lemma Qceiling_bounds (lo hi : Z) (x : Q) :
  inject_Z lo <= x <= inject_Z hi -> (lo <= Qceiling x <= hi)%Z.
Proof.
  intros [Hlo Hhi]. split.
  - rewrite <- (Qceiling_Z lo). apply Qceiling_resp_le, Hlo.
  - rewrite <- (Qceiling_Z hi). apply Qceiling_resp_le, Hhi.
Qed.

(** The test of the code for "no fractional part" decides integrality. *)
Lemma fraction_test_integral (x : Q) :
  Qeq_bool (x - inject_Z (Qtruncate x)) 0.0 = true <-> exists k : Z, x == inject_Z k.
Proof.
  rewrite Qeq_bool_iff. split.
  - intros Hx. exists (Qtruncate x). lra.
  - intros [k Hk]. rewrite (Qtruncate_inject_Z x k Hk). lra.
Qed.

Lemma double_to_long_in_range (x : Q) :
  (LONG_MIN <= Qtruncate x <= LONG_MAX)%Z -> double_to_long x = Some (Qtruncate x).
Proof.
  intros [Hlo Hhi]. unfold double_to_long. cbv zeta.
  apply Z.leb_le in Hlo, Hhi. rewrite Hlo, Hhi. reflexivity.
Qed.

Lemma double_to_int_in_range (x : Q) :
  (INT_MIN <= Qtruncate x <= INT_MAX)%Z -> double_to_int x = Some (Qtruncate x).
Proof.
  intros [Hlo Hhi]. unfold double_to_int. cbv zeta.
  apply Z.leb_le in Hlo, Hhi. rewrite Hlo, Hhi. reflexivity.
Qed.

Lemma double_to_long_Some (x : Q) (z : Z) :
  double_to_long x = Some z -> z = Qtruncate x.
Proof.
  unfold double_to_long. cbv zeta.
  destruct (_ && _)%bool; [intros [= <-]; reflexivity | discriminate].
Qed.

Lemma double_to_int_Some (x : Q) (z : Z) :
  double_to_int x = Some z -> z = Qtruncate x.
Proof.
  unfold double_to_int. cbv zeta.
  destruct (_ && _)%bool; [intros [= <-]; reflexivity | discriminate].
Qed.

Lemma sanity_check_floor (n : Z) : (2 <= sanity_check n)%Z.
Proof. unfold sanity_check. destruct (Z.ltb_spec n 2); lia. Qed.

Lemma sanity_check_above (n : Z) : (2 <= n)%Z -> sanity_check n = n.
Proof. unfold sanity_check. destruct (Z.ltb_spec n 2); lia. Qed.

(** What [optimized_nr_scans] yields when it yields a value. *)
Lemma optimized_nr_scans_Some (nr_scans : Q) (n : Z) :
  optimized_nr_scans nr_scans = Some n ->
  (forall k : Z, nr_scans == inject_Z k -> n = (k + 1)%Z) /\
  ((forall k : Z, ~ nr_scans == inject_Z k) -> n = Qceiling nr_scans).
Proof.
  unfold optimized_nr_scans. intros Hn.
  destruct (double_to_long nr_scans) as [l|] eqn:Hl; [|discriminate].
  cbn in Hn. apply double_to_long_Some in Hl. subst l.
  destruct (Qeq_bool (nr_scans - inject_Z (Qtruncate nr_scans)) 0.0) eqn:Hfrac.
  - apply fraction_test_integral in Hfrac.
    apply double_to_int_Some in Hn. split.
    + intros k Hk. subst n. apply Qtruncate_inject_Z.
      rewrite Hk, inject_Z_plus. reflexivity.
    + intros Hnone. destruct Hfrac as [k Hk]. destruct (Hnone k Hk).
  - apply double_to_int_Some in Hn. split.
    + intros k Hk.
      assert (Hint : Qeq_bool (nr_scans - inject_Z (Qtruncate nr_scans)) 0.0 = true)
        by (apply fraction_test_integral; exists k; exact Hk).
      congruence.
    + intros _. subst n. apply Qtruncate_inject_Z. reflexivity.
Qed.

(** In the range of [int] the calculation has a value. *)
Lemma optimized_nr_scans_defined (nr_scans : Q) :
  inject_Z INT_MIN <= nr_scans <= inject_Z (INT_MAX - 1) ->
  exists n : Z, optimized_nr_scans nr_scans = Some n.
Proof.
  intros Hrange.
  pose proof (Qtruncate_bounds _ _ _ Hrange) as Htrunc.
  pose proof (Qceiling_bounds _ _ _ Hrange) as Hceil.
  unfold optimized_nr_scans.
  rewrite double_to_long_in_range
    by (unfold LONG_MIN, LONG_MAX, INT_MIN, INT_MAX in *; lia).
  cbn [mbind option_bind].
  destruct (Qeq_bool (nr_scans - inject_Z (Qtruncate nr_scans)) 0.0) eqn:Hfrac.
  - apply Qeq_bool_iff in Hfrac.
    assert (Hnext : nr_scans + 1 == inject_Z (Qtruncate nr_scans + 1)).
    { rewrite inject_Z_plus. change (inject_Z 1) with 1. lra. }
    eexists. apply double_to_int_in_range.
    rewrite (Qtruncate_inject_Z _ _ Hnext).
    unfold INT_MIN, INT_MAX in *. lia.
  - eexists. apply double_to_int_in_range.
    rewrite (Qtruncate_inject_Z (inject_Z (Qceiling nr_scans)) (Qceiling nr_scans))
      by reflexivity.
    unfold INT_MIN, INT_MAX in *. lia.
Qed.

(** The boundary on numbers: 0.5 s at 10 Hz gives 6 scans, 0.5 s at 11 Hz
    gives 6 scans, and a target of -1 s gives 2 scans after the check. *)
Example optimized_nr_scans_examples :
  optimized_nr_scans (0.5 * 10) = Some 6%Z /\
  optimized_nr_scans (0.5 * 11) = Some 6%Z /\
  option_map sanity_check (optimized_nr_scans (-1 * 10)) = Some 2%Z.
Proof. repeat split. Qed.

(** The rounding on numbers: a [double] is kept; one third goes to the
    nearest [double]; a tie goes to the neighbour with the even significand;
    half the least subnormal number goes to zero; and 2^1024 has no value. *)
Example round_double_examples :
  round_double (3 # 4) = Some (3 # 4) /\
  round_double (1 # 3) = Some (6004799503160661 # 18014398509481984) /\
  round_double (inject_Z (2 ^ 53 + 1)) = Some (inject_Z (2 ^ 53)) /\
  round_double (inject_Z (2 ^ 53 + 3)) = Some (inject_Z (2 ^ 53 + 4)) /\
  round_double (1 # 2 ^ 1075) = Some 0 /\
  round_double (inject_Z (2 ^ 1024)) = None.
Proof. repeat split; vm_compute; reflexivity. Qed.

End BankSize.

(** ** Loops and the receive loop *)

Section Loops.
Context {St : Type}.

(** A loop whose body keeps an invariant indexed by the counter runs to
    its end and establishes the invariant there. *)
Lemma for_loop_invariant (P : nat → St → Prop) (body : nat → St → option St)
    (n i : nat) (s : St) :
  P i s →
  (∀ j t, i ≤ j < i + n → P j t → ∃ t', body j t = Some t' ∧ P (S j) t') →
  ∃ s', for_loop n i body s = Some s' ∧ P (i + n) s'.
Proof.
  revert i s. induction n as [|n IH]; intros i s Hs Hbody.
  - exists s. rewrite Nat.add_0_r. split; [reflexivity | exact Hs].
  - destruct (Hbody i s) as (t & Ht & HPt); [lia | exact Hs |].
    destruct (IH (S i) t HPt) as (s' & Hs' & HPs').
    { intros j u Hj. apply Hbody. lia. }
    exists s'. cbn [for_loop]. rewrite Ht. cbn [mbind option_bind].
    split; [exact Hs'|]. replace (i + S n) with (S i + n) by lia. exact HPs'.
Qed.

(** What every turn of the body preserves, the loop preserves. *)
Lemma for_loop_preserves (P : St → Prop) (body : nat → St → option St)
    (n i : nat) (s s' : St) :
  (∀ j t t', P t → body j t = Some t' → P t') →
  P s → for_loop n i body s = Some s' → P s'.
Proof.
  intros Hbody. revert i s. induction n as [|n IH]; intros i s Hs; cbn [for_loop].
  - intros [= <-]. exact Hs.
  - destruct (body i s) as [t|] eqn:Ht; [|discriminate].
    cbn [mbind option_bind]. apply IH. exact (Hbody _ _ _ Hs Ht).
Qed.
End Loops.

Section ReceiveLoop.
Context {M St : Type} (deliver : M → St → option St) (warm : St → bool).

(** No callback of the steady part rebinds a callback of the warm-up. *)
Hypothesis warm_up_is_left_for_good :
  ∀ m st st', warm st = false → deliver m st = Some st' → warm st' = false.

Lemma spin_stays_out (queue : list M) (st st' : St) :
  warm st = false → spin deliver queue st = Some st' → warm st' = false.
Proof.
  revert st. induction queue as [|m queue IH]; intros st Hst; cbn [spin].
  - intros [= <-]. exact Hst.
  - destruct (deliver m st) as [st1|] eqn:Hstep; [|discriminate].
    cbn [mbind option_bind]. apply IH. eauto.
Qed.

Lemma warm_up_ends_none (queue : list M) (st : St) :
  warm st = false → warm_up_ends deliver warm queue st = 0.
Proof.
  revert st. induction queue as [|m queue IH]; intros st Hst; cbn [warm_up_ends].
  - reflexivity.
  - destruct (deliver m st) as [st1|] eqn:Hstep; [|reflexivity].
    rewrite Hst, (IH st1) by eauto. reflexivity.
Qed.

Lemma warm_up_ends_at_most_once (queue : list M) (st : St) :
  warm_up_ends deliver warm queue st ≤ 1.
Proof.
  revert st. induction queue as [|m queue IH]; intros st; cbn [warm_up_ends].
  - lia.
  - destruct (deliver m st) as [st1|] eqn:Hstep; [|lia].
    destruct (warm st) eqn:Hst; destruct (warm st1) eqn:Hst1; cbn [andb negb].
    + apply IH.
    + rewrite warm_up_ends_none by exact Hst1. lia.
    + apply IH.
    + apply IH.
Qed.

Lemma warm_up_ends_exactly_once (queue : list M) (st st' : St) :
  warm st = true → spin deliver queue st = Some st' → warm st' = false →
  warm_up_ends deliver warm queue st = 1.
Proof.
  revert st. induction queue as [|m queue IH]; intros st Hst; cbn [spin warm_up_ends].
  - intros [= <-] Hst'. congruence.
  - destruct (deliver m st) as [st1|] eqn:Hstep; [|discriminate].
    cbn [mbind option_bind]. intros Hrun Hst'. rewrite Hst.
    destruct (warm st1) eqn:Hst1; cbn [andb negb].
    + apply (IH st1); assumption.
    + rewrite warm_up_ends_none by exact Hst1. reflexivity.
Qed.
End ReceiveLoop.

(** ** The single-scan interpreter *)

Section SingleScan.
Context {ceilings : Ceilings} {bank_class : BankClass}.

(** The two callbacks of the steady part touch the Bank and, once, the
    binding of [sub]; they leave every other member and the roots alone. *)
Lemma LS_steady_step (ev : Stamped LaserScan) (st st' : LS.Node) :
  warming_up (LS.sub st) = false →
  LS.deliver ev st = Some st' →
  warming_up (LS.sub st') = false ∧
  LS.globals st' = LS.globals st ∧
  LS.bank_argument st' = LS.bank_argument st ∧
  LS.received_messages st' = LS.received_messages st ∧
  LS.optimize_nr_scans_in_bank st' = LS.optimize_nr_scans_in_bank st ∧
  LS.start_time st' = LS.start_time st.
Proof.
  unfold LS.deliver. intros Hwarm.
  destruct (LS.sub st) eqn:Hsub; try discriminate Hwarm; intros [= <-].
  - unfold LS.laserScanCallbackFirst.
    destruct (init _ _ _) as [rc b].
    destruct (decide (rc ≠ 0%Z)); cbn; rewrite ?Hsub; repeat split.
  - unfold LS.laserScanCallback.
    destruct (addMessage _ _) as [rc b]. cbn. rewrite Hsub. repeat split.
Qed.

Lemma LS_steady_spin (queue : list (Stamped LaserScan)) (st st' : LS.Node) :
  warming_up (LS.sub st) = false →
  spin LS.deliver queue st = Some st' →
  warming_up (LS.sub st') = false ∧
  LS.globals st' = LS.globals st ∧
  LS.bank_argument st' = LS.bank_argument st.
Proof.
  revert st. induction queue as [|ev queue IH]; intros st Hwarm; cbn [spin].
  - intros [= <-]. auto.
  - destruct (LS.deliver ev st) as [st1|] eqn:Hstep; [|discriminate].
    cbn [mbind option_bind]. intros Hrun.
    destruct (LS_steady_step ev st st1 Hwarm Hstep) as (Hw1 & Hg1 & Hb1 & _).
    destruct (IH st1 Hw1 Hrun) as (Hw' & Hg' & Hb').
    rewrite Hg', Hb'. auto.
Qed.

(** A rate has been measured where time has elapsed and the quotient of
    count and elapsed time is a finite [double]. *)
Lemma measured_hz_Some (received : Z) (elapsed_time hz : Q) :
  measured_hz received elapsed_time = Some hz ↔
  ¬ (elapsed_time == 0)%Q ∧
  round_double (inject_Z received / elapsed_time) = Some hz.
Proof.
  unfold measured_hz. destruct (Qeq_bool elapsed_time 0) eqn:Hzero.
  - apply Qeq_bool_iff in Hzero.
    split; [discriminate | intros [Hne _]; contradiction].
  - apply Qeq_bool_neq in Hzero.
    split; [intros Hhz; split; assumption | intros [_ Hhz]; exact Hhz].
Qed.

(** The rate calculation, case by case: a callback that returns has found a
    finite [elapsed_time], and has either counted the message and nothing
    else, or ended the warm-up with the measured rate, the bank size
    calculated from the rounded product and the adapted roots. *)
Lemma LS_hz_cases (time_now : Q) (st st' : LS.Node) :
  LS.hzCalculationCallback time_now st = Some st' →
  ∃ elapsed_time : Q,
    round_double (time_now - LS.start_time st) = Some elapsed_time ∧
    ((are_we_done max_time max_messages elapsed_time (LS.received_messages st + 1)
      = false ∧
      st' = {| LS.sub := LS.sub st;
             LS.received_messages := LS.received_messages st + 1;
             LS.optimize_nr_scans_in_bank := LS.optimize_nr_scans_in_bank st;
             LS.start_time := LS.start_time st;
             LS.bank_argument := LS.bank_argument st;
             LS.bank := LS.bank st;
             LS.globals := LS.globals st |}) ∨
     (are_we_done max_time max_messages elapsed_time (LS.received_messages st + 1)
      = true ∧
      ∃ (hz nr_scans : Q) (n : Z),
        measured_hz (LS.received_messages st + 1) elapsed_time = Some hz ∧
        round_double (LS.optimize_nr_scans_in_bank st * hz) = Some nr_scans ∧
        optimized_nr_scans nr_scans = Some n ∧
        st' = {| LS.sub := CbFirst;
               LS.received_messages := LS.received_messages st + 1;
               LS.optimize_nr_scans_in_bank := LS.optimize_nr_scans_in_bank st;
               LS.start_time := LS.start_time st;
               LS.bank_argument :=
                 set_nr_scans_in_bank (sanity_check n) (LS.bank_argument st);
               LS.bank := LS.bank st;
               LS.globals := adapted_roots (LS.optimize_nr_scans_in_bank st) |})).
Proof.
  unfold LS.hzCalculationCallback.
  destruct (round_double (time_now - LS.start_time st)) as [elapsed_time|];
    [|discriminate].
  cbn [mbind option_bind]. intros Hstep. exists elapsed_time. split; [reflexivity|].
  destruct (are_we_done _ _ _ _).
  - right. split; [reflexivity|].
    destruct (measured_hz _ _) as [hz|] eqn:Hhz; [|discriminate].
    cbn [mbind option_bind] in Hstep.
    destruct (round_double (_ * hz)) as [nr_scans|] eqn:Hnr; [|discriminate].
    cbn [mbind option_bind] in Hstep.
    destruct (optimized_nr_scans nr_scans) as [n|] eqn:Hn; [|discriminate].
    cbn [mbind option_bind] in Hstep. injection Hstep as <-.
    exists hz, nr_scans, n. repeat split; assumption.
  - left. injection Hstep as <-. auto.
Qed.

(** A message that reaches neither ceiling is counted and nothing else. *)
Lemma LS_hz_not_done (time_now elapsed_time : Q) (st : LS.Node) :
  round_double (time_now - LS.start_time st) = Some elapsed_time →
  are_we_done max_time max_messages elapsed_time (LS.received_messages st + 1)
  = false →
  LS.hzCalculationCallback time_now st =
  Some {| LS.sub := LS.sub st;
          LS.received_messages := LS.received_messages st + 1;
          LS.optimize_nr_scans_in_bank := LS.optimize_nr_scans_in_bank st;
          LS.start_time := LS.start_time st;
          LS.bank_argument := LS.bank_argument st;
          LS.bank := LS.bank st;
          LS.globals := LS.globals st |}.
Proof.
  unfold LS.hzCalculationCallback. intros -> Hnot.
  cbn [mbind option_bind]. rewrite Hnot. reflexivity.
Qed.

(** Every callback of the single-scan node keeps a node that left the
    warm-up out of it. *)
Lemma LS_warm_up_is_left_for_good (ev : Stamped LaserScan) (st st' : LS.Node) :
  warming_up (LS.sub st) = false →
  LS.deliver ev st = Some st' →
  warming_up (LS.sub st') = false.
Proof. intros Hw Hstep. exact (proj1 (LS_steady_step ev st st' Hw Hstep)). Qed.
End SingleScan.

(** ** The scan-array interpreter *)

Section ScanArray.
Context {ceilings : Ceilings} {bank_class : BankClass}.

Lemma vector_assign_in_range {A : Type} (i : nat) (x : A) (v : list A) :
  i < length v → vector_assign i x v = Some (<[i := x]> v).
Proof. intros Hi. unfold vector_assign. rewrite decide_True by exact Hi. reflexivity. Qed.

Lemma vector_assign_length {A : Type} (i : nat) (x : A) (v v' : list A) :
  vector_assign i x v = Some v' → length v' = length v.
Proof.
  unfold vector_assign. destruct (decide _); [|discriminate].
  intros [= <-]. apply length_insert.
Qed.

Lemma append_names_suffixed_copy (i : nat) (first : BankArgument) :
  suffixed_copy i first (append_names (append_str_of i) first).
Proof.
  unfold suffixed_copy, append_names, append_str_of. cbn [topic_ema
    topic_objects_closest_point_markers topic_objects_velocity_arrows
    topic_objects_delta_position_lines topic_objects_width_lines
    velocity_arrow_ns delta_position_line_ns width_line_ns node_name_suffix].
  repeat split.
Qed.

(** The creation loop: every slot gets a Bank and a copy of the first
    argument. *)
Lemma create_banks_loop (n : nat) (first : BankArgument) :
  ∃ bks bas,
    for_loop n 0 LSA.create_bank
      (resize n Bank_new [], resize n BankArgument_new [first]) = Some (bks, bas) ∧
    length bks = n ∧ length bas = n ∧
    ∀ k, k < n → bas !! k = Some first.
Proof.
  destruct (for_loop_invariant
    (λ j (s : list Bank * list BankArgument),
       length s.1 = n ∧ length s.2 = n ∧
       (0 < n → s.2 !! 0 = Some first) ∧
       ∀ k, k < j → s.2 !! k = Some first)
    LSA.create_bank n 0
    (resize n Bank_new [], resize n BankArgument_new [first]))
    as ([bks bas] & Hrun & Hbks & Hbas & _ & Hall).
  - cbn [fst snd]. rewrite !length_resize. repeat split.
    + intros Hn. rewrite lookup_resize by (cbn; lia). reflexivity.
    + intros k Hk. lia.
  - intros j [bks bas] Hj (Hbks & Hbas & Hfirst & Hdone). cbn [fst snd] in *.
    unfold LSA.create_bank. cbn [fst snd].
    rewrite vector_assign_in_range by lia. cbn [mbind option_bind].
    rewrite Hfirst by lia. cbn [mbind option_bind].
    rewrite vector_assign_in_range by lia. cbn [mbind option_bind].
    eexists. split; [reflexivity|]. cbn [fst snd].
    rewrite !length_insert. repeat split; try assumption.
    + intros Hn. destruct (decide (j = 0)) as [->|Hne].
      * apply list_lookup_insert_eq. lia.
      * rewrite list_lookup_insert_ne by exact Hne. auto.
    + intros k Hk. destruct (decide (j = k)) as [->|Hne].
      * apply list_lookup_insert_eq. lia.
      * rewrite list_lookup_insert_ne by exact Hne. apply Hdone. lia.
  - exists bks, bas. cbn [fst snd] in *. repeat split; try assumption.
Qed.

(** The modification loop: slot [k] gets the suffix of stream [k]. *)
Lemma modify_bank_arguments_loop (n : nat) (first : BankArgument)
    (bas : list BankArgument) :
  length bas = n →
  (∀ k, k < n → bas !! k = Some first) →
  ∃ bas',
    for_loop n 0 LSA.modify_bank_argument bas = Some bas' ∧
    length bas' = n ∧
    ∀ k, k < n → bas' !! k = Some (append_names (append_str_of k) first).
Proof.
  intros Hlen Hcopies.
  destruct (for_loop_invariant
    (λ j (t : list BankArgument),
       length t = n ∧
       (∀ k, k < j → t !! k = Some (append_names (append_str_of k) first)) ∧
       (∀ k, j ≤ k < n → t !! k = Some first))
    LSA.modify_bank_argument n 0 bas)
    as (bas' & Hrun & Hlen' & Hall & _).
  - repeat split; [exact Hlen | intros k Hk; lia | intros k Hk; apply Hcopies; lia].
  - intros j t Hj (Ht & Hdone & Htodo).
    unfold LSA.modify_bank_argument.
    rewrite Htodo by lia. cbn [mbind option_bind].
    rewrite vector_assign_in_range by lia.
    eexists. split; [reflexivity|]. rewrite length_insert. repeat split.
    + exact Ht.
    + intros k Hk. destruct (decide (j = k)) as [->|Hne].
      * apply list_lookup_insert_eq. lia.
      * rewrite list_lookup_insert_ne by exact Hne. apply Hdone. lia.
    + intros k Hk. rewrite list_lookup_insert_ne by lia. apply Htodo. lia.
  - exists bas'. repeat split; assumption.
Qed.

(** The initialization loop runs over all Banks, whatever [init] returns. *)
Lemma init_banks_loop (bas : list BankArgument) (scans : list LaserScan)
    (bks : list Bank) :
  length bks = length scans → length bas = length scans →
  ∃ bks', for_loop (length scans) 0 (LSA.init_bank bas scans) bks = Some bks' ∧
          length bks' = length scans.
Proof.
  intros Hbks Hbas.
  destruct (for_loop_invariant
    (λ (_ : nat) (t : list Bank), length t = length scans)
    (LSA.init_bank bas scans) (length scans) 0 bks) as (bks' & Hrun & Hlen').
  - exact Hbks.
  - intros j t Hj Ht. unfold LSA.init_bank.
    destruct (lookup_lt_is_Some_2 t j) as [b ->]; [lia|].
    destruct (lookup_lt_is_Some_2 bas j) as [ba ->]; [lia|].
    destruct (lookup_lt_is_Some_2 scans j) as [m ->]; [lia|].
    cbn [mbind option_bind].
    rewrite vector_assign_in_range by lia.
    eexists. split; [reflexivity|]. rewrite length_insert. exact Ht.
  - exists bks'. split; assumption.
Qed.

(** The first array message: as many Banks as the message has scans, each
    with its suffixed copy of the first argument, and the steady callback
    bound whatever the calls of [init] returned. *)
Lemma LSA_first_array_message (msg : LaserScanArray) (st : LSA.Node)
    (first : BankArgument) :
  LSA.banks st = [] → LSA.bank_arguments st = [first] →
  ∃ st',
    LSA.laserScanArrayCallbackFirst msg st = Some st' ∧
    LSA.sub st' = CbSteady ∧
    length (LSA.banks st') = length (msgs msg) ∧
    length (LSA.bank_arguments st') = length (msgs msg) ∧
    (∀ i, i < length (msgs msg) →
       LSA.bank_arguments st' !! i = Some (append_names (append_str_of i) first)) ∧
    LSA.globals st' = LSA.globals st.
Proof.
  intros Hbanks Hargs. unfold LSA.laserScanArrayCallbackFirst. cbv zeta.
  rewrite Hbanks, Hargs. cbn [length]. rewrite decide_True by reflexivity.
  destruct (create_banks_loop (length (msgs msg)) first)
    as (bks & bas & -> & Hbks & Hbas & Hcopies).
  cbn [mbind option_bind].
  destruct (modify_bank_arguments_loop _ first bas Hbas Hcopies)
    as (bas' & -> & Hbas' & Hsuffixed).
  cbn [mbind option_bind].
  destruct (init_banks_loop bas' (msgs msg) bks Hbks Hbas') as (bks' & -> & Hbks').
  cbn [mbind option_bind].
  eexists. split; [reflexivity|]. cbn. repeat split; assumption.
Qed.
(** The first-message callback binds the steady callback whenever it
    returns, whatever the state it started in. *)
Lemma LSA_first_binds_steady (msg : LaserScanArray) (st st' : LSA.Node) :
  LSA.laserScanArrayCallbackFirst msg st = Some st' → LSA.sub st' = CbSteady.
Proof.
  unfold LSA.laserScanArrayCallbackFirst. cbv zeta. intros Hrun.
  destruct (if decide (length (LSA.banks st) = 0) then _ else _) as [[bks bas]|];
    [|discriminate].
  cbn [mbind option_bind] in Hrun.
  destruct (for_loop _ 0 (LSA.init_bank bas (msgs msg)) bks); [|discriminate].
  injection Hrun as <-. reflexivity.
Qed.

Lemma add_and_report_length (scans : list LaserScan) (i : nat)
    (bks bks' : list Bank) :
  LSA.add_and_report scans i bks = Some bks' → length bks' = length bks.
Proof.
  unfold LSA.add_and_report.
  destruct (bks !! i) as [b|]; [|discriminate].
  destruct (scans !! i) as [m|]; [|discriminate].
  cbn [mbind option_bind]. destruct (addMessage m b) as [rc b'].
  destruct (decide (rc ≠ 0%Z)); apply vector_assign_length.
Qed.

(** The steady callback works on the Banks it finds: their number, the
    arguments, the roots and the binding stay. *)
Lemma LSA_steady_message (msg : LaserScanArray) (st st' : LSA.Node) :
  LSA.laserScanArrayCallback msg st = Some st' →
  LSA.sub st' = LSA.sub st ∧
  LSA.bank_arguments st' = LSA.bank_arguments st ∧
  LSA.globals st' = LSA.globals st ∧
  length (LSA.banks st') = length (LSA.banks st).
Proof.
  unfold LSA.laserScanArrayCallback.
  destruct (for_loop _ _ _ _) as [bks|] eqn:Hloop; [|discriminate].
  intros [= <-]. cbn. repeat split.
  apply (for_loop_preserves (λ t, length t = length (LSA.banks st))
           _ _ _ _ _ (λ j t t' Ht Hstep, eq_trans (add_and_report_length _ _ _ _ Hstep) Ht)
           eq_refl Hloop).
Qed.

(** What the two callbacks of the steady part leave alone. *)
Lemma LSA_first_keeps_members (msg : LaserScanArray) (st st' : LSA.Node) :
  LSA.laserScanArrayCallbackFirst msg st = Some st' →
  LSA.received_messages st' = LSA.received_messages st ∧
  LSA.optimize_nr_scans_in_bank st' = LSA.optimize_nr_scans_in_bank st ∧
  LSA.start_time st' = LSA.start_time st ∧
  LSA.globals st' = LSA.globals st.
Proof.
  unfold LSA.laserScanArrayCallbackFirst. cbv zeta. intros Hrun.
  destruct (if decide (length (LSA.banks st) = 0) then _ else _) as [[bks bas]|];
    [|discriminate].
  cbn [mbind option_bind] in Hrun.
  destruct (for_loop _ 0 (LSA.init_bank bas (msgs msg)) bks); [|discriminate].
  injection Hrun as <-. repeat split.
Qed.

Lemma LSA_steady_keeps_members (msg : LaserScanArray) (st st' : LSA.Node) :
  LSA.laserScanArrayCallback msg st = Some st' →
  LSA.received_messages st' = LSA.received_messages st ∧
  LSA.optimize_nr_scans_in_bank st' = LSA.optimize_nr_scans_in_bank st ∧
  LSA.start_time st' = LSA.start_time st.
Proof.
  unfold LSA.laserScanArrayCallback.
  destruct (for_loop _ _ _ _); [|discriminate]. intros [= <-]. repeat split.
Qed.

Lemma LSA_steady_spin (queue : list (Stamped LaserScanArray)) (st st' : LSA.Node) :
  LSA.sub st = CbSteady →
  spin LSA.deliver queue st = Some st' →
  LSA.sub st' = CbSteady ∧
  LSA.bank_arguments st' = LSA.bank_arguments st ∧
  LSA.globals st' = LSA.globals st ∧
  length (LSA.banks st') = length (LSA.banks st).
Proof.
  revert st. induction queue as [|ev queue IH]; intros st Hsub; cbn [spin].
  - intros [= <-]. auto.
  - destruct (LSA.deliver ev st) as [st1|] eqn:Hstep; [|discriminate].
    cbn [mbind option_bind]. intros Hrun.
    unfold LSA.deliver in Hstep. rewrite Hsub in Hstep.
    destruct (LSA_steady_message _ _ _ Hstep) as (Hs1 & Ha1 & Hg1 & Hl1).
    rewrite Hsub in Hs1.
    destruct (IH st1 Hs1 Hrun) as (Hs' & Ha' & Hg' & Hl').
    rewrite Ha', Hg', Hl'. auto.
Qed.

Lemma LSA_warm_up_is_left_for_good (ev : Stamped LaserScanArray) (st st' : LSA.Node) :
  warming_up (LSA.sub st) = false →
  LSA.deliver ev st = Some st' →
  warming_up (LSA.sub st') = false.
Proof.
  unfold LSA.deliver. intros Hwarm.
  destruct (LSA.sub st) eqn:Hsub; try discriminate Hwarm; intros Hstep.
  - rewrite (LSA_first_binds_steady _ _ _ Hstep). reflexivity.
  - destruct (LSA_steady_message _ _ _ Hstep) as (-> & _). rewrite Hsub. reflexivity.
Qed.

(** Out of the warm-up, one message: the steady callback is bound
    afterwards, the roots are kept and no window size appears that was not
    there before. *)
Lemma LSA_steady_step (ev : Stamped LaserScanArray) (st st' : LSA.Node) :
  warming_up (LSA.sub st) = false →
  LSA.sub st = CbSteady ∨ awaiting_first_array st →
  LSA.deliver ev st = Some st' →
  LSA.sub st' = CbSteady ∧
  LSA.globals st' = LSA.globals st ∧
  window_sizes st' ⊆ window_sizes st.
Proof.
  unfold LSA.deliver. intros Hwarm Hinv.
  destruct (LSA.sub st) eqn:Hsub; try discriminate Hwarm; intros Hstep.
  - destruct Hinv as [?|(Hbanks & first & Hargs)]; [discriminate|].
    destruct (LSA_first_array_message (message ev) st first Hbanks Hargs)
      as (st1 & Hst1 & Hs1 & _ & Hlen & Hsuffixed & Hg1).
    rewrite Hst1 in Hstep. injection Hstep as <-.
    split; [exact Hs1|]. split; [exact Hg1|].
    unfold window_sizes. rewrite Hargs. intros n Hn.
    apply list_elem_of_fmap in Hn as (ba & -> & Hba).
    apply list_elem_of_lookup in Hba as (i & Hi).
    assert (Hrange : i < length (msgs (message ev))).
    { rewrite <- Hlen. apply lookup_lt_is_Some. eauto. }
    rewrite (Hsuffixed i Hrange) in Hi. injection Hi as <-.
    cbn. left.
  - destruct (LSA_steady_message _ _ _ Hstep) as (Hs1 & Ha1 & Hg1 & _).
    rewrite Hsub in Hs1. split; [exact Hs1|]. split; [exact Hg1|].
    unfold window_sizes. rewrite Ha1. reflexivity.
Qed.

Lemma LSA_out_of_warm_up_spin (queue : list (Stamped LaserScanArray))
    (st st' : LSA.Node) :
  warming_up (LSA.sub st) = false →
  LSA.sub st = CbSteady ∨ awaiting_first_array st →
  spin LSA.deliver queue st = Some st' →
  warming_up (LSA.sub st') = false ∧
  LSA.globals st' = LSA.globals st ∧
  window_sizes st' ⊆ window_sizes st.
Proof.
  intros Hwarm Hinv. destruct queue as [|ev queue]; cbn [spin].
  - intros [= <-]. auto.
  - destruct (LSA.deliver ev st) as [st1|] eqn:Hstep; [|discriminate].
    cbn [mbind option_bind]. intros Hrun.
    destruct (LSA_steady_step ev st st1 Hwarm Hinv Hstep) as (Hs1 & Hg1 & Hw1).
    destruct (LSA_steady_spin queue st1 st' Hs1 Hrun) as (Hs' & Ha' & Hg' & _).
    rewrite Hs', Hg'. unfold window_sizes in *. rewrite Ha'. auto.
Qed.

(** The rate calculation of the scan-array build, case by case. *)
Lemma LSA_hz_cases (time_now : Q) (st st' : LSA.Node) :
  LSA.hzCalculationCallback time_now st = Some st' →
  ∃ elapsed_time : Q,
    round_double (time_now - LSA.start_time st) = Some elapsed_time ∧
    ((are_we_done max_time max_messages elapsed_time (LSA.received_messages st + 1)
      = false ∧
      st' = {| LSA.sub := LSA.sub st;
             LSA.received_messages := LSA.received_messages st + 1;
             LSA.optimize_nr_scans_in_bank := LSA.optimize_nr_scans_in_bank st;
             LSA.start_time := LSA.start_time st;
             LSA.bank_arguments := LSA.bank_arguments st;
             LSA.banks := LSA.banks st;
             LSA.globals := LSA.globals st |}) ∨
     (are_we_done max_time max_messages elapsed_time (LSA.received_messages st + 1)
      = true ∧
      ∃ (hz nr_scans : Q) (n : Z) (first : BankArgument),
        measured_hz (LSA.received_messages st + 1) elapsed_time = Some hz ∧
        round_double (LSA.optimize_nr_scans_in_bank st * hz) = Some nr_scans ∧
        optimized_nr_scans nr_scans = Some n ∧
        LSA.bank_arguments st !! 0 = Some first ∧
        st' = {| LSA.sub := CbFirst;
               LSA.received_messages := LSA.received_messages st + 1;
               LSA.optimize_nr_scans_in_bank := LSA.optimize_nr_scans_in_bank st;
               LSA.start_time := LSA.start_time st;
               LSA.bank_arguments :=
                 <[0 := set_nr_scans_in_bank (sanity_check n) first]> (LSA.bank_arguments st);
               LSA.banks := LSA.banks st;
               LSA.globals := adapted_roots (LSA.optimize_nr_scans_in_bank st) |})).
Proof.
  unfold LSA.hzCalculationCallback.
  destruct (round_double (time_now - LSA.start_time st)) as [elapsed_time|];
    [|discriminate].
  cbn [mbind option_bind]. intros Hstep. exists elapsed_time. split; [reflexivity|].
  destruct (are_we_done _ _ _ _).
  - right. split; [reflexivity|].
    destruct (measured_hz _ _) as [hz|] eqn:Hhz; [|discriminate].
    cbn [mbind option_bind] in Hstep.
    destruct (round_double (_ * hz)) as [nr_scans|] eqn:Hnr; [|discriminate].
    cbn [mbind option_bind] in Hstep.
    destruct (optimized_nr_scans nr_scans) as [n|] eqn:Hn; [|discriminate].
    cbn [mbind option_bind] in Hstep.
    destruct (LSA.bank_arguments st !! 0) as [first|] eqn:Hfirst; [|discriminate].
    cbn [mbind option_bind] in Hstep. injection Hstep as <-.
    exists hz, nr_scans, n, first. repeat split; assumption.
  - left. injection Hstep as <-. auto.
Qed.

(** A message that reaches neither ceiling is counted and nothing else. *)
Lemma LSA_hz_not_done (time_now elapsed_time : Q) (st : LSA.Node) :
  round_double (time_now - LSA.start_time st) = Some elapsed_time →
  are_we_done max_time max_messages elapsed_time (LSA.received_messages st + 1)
  = false →
  LSA.hzCalculationCallback time_now st =
  Some {| LSA.sub := LSA.sub st;
          LSA.received_messages := LSA.received_messages st + 1;
          LSA.optimize_nr_scans_in_bank := LSA.optimize_nr_scans_in_bank st;
          LSA.start_time := LSA.start_time st;
          LSA.bank_arguments := LSA.bank_arguments st;
          LSA.banks := LSA.banks st;
          LSA.globals := LSA.globals st |}.
Proof.
  unfold LSA.hzCalculationCallback. intros -> Hnot.
  cbn [mbind option_bind]. rewrite Hnot. reflexivity.
Qed.

(** The warm-up keeps the node as [onInit] left it: no Bank, one argument. *)
Lemma LSA_awaiting_step (ev : Stamped LaserScanArray) (st st' : LSA.Node) :
  warming_up (LSA.sub st) = true →
  awaiting_first_array st →
  LSA.deliver ev st = Some st' →
  awaiting_first_array st'.
Proof.
  unfold LSA.deliver. intros Hwarm (Hbanks & first & Hargs).
  destruct (LSA.sub st) eqn:Hsub; try discriminate Hwarm.
  - intros [= <-]. split; [exact Hbanks|]. exists first. exact Hargs.
  - intros Hstep.
    destruct (LSA_hz_cases _ _ _ Hstep)
      as (elapsed_time & _ &
          [[_ ->] | (_ & hz & nr_scans & n & first' & _ & _ & _ & _ & ->)]).
    + split; [exact Hbanks|]. exists first. exact Hargs.
    + split; [exact Hbanks|]. cbn [LSA.bank_arguments]. rewrite Hargs.
      eexists. reflexivity.
Qed.

(** Every state a node reaches from [onInit] either has the steady
    callback bound or is still as [onInit] left it. *)
Lemma LSA_reachable (queue : list (Stamped LaserScanArray)) (st st' : LSA.Node) :
  LSA.sub st = CbSteady ∨ awaiting_first_array st →
  spin LSA.deliver queue st = Some st' →
  LSA.sub st' = CbSteady ∨ awaiting_first_array st'.
Proof.
  revert st. induction queue as [|ev queue IH]; intros st Hinv; cbn [spin].
  - intros [= <-]. exact Hinv.
  - destruct (LSA.deliver ev st) as [st1|] eqn:Hstep; [|discriminate].
    cbn [mbind option_bind]. apply IH.
    destruct (warming_up (LSA.sub st)) eqn:Hwarm.
    + right. destruct Hinv as [Hs|Hinv]; [rewrite Hs in Hwarm; discriminate|].
      exact (LSA_awaiting_step ev st st1 Hwarm Hinv Hstep).
    + left. exact (proj1 (LSA_steady_step ev st st1 Hwarm Hinv Hstep)).
Qed.

Lemma LSA_onInit_awaiting (configured : BankArgument) (optimize : Q) :
  awaiting_first_array (LSA.onInit configured optimize).
Proof. split; [reflexivity|]. exists configured. reflexivity. Qed.
End ScanArray.

(** ** The calibration as a state machine *)

Section Calibration.
Context {ceilings : Ceilings} {bank_class : BankClass}.

Lemma are_we_done_iff (elapsed_time : Q) (received : Z) :
  are_we_done max_time max_messages elapsed_time received = true ↔
  (max_time <= elapsed_time)%Q ∨ (max_messages ≤ received)%Z.
Proof.
  unfold are_we_done. rewrite orb_true_iff, Qle_bool_iff, Z.leb_le. reflexivity.
Qed.

(** The only callback that leaves the warm-up is the rate calculation, and
    it binds the first-message callback. *)
Lemma LS_warm_up_end (ev : Stamped LaserScan) (st st1 : LS.Node) :
  warming_up (LS.sub st) = true → LS.deliver ev st = Some st1 →
  warming_up (LS.sub st1) = false →
  LS.sub st = CbHzCalculation ∧ LS.sub st1 = CbFirst.
Proof.
  unfold LS.deliver. intros Hwarm.
  destruct (LS.sub st) eqn:Hsub; try discriminate Hwarm.
  - intros [= <-]. discriminate.
  - intros Hstep.
    destruct (LS_hz_cases _ _ _ Hstep)
      as (elapsed_time & _ & [[_ ->] | (_ & hz & nr_scans & n & _ & _ & _ & ->)]).
    + cbn. rewrite Hsub. discriminate.
    + intros _. split; reflexivity.
Qed.

Lemma LSA_warm_up_end (ev : Stamped LaserScanArray) (st st1 : LSA.Node) :
  warming_up (LSA.sub st) = true → LSA.deliver ev st = Some st1 →
  warming_up (LSA.sub st1) = false →
  LSA.sub st = CbHzCalculation ∧ LSA.sub st1 = CbFirst.
Proof.
  unfold LSA.deliver. intros Hwarm.
  destruct (LSA.sub st) eqn:Hsub; try discriminate Hwarm.
  - intros [= <-]. discriminate.
  - intros Hstep.
    destruct (LSA_hz_cases _ _ _ Hstep)
      as (elapsed_time & _ &
          [[_ ->] | (_ & hz & nr_scans & n & first & _ & _ & _ & _ & ->)]).
    + cbn. rewrite Hsub. discriminate.
    + intros _. split; reflexivity.
Qed.

(** The message ceiling ends the warm-up: the rate calculation does not
    outlast the message that brings the count to [max_messages]. *)
Lemma LS_message_ceiling_ends_warm_up (queue : list (Stamped LaserScan))
    (st st' : LS.Node) :
  LS.sub st = CbHzCalculation → queue ≠ [] →
  (max_messages ≤ LS.received_messages st + Z.of_nat (length queue))%Z →
  spin LS.deliver queue st = Some st' →
  warming_up (LS.sub st') = false.
Proof.
  revert st. induction queue as [|ev queue IH]; intros st Hsub Hne Hceil; [congruence|].
  cbn [spin]. destruct (LS.deliver ev st) as [st1|] eqn:Hstep; [|discriminate].
  cbn [mbind option_bind]. intros Hrun.
  unfold LS.deliver in Hstep. rewrite Hsub in Hstep.
  destruct (LS_hz_cases _ _ _ Hstep)
    as (elapsed_time & _ & [[Hdone ->] | (_ & hz & nr_scans & n & _ & _ & _ & ->)]).
  - destruct queue as [|ev' queue'].
    + exfalso. cbn [length] in Hceil. unfold are_we_done in Hdone.
      apply orb_false_iff in Hdone as [_ Hcount]. apply Z.leb_gt in Hcount. lia.
    + refine (IH _ _ _ _ Hrun); [exact Hsub | discriminate |].
      cbn [LS.received_messages]. cbn [length] in *. lia.
  - refine (proj1 (LS_steady_spin queue _ st' _ Hrun)). reflexivity.
Qed.

Lemma LSA_message_ceiling_ends_warm_up (queue : list (Stamped LaserScanArray))
    (st st' : LSA.Node) :
  LSA.sub st = CbHzCalculation → queue ≠ [] →
  (max_messages ≤ LSA.received_messages st + Z.of_nat (length queue))%Z →
  spin LSA.deliver queue st = Some st' →
  warming_up (LSA.sub st') = false.
Proof.
  revert st. induction queue as [|ev queue IH]; intros st Hsub Hne Hceil; [congruence|].
  cbn [spin]. destruct (LSA.deliver ev st) as [st1|] eqn:Hstep; [|discriminate].
  cbn [mbind option_bind]. intros Hrun.
  unfold LSA.deliver in Hstep. rewrite Hsub in Hstep.
  destruct (LSA_hz_cases _ _ _ Hstep)
    as (elapsed_time & _ &
        [[Hdone ->] | (_ & hz & nr_scans & n & first & _ & _ & _ & _ & ->)]).
  - destruct queue as [|ev' queue'].
    + exfalso. cbn [length] in Hceil. unfold are_we_done in Hdone.
      apply orb_false_iff in Hdone as [_ Hcount]. apply Z.leb_gt in Hcount. lia.
    + refine (IH _ _ _ _ Hrun); [exact Hsub | discriminate |].
      cbn [LSA.received_messages]. cbn [length] in *. lia.
  - refine (spin_stays_out LSA.deliver (λ s, warming_up (LSA.sub s))
              LSA_warm_up_is_left_for_good queue _ st' _ Hrun). reflexivity.
Qed.

(** C6: in both builds the warm-up ends at most once in any sequence of
    messages, and exactly once in a sequence that starts in the warm-up and
    ends out of it, as every sequence does that brings the count of the rate
    calculation to the message ceiling; it ends by binding the first-message
    callback in place of the rate calculation, and from then on no message
    rebinds a callback of the warm-up, changes the roots or changes the
    window size (in the scan-array build: brings up a window size that was
    not there). *)
Theorem calibration_is_one_shot :
  (∀ queue st,
     warm_up_ends LS.deliver (λ s, warming_up (LS.sub s)) queue st ≤ 1) ∧
  (∀ queue st st',
     warming_up (LS.sub st) = true → spin LS.deliver queue st = Some st' →
     warming_up (LS.sub st') = false →
     warm_up_ends LS.deliver (λ s, warming_up (LS.sub s)) queue st = 1) ∧
  (∀ st ev st1 queue st2,
     warming_up (LS.sub st) = true → LS.deliver ev st = Some st1 →
     warming_up (LS.sub st1) = false → spin LS.deliver queue st1 = Some st2 →
     LS.sub st = CbHzCalculation ∧ LS.sub st1 = CbFirst ∧
     warming_up (LS.sub st2) = false ∧
     LS.globals st2 = LS.globals st1 ∧
     nr_scans_in_bank (LS.bank_argument st2) = nr_scans_in_bank (LS.bank_argument st1)) ∧
  (∀ queue (st st' : LS.Node),
     LS.sub st = CbHzCalculation → queue ≠ [] →
     (max_messages ≤ LS.received_messages st + Z.of_nat (length queue))%Z →
     spin LS.deliver queue st = Some st' →
     warming_up (LS.sub st') = false) ∧
  (∀ queue st,
     warm_up_ends LSA.deliver (λ s, warming_up (LSA.sub s)) queue st ≤ 1) ∧
  (∀ queue st st',
     warming_up (LSA.sub st) = true → spin LSA.deliver queue st = Some st' →
     warming_up (LSA.sub st') = false →
     warm_up_ends LSA.deliver (λ s, warming_up (LSA.sub s)) queue st = 1) ∧
  (∀ st ev st1 queue st2,
     awaiting_first_array st →
     warming_up (LSA.sub st) = true → LSA.deliver ev st = Some st1 →
     warming_up (LSA.sub st1) = false → spin LSA.deliver queue st1 = Some st2 →
     LSA.sub st = CbHzCalculation ∧ LSA.sub st1 = CbFirst ∧
     warming_up (LSA.sub st2) = false ∧
     LSA.globals st2 = LSA.globals st1 ∧
     window_sizes st2 ⊆ window_sizes st1) ∧
  (∀ queue (st st' : LSA.Node),
     LSA.sub st = CbHzCalculation → queue ≠ [] →
     (max_messages ≤ LSA.received_messages st + Z.of_nat (length queue))%Z →
     spin LSA.deliver queue st = Some st' →
     warming_up (LSA.sub st') = false).
Proof.
  repeat apply conj.
  - apply warm_up_ends_at_most_once. intros m st st'. apply LS_warm_up_is_left_for_good.
  - apply warm_up_ends_exactly_once. intros m st st'. apply LS_warm_up_is_left_for_good.
  - intros st ev st1 queue st2 Hwarm Hstep Hout Hrun.
    destruct (LS_warm_up_end ev st st1 Hwarm Hstep Hout) as [Hhz Hfirst].
    destruct (LS_steady_spin queue st1 st2 Hout Hrun) as (Hw2 & Hg2 & Hb2).
    rewrite Hb2. auto.
  - apply LS_message_ceiling_ends_warm_up.
  - apply warm_up_ends_at_most_once. intros m st st'. apply LSA_warm_up_is_left_for_good.
  - apply warm_up_ends_exactly_once. intros m st st'. apply LSA_warm_up_is_left_for_good.
  - intros st ev st1 queue st2 Hinv Hwarm Hstep Hout Hrun.
    destruct (LSA_warm_up_end ev st st1 Hwarm Hstep Hout) as [Hhz Hfirst].
    pose proof (LSA_awaiting_step ev st st1 Hwarm Hinv Hstep) as Hinv1.
    destruct (LSA_out_of_warm_up_spin queue st1 st2 Hout (or_intror Hinv1) Hrun)
      as (Hw2 & Hg2 & Hsizes).
    auto.
  - apply LSA_message_ceiling_ends_warm_up.
Qed.

(** The message that reaches a ceiling, with a finite rate, a finite
    product and a bank size in the range of [int]: the calibration has this
    result. *)
Lemma LS_hz_done (time_now elapsed_time hz nr_scans : Q) (st : LS.Node) :
  round_double (time_now - LS.start_time st) = Some elapsed_time →
  are_we_done max_time max_messages elapsed_time (LS.received_messages st + 1)
  = true →
  measured_hz (LS.received_messages st + 1) elapsed_time = Some hz →
  round_double (LS.optimize_nr_scans_in_bank st * hz) = Some nr_scans →
  (inject_Z INT_MIN <= nr_scans <= inject_Z (INT_MAX - 1))%Q →
  ∃ n : Z,
    optimized_nr_scans nr_scans = Some n ∧
    LS.hzCalculationCallback time_now st =
    Some {| LS.sub := CbFirst;
            LS.received_messages := LS.received_messages st + 1;
            LS.optimize_nr_scans_in_bank := LS.optimize_nr_scans_in_bank st;
            LS.start_time := LS.start_time st;
            LS.bank_argument :=
              set_nr_scans_in_bank (sanity_check n) (LS.bank_argument st);
            LS.bank := LS.bank st;
            LS.globals := adapted_roots (LS.optimize_nr_scans_in_bank st) |}.
Proof.
  intros Helapsed Hdone Hhz Hnr Hrange.
  destruct (optimized_nr_scans_defined _ Hrange) as [n Hn].
  exists n. split; [exact Hn|]. unfold LS.hzCalculationCallback.
  rewrite Helapsed. cbn [mbind option_bind]. rewrite Hdone, Hhz.
  cbn [mbind option_bind]. rewrite Hnr. cbn [mbind option_bind]. rewrite Hn.
  reflexivity.
Qed.

Lemma LSA_hz_done (time_now elapsed_time hz nr_scans : Q) (st : LSA.Node)
    (first : BankArgument) :
  round_double (time_now - LSA.start_time st) = Some elapsed_time →
  are_we_done max_time max_messages elapsed_time (LSA.received_messages st + 1)
  = true →
  measured_hz (LSA.received_messages st + 1) elapsed_time = Some hz →
  round_double (LSA.optimize_nr_scans_in_bank st * hz) = Some nr_scans →
  (inject_Z INT_MIN <= nr_scans <= inject_Z (INT_MAX - 1))%Q →
  LSA.bank_arguments st !! 0 = Some first →
  ∃ n : Z,
    optimized_nr_scans nr_scans = Some n ∧
    LSA.hzCalculationCallback time_now st =
    Some {| LSA.sub := CbFirst;
            LSA.received_messages := LSA.received_messages st + 1;
            LSA.optimize_nr_scans_in_bank := LSA.optimize_nr_scans_in_bank st;
            LSA.start_time := LSA.start_time st;
            LSA.bank_arguments :=
              <[0 := set_nr_scans_in_bank (sanity_check n) first]>
                (LSA.bank_arguments st);
            LSA.banks := LSA.banks st;
            LSA.globals := adapted_roots (LSA.optimize_nr_scans_in_bank st) |}.
Proof.
  intros Helapsed Hdone Hhz Hnr Hrange Hfirst.
  destruct (optimized_nr_scans_defined _ Hrange) as [n Hn].
  exists n. split; [exact Hn|]. unfold LSA.hzCalculationCallback.
  rewrite Helapsed. cbn [mbind option_bind]. rewrite Hdone, Hhz.
  cbn [mbind option_bind]. rewrite Hnr. cbn [mbind option_bind]. rewrite Hn.
  cbn [mbind option_bind]. rewrite Hfirst. reflexivity.
Qed.

(** C7: in both builds, with [elapsed_time] the [double] difference of the
    clock reading and the start time, a message met by the rate calculation
    that reaches neither ceiling is counted and leaves the rate calculation
    bound; the first that reaches the time ceiling or the message ceiling
    ends the warm-up: the rate is the [double] quotient
    [received_messages / elapsed_time], the bank size is calculated from the
    [double] product of target and rate, and the roots become target times
    0.6 and target times 1.4.  The result exists whenever time has elapsed,
    rate and product are finite and the product is in the range of
    [int]. *)
Theorem warm_up_end_calibrates :
  (∀ (st : LS.Node) (ev : Stamped LaserScan) (elapsed_time : Q),
     LS.sub st = CbHzCalculation →
     round_double (now ev - LS.start_time st) = Some elapsed_time →
     let received := (LS.received_messages st + 1)%Z in
     let target := LS.optimize_nr_scans_in_bank st in
     (¬ ((max_time <= elapsed_time)%Q ∨ (max_messages ≤ received)%Z) →
      ∃ st', LS.deliver ev st = Some st' ∧
             LS.sub st' = CbHzCalculation ∧
             LS.received_messages st' = received ∧
             LS.globals st' = LS.globals st ∧
             LS.bank_argument st' = LS.bank_argument st) ∧
     ((max_time <= elapsed_time)%Q ∨ (max_messages ≤ received)%Z →
      (∀ st', LS.deliver ev st = Some st' →
         ∃ (hz nr_scans : Q) (n : Z),
           round_double (inject_Z received / elapsed_time) = Some hz ∧
           round_double (target * hz) = Some nr_scans ∧
           optimized_nr_scans nr_scans = Some n ∧
           nr_scans_in_bank (LS.bank_argument st') = sanity_check n ∧
           (root_1 (LS.globals st') == target * 0.6)%Q ∧
           (root_2 (LS.globals st') == target * 1.4)%Q ∧
           LS.sub st' = CbFirst) ∧
      (∀ hz nr_scans : Q,
         ¬ (elapsed_time == 0)%Q →
         round_double (inject_Z received / elapsed_time) = Some hz →
         round_double (target * hz) = Some nr_scans →
         (inject_Z INT_MIN <= nr_scans <= inject_Z (INT_MAX - 1))%Q →
         ∃ st', LS.deliver ev st = Some st' ∧ LS.sub st' = CbFirst))) ∧
  (∀ (st : LSA.Node) (ev : Stamped LaserScanArray) (elapsed_time : Q),
     LSA.sub st = CbHzCalculation →
     round_double (now ev - LSA.start_time st) = Some elapsed_time →
     let received := (LSA.received_messages st + 1)%Z in
     let target := LSA.optimize_nr_scans_in_bank st in
     (¬ ((max_time <= elapsed_time)%Q ∨ (max_messages ≤ received)%Z) →
      ∃ st', LSA.deliver ev st = Some st' ∧
             LSA.sub st' = CbHzCalculation ∧
             LSA.received_messages st' = received ∧
             LSA.globals st' = LSA.globals st ∧
             LSA.bank_arguments st' = LSA.bank_arguments st) ∧
     ((max_time <= elapsed_time)%Q ∨ (max_messages ≤ received)%Z →
      (∀ st', LSA.deliver ev st = Some st' →
         ∃ (hz nr_scans : Q) (n : Z) (first : BankArgument),
           round_double (inject_Z received / elapsed_time) = Some hz ∧
           round_double (target * hz) = Some nr_scans ∧
           optimized_nr_scans nr_scans = Some n ∧
           LSA.bank_arguments st !! 0 = Some first ∧
           LSA.bank_arguments st' =
             <[0 := set_nr_scans_in_bank (sanity_check n) first]> (LSA.bank_arguments st) ∧
           (root_1 (LSA.globals st') == target * 0.6)%Q ∧
           (root_2 (LSA.globals st') == target * 1.4)%Q ∧
           LSA.sub st' = CbFirst) ∧
      (∀ hz nr_scans : Q,
         ¬ (elapsed_time == 0)%Q →
         round_double (inject_Z received / elapsed_time) = Some hz →
         round_double (target * hz) = Some nr_scans →
         (inject_Z INT_MIN <= nr_scans <= inject_Z (INT_MAX - 1))%Q →
         is_Some (LSA.bank_arguments st !! 0) →
         ∃ st', LSA.deliver ev st = Some st' ∧ LSA.sub st' = CbFirst))).
Proof.
  split.
  - intros st ev elapsed_time Hsub Helapsed received target.
    unfold LS.deliver. rewrite Hsub. split; [|intros Hdone; split].
    + intros Hnot. rewrite <- are_we_done_iff in Hnot.
      apply not_true_is_false in Hnot.
      rewrite (LS_hz_not_done _ _ _ Helapsed Hnot). eexists. split; [reflexivity|].
      cbn. rewrite Hsub. repeat split.
    + apply are_we_done_iff in Hdone. intros st' Hstep.
      destruct (LS_hz_cases _ _ _ Hstep)
        as (e & He & [[Hnot _] | (_ & hz & nr_scans & n & Hhz & Hnr & Hn & ->)]).
      * rewrite Helapsed in He. injection He as <-. subst received. congruence.
      * rewrite Helapsed in He. injection He as <-.
        apply measured_hz_Some in Hhz as [_ Hhz].
        exists hz, nr_scans, n. cbn. repeat split; assumption || reflexivity.
    + apply are_we_done_iff in Hdone. intros hz nr_scans Hpassed Hhz Hnr Hrange.
      assert (Hrate : measured_hz received elapsed_time = Some hz)
        by (apply measured_hz_Some; split; assumption).
      destruct (LS_hz_done _ _ _ _ _ Helapsed Hdone Hrate Hnr Hrange) as (n & _ & ->).
      eexists. split; reflexivity.
  - intros st ev elapsed_time Hsub Helapsed received target.
    unfold LSA.deliver. rewrite Hsub. split; [|intros Hdone; split].
    + intros Hnot. rewrite <- are_we_done_iff in Hnot.
      apply not_true_is_false in Hnot.
      rewrite (LSA_hz_not_done _ _ _ Helapsed Hnot). eexists. split; [reflexivity|].
      cbn. rewrite Hsub. repeat split.
    + apply are_we_done_iff in Hdone. intros st' Hstep.
      destruct (LSA_hz_cases _ _ _ Hstep)
        as (e & He &
            [[Hnot _] | (_ & hz & nr_scans & n & first & Hhz & Hnr & Hn & Hfirst & ->)]).
      * rewrite Helapsed in He. injection He as <-. subst received. congruence.
      * rewrite Helapsed in He. injection He as <-.
        apply measured_hz_Some in Hhz as [_ Hhz].
        exists hz, nr_scans, n, first. cbn. repeat split; assumption || reflexivity.
    + apply are_we_done_iff in Hdone.
      intros hz nr_scans Hpassed Hhz Hnr Hrange [first Hfirst].
      assert (Hrate : measured_hz received elapsed_time = Some hz)
        by (apply measured_hz_Some; split; assumption).
      destruct (LSA_hz_done _ _ _ _ _ _ Helapsed Hdone Hrate Hnr Hrange Hfirst)
        as (n & _ & ->).
      eexists. split; reflexivity.
Qed.

(** C2: in both builds, whenever a message of the rate calculation ends the
    warm-up, the window size it stores comes from [nr_scans], the product of
    target and measured rate as the code computes it in [double]: the count
    [n] is [nr_scans] plus one where [nr_scans] is an integer and the
    ceiling of [nr_scans] where it is not, and the stored size is [n], or 2
    where [n] is below 2, so at least 2 in every case.  The size is stored
    whenever a ceiling is reached, time has elapsed, rate and product are
    finite and the product is in the range of [int]. *)
Theorem calibrated_bank_size_boundary :
  (∀ (st st' : LS.Node) (ev : Stamped LaserScan),
     LS.sub st = CbHzCalculation →
     LS.deliver ev st = Some st' → LS.sub st' = CbFirst →
     ∃ (elapsed_time hz nr_scans : Q) (n : Z),
       round_double (now ev - LS.start_time st) = Some elapsed_time ∧
       round_double (inject_Z (LS.received_messages st + 1) / elapsed_time) = Some hz ∧
       round_double (LS.optimize_nr_scans_in_bank st * hz) = Some nr_scans ∧
       (∀ k : Z, (nr_scans == inject_Z k)%Q → n = (k + 1)%Z) ∧
       ((∀ k : Z, ¬ (nr_scans == inject_Z k)%Q) → n = Qceiling nr_scans) ∧
       nr_scans_in_bank (LS.bank_argument st') = (if (n <? 2)%Z then 2%Z else n) ∧
       (2 ≤ nr_scans_in_bank (LS.bank_argument st'))%Z) ∧
  (∀ (st st' : LSA.Node) (ev : Stamped LaserScanArray),
     LSA.sub st = CbHzCalculation →
     LSA.deliver ev st = Some st' → LSA.sub st' = CbFirst →
     ∃ (elapsed_time hz nr_scans : Q) (n : Z) (ba : BankArgument),
       round_double (now ev - LSA.start_time st) = Some elapsed_time ∧
       round_double (inject_Z (LSA.received_messages st + 1) / elapsed_time) = Some hz ∧
       round_double (LSA.optimize_nr_scans_in_bank st * hz) = Some nr_scans ∧
       (∀ k : Z, (nr_scans == inject_Z k)%Q → n = (k + 1)%Z) ∧
       ((∀ k : Z, ¬ (nr_scans == inject_Z k)%Q) → n = Qceiling nr_scans) ∧
       LSA.bank_arguments st' !! 0 = Some ba ∧
       nr_scans_in_bank ba = (if (n <? 2)%Z then 2%Z else n) ∧
       (2 ≤ nr_scans_in_bank ba)%Z) ∧
  (∀ (st : LS.Node) (ev : Stamped LaserScan) (elapsed_time hz nr_scans : Q),
     LS.sub st = CbHzCalculation →
     round_double (now ev - LS.start_time st) = Some elapsed_time →
     (max_time <= elapsed_time)%Q ∨ (max_messages ≤ LS.received_messages st + 1)%Z →
     ¬ (elapsed_time == 0)%Q →
     round_double (inject_Z (LS.received_messages st + 1) / elapsed_time) = Some hz →
     round_double (LS.optimize_nr_scans_in_bank st * hz) = Some nr_scans →
     (inject_Z INT_MIN <= nr_scans <= inject_Z (INT_MAX - 1))%Q →
     ∃ st', LS.deliver ev st = Some st' ∧ LS.sub st' = CbFirst) ∧
  (∀ (st : LSA.Node) (ev : Stamped LaserScanArray) (elapsed_time hz nr_scans : Q),
     LSA.sub st = CbHzCalculation →
     round_double (now ev - LSA.start_time st) = Some elapsed_time →
     (max_time <= elapsed_time)%Q ∨ (max_messages ≤ LSA.received_messages st + 1)%Z →
     ¬ (elapsed_time == 0)%Q →
     round_double (inject_Z (LSA.received_messages st + 1) / elapsed_time) = Some hz →
     round_double (LSA.optimize_nr_scans_in_bank st * hz) = Some nr_scans →
     (inject_Z INT_MIN <= nr_scans <= inject_Z (INT_MAX - 1))%Q →
     is_Some (LSA.bank_arguments st !! 0) →
     ∃ st', LSA.deliver ev st = Some st' ∧ LSA.sub st' = CbFirst).
Proof.
  split; [|split; [|split]].
  - intros st st' ev Hsub. unfold LS.deliver. rewrite Hsub. intros Hstep Hfirst.
    destruct (LS_hz_cases _ _ _ Hstep)
      as (e & He & [[_ ->] | (_ & hz & nr_scans & n & Hhz & Hnr & Hn & ->)]).
    { cbn in Hfirst. congruence. }
    apply measured_hz_Some in Hhz as [_ Hhz].
    destruct (optimized_nr_scans_Some _ _ Hn) as [Hint Hfrac].
    exists e, hz, nr_scans, n. cbn [LS.bank_argument set_nr_scans_in_bank nr_scans_in_bank].
    do 5 (split; [assumption|]). split; [reflexivity | apply sanity_check_floor].
  - intros st st' ev Hsub. unfold LSA.deliver. rewrite Hsub. intros Hstep Hfirst.
    destruct (LSA_hz_cases _ _ _ Hstep)
      as (e & He &
          [[_ ->] | (_ & hz & nr_scans & n & first & Hhz & Hnr & Hn & Hlook & ->)]).
    { cbn in Hfirst. congruence. }
    apply measured_hz_Some in Hhz as [_ Hhz].
    destruct (optimized_nr_scans_Some _ _ Hn) as [Hint Hfrac].
    exists e, hz, nr_scans, n, (set_nr_scans_in_bank (sanity_check n) first).
    cbn [LSA.bank_arguments set_nr_scans_in_bank nr_scans_in_bank].
    do 5 (split; [assumption|]). split; [|split; [reflexivity | apply sanity_check_floor]].
    apply list_lookup_insert_eq. apply lookup_lt_is_Some. eauto.
  - intros st ev elapsed_time hz nr_scans Hsub Helapsed Hdone Hpassed Hhz Hnr Hrange.
    apply are_we_done_iff in Hdone.
    assert (Hrate : measured_hz (LS.received_messages st + 1) elapsed_time = Some hz)
      by (apply measured_hz_Some; split; assumption).
    unfold LS.deliver. rewrite Hsub.
    destruct (LS_hz_done _ _ _ _ _ Helapsed Hdone Hrate Hnr Hrange) as (n & _ & ->).
    eexists. split; reflexivity.
  - intros st ev elapsed_time hz nr_scans Hsub Helapsed Hdone Hpassed Hhz Hnr Hrange
      [first Hfirst].
    apply are_we_done_iff in Hdone.
    assert (Hrate : measured_hz (LSA.received_messages st + 1) elapsed_time = Some hz)
      by (apply measured_hz_Some; split; assumption).
    unfold LSA.deliver. rewrite Hsub.
    destruct (LSA_hz_done _ _ _ _ _ _ Helapsed Hdone Hrate Hnr Hrange Hfirst)
      as (n & _ & ->).
    eexists. split; reflexivity.
Qed.
End Calibration.

(** ** The roots the confidence reads, over a run *)

Section RootsOverARun.
Context {ceilings : Ceilings} {bank_class : BankClass}.

(** One message keeps the roots a function of the target and of whether the
    warm-up lasts. *)
Lemma LS_roots_step (optimize : Q) (ev : Stamped LaserScan) (st st' : LS.Node) :
  LS.optimize_nr_scans_in_bank st = optimize →
  (warming_up (LS.sub st) = true → Qeq_bool optimize 0.0%Q = false) →
  LS.globals st = roots_of_a_run optimize (warming_up (LS.sub st)) →
  LS.deliver ev st = Some st' →
  LS.optimize_nr_scans_in_bank st' = optimize ∧
  (warming_up (LS.sub st') = true → Qeq_bool optimize 0.0%Q = false) ∧
  LS.globals st' = roots_of_a_run optimize (warming_up (LS.sub st')).
Proof.
  intros Hopt Hnz Hroots.
  destruct (warming_up (LS.sub st)) eqn:Hwarm.
  - specialize (Hnz eq_refl). unfold LS.deliver.
    destruct (LS.sub st) eqn:Hsub; try discriminate Hwarm.
    + intros [= <-]. cbn. auto.
    + intros Hstep.
      destruct (LS_hz_cases _ _ _ Hstep)
        as (elapsed_time & _ & [[_ ->] | (_ & hz & nr_scans & n & _ & _ & _ & ->)]).
      * cbn. rewrite Hsub. cbn. auto.
      * cbn. split; [exact Hopt|]. split; [discriminate|].
        unfold roots_of_a_run. rewrite Hnz, Hopt. reflexivity.
  - intros Hstep.
    destruct (LS_steady_step ev st st' Hwarm Hstep) as (Hw' & Hg & _ & _ & Ho & _).
    rewrite Hw', Hg, Ho. split; [exact Hopt|]. split; [discriminate | exact Hroots].
Qed.

Lemma LSA_roots_step (optimize : Q) (ev : Stamped LaserScanArray) (st st' : LSA.Node) :
  LSA.optimize_nr_scans_in_bank st = optimize →
  (warming_up (LSA.sub st) = true → Qeq_bool optimize 0.0%Q = false) →
  LSA.globals st = roots_of_a_run optimize (warming_up (LSA.sub st)) →
  LSA.deliver ev st = Some st' →
  LSA.optimize_nr_scans_in_bank st' = optimize ∧
  (warming_up (LSA.sub st') = true → Qeq_bool optimize 0.0%Q = false) ∧
  LSA.globals st' = roots_of_a_run optimize (warming_up (LSA.sub st')).
Proof.
  intros Hopt Hnz Hroots.
  destruct (warming_up (LSA.sub st)) eqn:Hwarm.
  - specialize (Hnz eq_refl). unfold LSA.deliver.
    destruct (LSA.sub st) eqn:Hsub; try discriminate Hwarm.
    + intros [= <-]. cbn. auto.
    + intros Hstep.
      destruct (LSA_hz_cases _ _ _ Hstep)
        as (elapsed_time & _ &
            [[_ ->] | (_ & hz & nr_scans & n & first & _ & _ & _ & _ & ->)]).
      * cbn. rewrite Hsub. cbn. auto.
      * cbn. split; [exact Hopt|]. split; [discriminate|].
        unfold roots_of_a_run. rewrite Hnz, Hopt. reflexivity.
  - intros Hdeliver.
    pose proof (LSA_warm_up_is_left_for_good ev st st' Hwarm Hdeliver) as Hw'.
    rewrite Hw'. unfold LSA.deliver in Hdeliver.
    destruct (LSA.sub st) eqn:Hsub; try discriminate Hwarm.
    + destruct (LSA_first_keeps_members _ _ _ Hdeliver) as (_ & Ho & _ & Hg).
      rewrite Hg, Ho. split; [exact Hopt|]. split; [discriminate | exact Hroots].
    + destruct (LSA_steady_keeps_members _ _ _ Hdeliver) as (_ & Ho & _).
      destruct (LSA_steady_message _ _ _ Hdeliver) as (_ & _ & Hg & _).
      rewrite Hg, Ho. split; [exact Hopt|]. split; [discriminate | exact Hroots].
Qed.

(** In every state a node reaches from [onInit] the roots are the roots of
    the run. *)
Lemma LS_roots_of_a_run (configured : BankArgument) (optimize : Q)
    (queue : list (Stamped LaserScan)) (st : LS.Node) :
  spin LS.deliver queue (LS.onInit configured optimize) = Some st →
  (warming_up (LS.sub st) = true → Qeq_bool optimize 0.0%Q = false) ∧
  LS.globals st = roots_of_a_run optimize (warming_up (LS.sub st)).
Proof.
  assert (Hspin : ∀ queue (st0 st : LS.Node),
    LS.optimize_nr_scans_in_bank st0 = optimize →
    (warming_up (LS.sub st0) = true → Qeq_bool optimize 0.0%Q = false) →
    LS.globals st0 = roots_of_a_run optimize (warming_up (LS.sub st0)) →
    spin LS.deliver queue st0 = Some st →
    (warming_up (LS.sub st) = true → Qeq_bool optimize 0.0%Q = false) ∧
    LS.globals st = roots_of_a_run optimize (warming_up (LS.sub st))).
  { clear queue st. induction queue as [|ev queue IH]; intros st0 st Hopt Hnz Hroots;
      cbn [spin].
    - intros [= <-]. split; assumption.
    - destruct (LS.deliver ev st0) as [st1|] eqn:Hstep; [|discriminate].
      cbn [mbind option_bind].
      destruct (LS_roots_step optimize ev st0 st1 Hopt Hnz Hroots Hstep)
        as (Hopt1 & Hnz1 & Hroots1).
      apply IH; assumption. }
  apply Hspin; unfold roots_of_a_run; cbn;
    destruct (Qeq_bool optimize 0.0%Q); cbn; auto; discriminate.
Qed.

Lemma LSA_roots_of_a_run (configured : BankArgument) (optimize : Q)
    (queue : list (Stamped LaserScanArray)) (st : LSA.Node) :
  spin LSA.deliver queue (LSA.onInit configured optimize) = Some st →
  (warming_up (LSA.sub st) = true → Qeq_bool optimize 0.0%Q = false) ∧
  LSA.globals st = roots_of_a_run optimize (warming_up (LSA.sub st)).
Proof.
  assert (Hspin : ∀ queue (st0 st : LSA.Node),
    LSA.optimize_nr_scans_in_bank st0 = optimize →
    (warming_up (LSA.sub st0) = true → Qeq_bool optimize 0.0%Q = false) →
    LSA.globals st0 = roots_of_a_run optimize (warming_up (LSA.sub st0)) →
    spin LSA.deliver queue st0 = Some st →
    (warming_up (LSA.sub st) = true → Qeq_bool optimize 0.0%Q = false) ∧
    LSA.globals st = roots_of_a_run optimize (warming_up (LSA.sub st))).
  { clear queue st. induction queue as [|ev queue IH]; intros st0 st Hopt Hnz Hroots;
      cbn [spin].
    - intros [= <-]. split; assumption.
    - destruct (LSA.deliver ev st0) as [st1|] eqn:Hstep; [|discriminate].
      cbn [mbind option_bind].
      destruct (LSA_roots_step optimize ev st0 st1 Hopt Hnz Hroots Hstep)
        as (Hopt1 & Hnz1 & Hroots1).
      apply IH; assumption. }
  apply Hspin; unfold roots_of_a_run; cbn;
    destruct (Qeq_bool optimize 0.0%Q); cbn; auto; discriminate.
Qed.

(** The value after the calibration against the value before it. *)
Lemma calculateConfidence_calibrated optimize mo ba dt w (t1 t2 t3 t4 t5 t6 : bool) :
  (calculateConfidence (adapted_roots optimize) mo ba dt w t1 t2 t3 t4 t5 t6
   - calculateConfidence globals_init mo ba dt w t1 t2 t3 t4 t5 t6
   == ema_alpha ba * (a * ((dt - optimize * 0.6) * (dt - optimize * 1.4)
                           - (dt - 0.35) * (dt - 0.65))))%Q.
Proof.
  unfold calculateConfidence, adapted_roots, globals_init. cbn [root_1 root_2].
  destruct (t1 && t2 && t3 && t4 && t5 && t6); ring.
Qed.

(** C5, amended: the value of a call is determined by the listed inputs
    together with the file-scope roots, which the calibration writes and
    nothing else does.  In both builds and in every state a process reaches
    from [onInit] with the target [optimize], the roots are the defaults
    while the warm-up lasts and where the target is zero, and the target
    times 0.6 and times 1.4 from the end of the warm-up on.  So two calls
    with identical inputs, in one run or in two runs with the same target,
    return the same value where both are made during the warm-up or both
    after it, whatever messages came and whatever rate was measured; and a
    call after the calibration returns the value of the same call before it
    plus [ema_alpha * a * ((dt - 0.6 t) (dt - 1.4 t) - (dt - 0.35) (dt - 0.65))]
    for the target [t], a difference that may be zero. *)
Theorem calculateConfidence_across_calibration (configured : BankArgument)
    (optimize : Q) mo ba dt w (t1 t2 t3 t4 t5 t6 : bool) :
  (∀ queue1 queue2 (st1 st2 : LS.Node),
     spin LS.deliver queue1 (LS.onInit configured optimize) = Some st1 →
     spin LS.deliver queue2 (LS.onInit configured optimize) = Some st2 →
     LS.globals st1 = roots_of_a_run optimize (warming_up (LS.sub st1)) ∧
     (warming_up (LS.sub st1) = warming_up (LS.sub st2) →
      (calculateConfidence (LS.globals st1) mo ba dt w t1 t2 t3 t4 t5 t6
       == calculateConfidence (LS.globals st2) mo ba dt w t1 t2 t3 t4 t5 t6)%Q) ∧
     (warming_up (LS.sub st1) = true → warming_up (LS.sub st2) = false →
      (calculateConfidence (LS.globals st2) mo ba dt w t1 t2 t3 t4 t5 t6
       - calculateConfidence (LS.globals st1) mo ba dt w t1 t2 t3 t4 t5 t6
       == ema_alpha ba * (a * ((dt - optimize * 0.6) * (dt - optimize * 1.4)
                               - (dt - 0.35) * (dt - 0.65))))%Q)) ∧
  (∀ queue1 queue2 (st1 st2 : LSA.Node),
     spin LSA.deliver queue1 (LSA.onInit configured optimize) = Some st1 →
     spin LSA.deliver queue2 (LSA.onInit configured optimize) = Some st2 →
     LSA.globals st1 = roots_of_a_run optimize (warming_up (LSA.sub st1)) ∧
     (warming_up (LSA.sub st1) = warming_up (LSA.sub st2) →
      (calculateConfidence (LSA.globals st1) mo ba dt w t1 t2 t3 t4 t5 t6
       == calculateConfidence (LSA.globals st2) mo ba dt w t1 t2 t3 t4 t5 t6)%Q) ∧
     (warming_up (LSA.sub st1) = true → warming_up (LSA.sub st2) = false →
      (calculateConfidence (LSA.globals st2) mo ba dt w t1 t2 t3 t4 t5 t6
       - calculateConfidence (LSA.globals st1) mo ba dt w t1 t2 t3 t4 t5 t6
       == ema_alpha ba * (a * ((dt - optimize * 0.6) * (dt - optimize * 1.4)
                               - (dt - 0.35) * (dt - 0.65))))%Q)).
Proof.
  split.
  - intros queue1 queue2 st1 st2 Hrun1 Hrun2.
    destruct (LS_roots_of_a_run _ _ _ _ Hrun1) as [Hnz Hroots1].
    destruct (LS_roots_of_a_run _ _ _ _ Hrun2) as [_ Hroots2].
    split; [exact Hroots1|]. rewrite Hroots1, Hroots2. split.
    + intros ->. reflexivity.
    + intros Hwarm1 ->. rewrite Hwarm1. unfold roots_of_a_run. cbn [orb].
      rewrite (Hnz Hwarm1). apply calculateConfidence_calibrated.
  - intros queue1 queue2 st1 st2 Hrun1 Hrun2.
    destruct (LSA_roots_of_a_run _ _ _ _ Hrun1) as [Hnz Hroots1].
    destruct (LSA_roots_of_a_run _ _ _ _ Hrun2) as [_ Hroots2].
    split; [exact Hroots1|]. rewrite Hroots1, Hroots2. split.
    + intros ->. reflexivity.
    + intros Hwarm1 ->. rewrite Hwarm1. unfold roots_of_a_run. cbn [orb].
      rewrite (Hnz Hwarm1). apply calculateConfidence_calibrated.
Qed.
End RootsOverARun.

(** ** Start-up and the first message *)

Section FirstMessage.
Context {ceilings : Ceilings} {bank_class : BankClass}.

(** C8, amended: in the single-scan build a first scan on which [init]
    returns a failure code leaves the node as it was but for what [init]
    did to the Bank, and with an [init] that leaves the Bank alone on
    failure the node is unchanged: the first-message callback stays bound
    and meets the next scan.  In the scan-array build the codes of [init]
    are dropped: the steady callback is bound after the first array message
    whatever [init] returned, and a node as [onInit] left it always
    completes that message. *)
Theorem init_failure_handling :
  (∀ (st : LS.Node) (ev : Stamped LaserScan),
     LS.sub st = CbFirst →
     (init (LS.bank_argument st) (message ev) (LS.bank st)).1 ≠ 0%Z →
     LS.deliver ev st =
       Some {| LS.sub := CbFirst;
               LS.received_messages := LS.received_messages st;
               LS.optimize_nr_scans_in_bank := LS.optimize_nr_scans_in_bank st;
               LS.start_time := LS.start_time st;
               LS.bank_argument := LS.bank_argument st;
               LS.bank := (init (LS.bank_argument st) (message ev) (LS.bank st)).2;
               LS.globals := LS.globals st |} ∧
     (init_failure_keeps_bank bank_class → LS.deliver ev st = Some st)) ∧
  (∀ (st st' : LSA.Node) (ev : Stamped LaserScanArray),
     LSA.sub st = CbFirst → LSA.deliver ev st = Some st' →
     LSA.sub st' = CbSteady) ∧
  (∀ (st : LSA.Node) (ev : Stamped LaserScanArray),
     LSA.sub st = CbFirst → awaiting_first_array st →
     ∃ st', LSA.deliver ev st = Some st' ∧ LSA.sub st' = CbSteady ∧
            length (LSA.banks st') = length (msgs (message ev))).
Proof.
  repeat apply conj.
  - intros st ev Hsub Hfail.
    assert (Hstep : LS.deliver ev st =
       Some {| LS.sub := CbFirst;
               LS.received_messages := LS.received_messages st;
               LS.optimize_nr_scans_in_bank := LS.optimize_nr_scans_in_bank st;
               LS.start_time := LS.start_time st;
               LS.bank_argument := LS.bank_argument st;
               LS.bank := (init (LS.bank_argument st) (message ev) (LS.bank st)).2;
               LS.globals := LS.globals st |}).
    { unfold LS.deliver, LS.laserScanCallbackFirst. rewrite Hsub.
      destruct (init _ _ _) as [rc b]. cbn [fst snd] in *.
      rewrite decide_True by exact Hfail. reflexivity. }
    split; [exact Hstep|].
    intros Hkeeps. rewrite Hstep, (Hkeeps _ _ _ Hfail), <- Hsub.
    destruct st; reflexivity.
  - intros st st' ev Hsub. unfold LSA.deliver. rewrite Hsub.
    apply LSA_first_binds_steady.
  - intros st ev Hsub (Hbanks & first & Hargs).
    destruct (LSA_first_array_message (message ev) st first Hbanks Hargs)
      as (st' & Hstep & Hsteady & Hlen & _).
    exists st'. unfold LSA.deliver. rewrite Hsub. auto.
Qed.

(** C9: in both builds the warm-up is entered if and only if the value of
    [optimize_nr_scans_in_bank] is not zero, and then by binding the
    callback that waits for the first message; with the value zero the
    first-message callback is bound directly, and whatever messages follow,
    the node never is in the warm-up, the roots stay at their defaults and
    the window size stays as configured. *)
Theorem calibrator_runs_iff_optimize_nonzero (configured : BankArgument) (optimize : Q) :
  (warming_up (LS.sub (LS.onInit configured optimize)) = true ↔ ¬ (optimize == 0)%Q) ∧
  (¬ (optimize == 0)%Q →
   LS.sub (LS.onInit configured optimize) = CbWaitForFirstMessage) ∧
  ((optimize == 0)%Q →
   LS.sub (LS.onInit configured optimize) = CbFirst ∧
   ∀ queue st, spin LS.deliver queue (LS.onInit configured optimize) = Some st →
     warming_up (LS.sub st) = false ∧
     LS.globals st = globals_init ∧
     LS.bank_argument st = configured) ∧
  (warming_up (LSA.sub (LSA.onInit configured optimize)) = true ↔ ¬ (optimize == 0)%Q) ∧
  (¬ (optimize == 0)%Q →
   LSA.sub (LSA.onInit configured optimize) = CbWaitForFirstMessage) ∧
  ((optimize == 0)%Q →
   LSA.sub (LSA.onInit configured optimize) = CbFirst ∧
   ∀ queue st, spin LSA.deliver queue (LSA.onInit configured optimize) = Some st →
     warming_up (LSA.sub st) = false ∧
     LSA.globals st = globals_init ∧
     window_sizes st ⊆ [nr_scans_in_bank configured]).
Proof.
  assert (Hsingle : LS.sub (LS.onInit configured optimize)
                    = if Qeq_bool optimize 0.0 then CbFirst else CbWaitForFirstMessage).
  { cbn. destruct (Qeq_bool optimize 0.0); reflexivity. }
  assert (Harray : LSA.sub (LSA.onInit configured optimize)
                   = if Qeq_bool optimize 0.0 then CbFirst else CbWaitForFirstMessage).
  { cbn. destruct (Qeq_bool optimize 0.0); reflexivity. }
  destruct (Qeq_bool optimize 0.0) eqn:Htest.
  - assert (Hzero : (optimize == 0)%Q) by (apply Qeq_bool_iff in Htest; lra).
    rewrite Hsingle, Harray.
    split; [|split; [|split; [|split; [|split]]]].
    + split; [discriminate | intros; contradiction].
    + intros; contradiction.
    + intros _. split; [reflexivity|]. intros queue st Hrun.
      apply (LS_steady_spin queue _ st) in Hrun; [exact Hrun|].
      rewrite Hsingle. reflexivity.
    + split; [discriminate | intros; contradiction].
    + intros; contradiction.
    + intros _. split; [reflexivity|]. intros queue st Hrun.
      apply (LSA_out_of_warm_up_spin queue _ st) in Hrun; [exact Hrun| |].
      * rewrite Harray. reflexivity.
      * right. apply LSA_onInit_awaiting.
  - assert (Hnonzero : ¬ (optimize == 0)%Q).
    { apply Qeq_bool_neq in Htest. intros Hzero. apply Htest. lra. }
    rewrite Hsingle, Harray.
    split; [|split; [|split; [|split; [|split]]]].
    + split; [intros _; exact Hnonzero | reflexivity].
    + reflexivity.
    + intros; contradiction.
    + split; [intros _; exact Hnonzero | reflexivity].
    + reflexivity.
    + intros; contradiction.
Qed.
End FirstMessage.

(** ** The Banks of the scan-array build *)

Section Banks.
Context {ceilings : Ceilings} {bank_class : BankClass}.

(** C10, amended: a scan-array node started by [onInit] that still has the
    first-message callback bound holds no Bank and one argument, [first];
    the array message it then meets is completed, and after it there are as
    many Banks and arguments as the message has scans, the argument of
    stream [i] being [first] with ["_" + i] appended to the five topic names
    [topic_ema], [topic_objects_closest_point_markers],
    [topic_objects_velocity_arrows], [topic_objects_delta_position_lines]
    and [topic_objects_width_lines], to the three namespaces and to the
    node-name suffix, and equal to [first] elsewhere ([topic_objects] is
    not suffixed); whatever messages follow, the steady callback stays
    bound, the number of Banks stays and the arguments stay. *)
Theorem banks_are_created_once (configured : BankArgument) (optimize : Q)
    (queue : list (Stamped LaserScanArray)) (st : LSA.Node)
    (ev : Stamped LaserScanArray) :
  spin LSA.deliver queue (LSA.onInit configured optimize) = Some st →
  LSA.sub st = CbFirst →
  ∃ (first : BankArgument) (st' : LSA.Node),
    LSA.banks st = [] ∧ LSA.bank_arguments st = [first] ∧
    LSA.deliver ev st = Some st' ∧
    LSA.sub st' = CbSteady ∧
    length (LSA.banks st') = length (msgs (message ev)) ∧
    length (LSA.bank_arguments st') = length (msgs (message ev)) ∧
    (∀ i, i < length (msgs (message ev)) →
       ∃ ba, LSA.bank_arguments st' !! i = Some ba ∧ suffixed_copy i first ba) ∧
    (∀ queue' st'', spin LSA.deliver queue' st' = Some st'' →
       LSA.sub st'' = CbSteady ∧
       length (LSA.banks st'') = length (LSA.banks st') ∧
       LSA.bank_arguments st'' = LSA.bank_arguments st').
Proof.
  intros Hrun Hsub.
  destruct (LSA_reachable queue _ st (or_intror (LSA_onInit_awaiting _ _)) Hrun)
    as [Hsteady|(Hbanks & first & Hargs)]; [congruence|].
  destruct (LSA_first_array_message (message ev) st first Hbanks Hargs)
    as (st' & Hstep & Hsteady & Hnbanks & Hnargs & Hsuffixed & _).
  exists first, st'. unfold LSA.deliver. rewrite Hsub.
  do 7 (split; [assumption || reflexivity || idtac|]).
  - intros i Hi. eexists. split; [exact (Hsuffixed i Hi)|].
    apply append_names_suffixed_copy.
  - intros queue' st'' Hlater.
    destruct (LSA_steady_spin queue' st' st'' Hsteady Hlater) as (Hs & Ha & _ & Hl).
    auto.
Qed.
End Banks.

(** ** The properties on concrete nodes *)

Lemma spec_bank_init_failure_keeps_bank : init_failure_keeps_bank spec_bank.
Proof.
  intros ba scan b. cbn. unfold spec_init.
  destruct (well_formed scan); cbn; [intros Hne; destruct Hne|]; reflexivity.
Qed.

Lemma init_failure_handling_witness :
  LS.deliver (ceilings := example_ceilings) (bank_class := spec_bank)
    {| now := 1%Q; message := empty_scan |}
    (LS.onInit (bank_class := spec_bank) example_argument 0%Q)
  = Some (LS.onInit (bank_class := spec_bank) example_argument 0%Q).
Proof.
  apply (proj1 (init_failure_handling (ceilings := example_ceilings)
                  (bank_class := spec_bank))).
  - reflexivity.
  - discriminate.
  - exact spec_bank_init_failure_keeps_bank.
Defined.

(** C8 as stated fails in the scan-array build: an array message of one
    empty scan, on which [init] returns the failure code -1, leaves the node
    with a Bank created and the steady callback bound; the first-message
    callback does not meet the next array message. *)
Lemma array_init_failure_is_dropped :
  ∃ st',
    (init (BankClass := spec_bank) (append_names "_0" example_argument)
       empty_scan Bank_new).1 = (-1)%Z ∧
    LSA.deliver (ceilings := example_ceilings) (bank_class := spec_bank)
      {| now := 1%Q; message := {| msgs := [empty_scan] |} |}
      (LSA.onInit (bank_class := spec_bank) example_argument 0%Q) = Some st' ∧
    LSA.sub (LSA.onInit (bank_class := spec_bank) example_argument 0%Q) = CbFirst ∧
    LSA.sub st' = CbSteady ∧
    LSA.bank_arguments st' = [append_names "_0" example_argument] ∧
    length (LSA.banks st') = 1 ∧
    st' ≠ LSA.onInit (bank_class := spec_bank) example_argument 0%Q.
Proof.
  eexists. split; [reflexivity|]. split; [vm_compute; reflexivity|].
  repeat split. discriminate.
Qed.

Lemma banks_are_created_once_witness :
  ∃ (first : BankArgument) (st' : LSA.Node),
    LSA.banks (LSA.onInit (bank_class := spec_bank) example_argument 0%Q) = [] ∧
    LSA.bank_arguments (LSA.onInit (bank_class := spec_bank) example_argument 0%Q)
      = [first] ∧
    LSA.deliver (ceilings := example_ceilings) (bank_class := spec_bank)
      {| now := 1%Q; message := {| msgs := [three_ranges_scan; empty_scan] |} |}
      (LSA.onInit (bank_class := spec_bank) example_argument 0%Q) = Some st' ∧
    LSA.sub st' = CbSteady ∧
    length (LSA.banks st') = 2 ∧
    length (LSA.bank_arguments st') = 2 ∧
    (∀ i, i < 2 →
       ∃ ba, LSA.bank_arguments st' !! i = Some ba ∧ suffixed_copy i first ba) ∧
    (∀ queue' st'',
       spin (LSA.deliver (ceilings := example_ceilings) (bank_class := spec_bank))
         queue' st' = Some st'' →
       LSA.sub st'' = CbSteady ∧
       length (LSA.banks st'') = length (LSA.banks st') ∧
       LSA.bank_arguments st'' = LSA.bank_arguments st').
Proof.
  apply (banks_are_created_once (ceilings := example_ceilings) (bank_class := spec_bank)
           example_argument 0%Q []
           (LSA.onInit (bank_class := spec_bank) example_argument 0%Q)
           {| now := 1%Q; message := {| msgs := [three_ranges_scan; empty_scan] |} |});
    reflexivity.
Defined.

(** C10 as stated fails for the topic name [topic_objects]: after a first
    array message of two scans the argument of stream 1 has the topic
    ["moving_objects"] of the configured argument, not ["moving_objects_1"],
    next to the suffixed ["ema_1"]. *)
Lemma topic_objects_is_not_suffixed :
  ∃ st' ba,
    LSA.deliver (ceilings := example_ceilings) (bank_class := spec_bank)
      {| now := 1%Q; message := {| msgs := [three_ranges_scan; empty_scan] |} |}
      (LSA.onInit (bank_class := spec_bank) example_argument 0%Q) = Some st' ∧
    LSA.bank_arguments st' !! 1 = Some ba ∧
    topic_ema ba = "ema_1" ∧
    topic_objects ba = "moving_objects" ∧
    topic_objects ba ≠ topic_objects example_argument +:+ "_" +:+ pretty 1.
Proof.
  eexists. eexists. split; [vm_compute; reflexivity|].
  split; [reflexivity|]. repeat split. discriminate.
Qed.

Lemma calculateConfidence_across_calibration_witness :
  ∃ st,
    spin (LS.deliver (ceilings := example_ceilings) (bank_class := spec_bank))
      (warm_up_queue three_ranges_scan)
      (LS.onInit (bank_class := spec_bank) example_argument 1%Q) = Some st ∧
    (calculateConfidence (LS.globals st)
       example_object example_argument 0.5 0.3 true true true true true true
     - calculateConfidence
         (LS.globals (LS.onInit (bank_class := spec_bank) example_argument 1%Q))
         example_object example_argument 0.5 0.3 true true true true true true
     == ema_alpha example_argument
        * (a * ((0.5 - 1 * 0.6) * (0.5 - 1 * 1.4) - (0.5 - 0.35) * (0.5 - 0.65))))%Q.
Proof.
  destruct (spin (LS.deliver (ceilings := example_ceilings) (bank_class := spec_bank))
              (warm_up_queue three_ranges_scan)
              (LS.onInit (bank_class := spec_bank) example_argument 1%Q))
    as [st|] eqn:Hrun; [|vm_compute in Hrun; discriminate Hrun].
  exists st. split; [reflexivity|].
  refine (proj2 (proj2 (proj1 (calculateConfidence_across_calibration
                                 (ceilings := example_ceilings) (bank_class := spec_bank)
                                 example_argument 1%Q example_object example_argument
                                 0.5%Q 0.3%Q true true true true true true)
                          [] (warm_up_queue three_ranges_scan) _ st eq_refl Hrun))
            eq_refl _).
  vm_compute in Hrun. injection Hrun as <-. reflexivity.
Defined.

Local Open Scope Q_scope.

(** C5 as stated fails: the same call returns 0.9675 before the calibration
    and 0.63 after the calibration of a single-scan node configured with a
    target of one second has run. *)
Lemma calculateConfidence_changes_with_calibration :
  exists st,
    spin (LS.deliver (ceilings := example_ceilings) (bank_class := spec_bank))
      (warm_up_queue three_ranges_scan)
      (LS.onInit (bank_class := spec_bank) example_argument 1) = Some st /\
    calculateConfidence (LS.globals (LS.onInit (bank_class := spec_bank) example_argument 1))
      example_object example_argument 0.5 0.3 true true true true true true
    == 0.9675 /\
    calculateConfidence (LS.globals st)
      example_object example_argument 0.5 0.3 true true true true true true
    == 0.63 /\
    ~ calculateConfidence (LS.globals (LS.onInit (bank_class := spec_bank) example_argument 1))
        example_object example_argument 0.5 0.3 true true true true true true
      == calculateConfidence (LS.globals st)
           example_object example_argument 0.5 0.3 true true true true true true.
Proof.
  eexists. split; [vm_compute; reflexivity|].
  split; [reflexivity|]. split; [reflexivity|].
  intros E. apply Qeq_bool_iff in E. vm_compute in E. discriminate E.
Qed.

(** A calibration need not change the value: at [dt = 0.6125] the same call
    returns 0.92953125 with the default roots and with the roots of a
    target of one second. *)
Example calibration_can_keep_the_value :
  calculateConfidence globals_init example_object example_argument 0.6125 0.3
    true true true true true true
  == calculateConfidence (adapted_roots 1) example_object example_argument 0.6125 0.3
       true true true true true true.
Proof. reflexivity. Qed.

Local Close Scope Q_scope.

Lemma calibration_is_one_shot_witness :
  warm_up_ends (LS.deliver (ceilings := example_ceilings) (bank_class := spec_bank))
    (λ s, warming_up (LS.sub s))
    (warm_up_queue three_ranges_scan
     ++ [ {| now := 12%Q; message := empty_scan |};
          {| now := 13%Q; message := three_ranges_scan |};
          {| now := 14%Q; message := three_ranges_scan |} ])
    (LS.onInit (bank_class := spec_bank) example_argument 1%Q) = 1.
Proof.
  eapply (proj1 (proj2 (calibration_is_one_shot (ceilings := example_ceilings)
                          (bank_class := spec_bank)))).
  - reflexivity.
  - vm_compute. reflexivity.
  - reflexivity.
Defined.

Lemma warm_up_end_calibrates_witness :
  ∃ (st' : LS.Node) (hz nr_scans : Q) (n : Z),
    LS.deliver (ceilings := time_ceilings) (bank_class := spec_bank)
      (tenth_message three_ranges_scan) rounding_node = Some st' ∧
    nr_scans_in_bank (LS.bank_argument st') = 4%Z ∧
    round_double (inject_Z (9 + 1) / 1) = Some hz ∧
    round_double (double_literal 0.3 * hz) = Some nr_scans ∧
    optimized_nr_scans nr_scans = Some n ∧
    nr_scans_in_bank (LS.bank_argument st') = sanity_check n ∧
    (root_1 (LS.globals st') == double_literal 0.3 * 0.6)%Q ∧
    (root_2 (LS.globals st') == double_literal 0.3 * 1.4)%Q ∧
    LS.sub st' = CbFirst.
Proof.
  destruct (LS.deliver (ceilings := time_ceilings) (bank_class := spec_bank)
              (tenth_message three_ranges_scan) rounding_node)
    as [st'|] eqn:Hstep; [|vm_compute in Hstep; discriminate Hstep].
  assert (Helapsed : round_double (now (tenth_message three_ranges_scan)
                                   - LS.start_time rounding_node) = Some 1%Q)
    by (vm_compute; reflexivity).
  assert (Hreached : (max_time (Ceilings := time_ceilings) <= 1)%Q ∨
                     (max_messages (Ceilings := time_ceilings) ≤ 9 + 1)%Z)
    by (left; discriminate).
  destruct (proj1 (proj2 (proj1 (warm_up_end_calibrates (ceilings := time_ceilings)
                                   (bank_class := spec_bank))
                            rounding_node (tenth_message three_ranges_scan) 1%Q
                            eq_refl Helapsed)
                     Hreached)
              st' Hstep) as (hz & nr_scans & n & Hresult).
  exists st', hz, nr_scans, n. split; [reflexivity|]. split; [|exact Hresult].
  vm_compute in Hstep. injection Hstep as <-. reflexivity.
Defined.

Lemma calibrated_bank_size_boundary_witness :
  ∃ (st' : LS.Node) (elapsed_time hz nr_scans : Q) (n : Z),
    LS.deliver (ceilings := time_ceilings) (bank_class := spec_bank)
      (tenth_message three_ranges_scan) rounding_node = Some st' ∧
    nr_scans_in_bank (LS.bank_argument st') = 4%Z ∧
    round_double (double_literal 1.2 - double_literal 0.2) = Some elapsed_time ∧
    round_double (inject_Z (9 + 1) / elapsed_time) = Some hz ∧
    round_double (double_literal 0.3 * hz) = Some nr_scans ∧
    (∀ k : Z, (nr_scans == inject_Z k)%Q → n = (k + 1)%Z) ∧
    ((∀ k : Z, ¬ (nr_scans == inject_Z k)%Q) → n = Qceiling nr_scans) ∧
    nr_scans_in_bank (LS.bank_argument st') = (if (n <? 2)%Z then 2%Z else n) ∧
    (2 ≤ nr_scans_in_bank (LS.bank_argument st'))%Z.
Proof.
  destruct (LS.deliver (ceilings := time_ceilings) (bank_class := spec_bank)
              (tenth_message three_ranges_scan) rounding_node)
    as [st'|] eqn:Hstep; [|vm_compute in Hstep; discriminate Hstep].
  assert (Hfirst : LS.sub st' = CbFirst)
    by (vm_compute in Hstep; injection Hstep as <-; reflexivity).
  destruct (proj1 (calibrated_bank_size_boundary (ceilings := time_ceilings)
                     (bank_class := spec_bank))
              rounding_node st' (tenth_message three_ranges_scan)
              eq_refl Hstep Hfirst)
    as (elapsed_time & hz & nr_scans & n & Hresult).
  exists st', elapsed_time, hz, nr_scans, n.
  split; [reflexivity|]. split; [|exact Hresult].
  vm_compute in Hstep. injection Hstep as <-. reflexivity.
Defined.

(** The rounding on numbers: started at the [double] 0.2, the tenth message
    met at the [double] 1.2 reaches the time ceiling of one second, the rate
    is 10 Hz, the product with the target, the [double] 0.3, is the [double]
    3 where the product of the two numbers is below 3, and the bank size
    is 4. *)
Example rounding_examples :
  round_double (double_literal 1.2 - double_literal 0.2) = Some 1%Q ∧
  (double_literal 1.2 - double_literal 0.2 < 1)%Q ∧
  round_double (inject_Z 10 / 1) = Some (inject_Z 10) ∧
  round_double (double_literal 0.3 * inject_Z 10) = Some (inject_Z 3) ∧
  (double_literal 0.3 * inject_Z 10 < 3)%Q ∧
  optimized_nr_scans (inject_Z 3) = Some 4%Z.
Proof. repeat split; vm_compute; reflexivity. Qed.

Lemma calibrator_runs_iff_optimize_nonzero_witness :
  LS.sub (LS.onInit (bank_class := spec_bank) example_argument (-2)%Q)
    = CbWaitForFirstMessage ∧
  LSA.sub (LSA.onInit (bank_class := spec_bank) example_argument (-2)%Q)
    = CbWaitForFirstMessage.
Proof.
  assert (Hnonzero : ¬ (-2 == 0)%Q) by (apply Qeq_bool_neq; reflexivity).
  destruct (calibrator_runs_iff_optimize_nonzero (ceilings := example_ceilings)
              (bank_class := spec_bank) example_argument (-2)%Q)
    as (_ & Hsingle & _ & _ & Harray & _).
  split; [exact (Hsingle Hnonzero) | exact (Harray Hnonzero)].
Defined.

(** * Further properties of the code *)

(** ** The bank size as a function of target times rate *)

Section BankSizeShape.
Local Open Scope Q_scope.

Lemma Qceiling_of_fraction (x : Q) :
  (forall k : Z, ~ x == inject_Z k) -> Qceiling x = (Qfloor x + 1)%Z.
Proof.
  intros Hfrac.
  pose proof (Qfloor_le x) as Hfl. pose proof (Qlt_floor x) as Hfu.
  pose proof (Qle_ceiling x) as Hcu. pose proof (Qceiling_lt x) as Hcl.
  assert (Hstrict : inject_Z (Qfloor x) < x).
  { apply Qle_lteq in Hfl as [Hlt|Heq]; [exact Hlt|].
    exfalso. apply (Hfrac (Qfloor x)). symmetry. exact Heq. }
  assert (Hup : (Qfloor x < Qceiling x)%Z).
  { rewrite Zlt_Qlt. apply (Qlt_le_trans _ x); assumption. }
  assert (Hdown : (Qceiling x - 1 < Qfloor x + 1)%Z).
  { rewrite Zlt_Qlt. apply (Qlt_trans _ x); assumption. }
  lia.
Qed.

(** Both branches of the assignment give the integer next above the floor. *)
Lemma optimized_nr_scans_floor (nr_scans : Q) (n : Z) :
  optimized_nr_scans nr_scans = Some n -> n = (Qfloor nr_scans + 1)%Z.
Proof.
  intros Hn. destruct (optimized_nr_scans_Some _ _ Hn) as [Hint Hfrac].
  destruct (Qeq_bool (nr_scans - inject_Z (Qtruncate nr_scans)) 0.0) eqn:Htest.
  - apply fraction_test_integral in Htest as [k Hk].
    rewrite (Hint k Hk), (Qfloor_comp _ _ Hk), Qfloor_Z. reflexivity.
  - assert (Hnone : forall k : Z, ~ nr_scans == inject_Z k).
    { intros k Hk.
      assert (Hyes : Qeq_bool (nr_scans - inject_Z (Qtruncate nr_scans)) 0.0 = true)
        by (apply fraction_test_integral; exists k; exact Hk).
      congruence. }
    rewrite (Hfrac Hnone). apply Qceiling_of_fraction, Hnone.
Qed.

(** X1: whenever the bank-size assignment has a value [n], [n] is the floor
    of target times rate plus one, the least integer strictly above the
    product: [n - 1 <= nr_scans < n].  The branch for an integral product
    and the branch through [ceil] are one rule. *)
Theorem optimized_nr_scans_is_floor_plus_one (nr_scans : Q) (n : Z) :
  optimized_nr_scans nr_scans = Some n ->
  n = (Qfloor nr_scans + 1)%Z /\
  inject_Z n - 1 <= nr_scans /\ nr_scans < inject_Z n.
Proof.
  intros Hn. pose proof (optimized_nr_scans_floor _ _ Hn) as ->.
  split; [reflexivity|].
  pose proof (Qfloor_le nr_scans). pose proof (Qlt_floor nr_scans) as Hup.
  rewrite inject_Z_plus in *. change (inject_Z 1) with 1 in *.
  split; [lra | exact Hup].
Qed.

Lemma optimized_nr_scans_is_floor_plus_one_witness :
  3%Z = (Qfloor 2.5 + 1)%Z /\ inject_Z 3 - 1 <= 2.5 /\ 2.5 < inject_Z 3.
Proof.
  apply (optimized_nr_scans_is_floor_plus_one 2.5 3). reflexivity.
Defined.

(** X2: the bank size does not shrink when target times rate grows: for two
    products with values, the larger product gets at least the bank size of
    the smaller, before and after the sanity check. *)
Theorem optimized_nr_scans_monotone (x y : Q) (n m : Z) :
  x <= y ->
  optimized_nr_scans x = Some n -> optimized_nr_scans y = Some m ->
  (n <= m)%Z /\ (sanity_check n <= sanity_check m)%Z.
Proof.
  intros Hxy Hn Hm.
  rewrite (optimized_nr_scans_floor _ _ Hn), (optimized_nr_scans_floor _ _ Hm).
  pose proof (Qfloor_resp_le _ _ Hxy) as Hfloor.
  split; [lia|]. unfold sanity_check.
  destruct (Z.ltb_spec (Qfloor x + 1) 2), (Z.ltb_spec (Qfloor y + 1) 2); lia.
Qed.

Lemma optimized_nr_scans_monotone_witness :
  (6 <= 8)%Z /\ (sanity_check 6 <= sanity_check 8)%Z.
Proof.
  apply (optimized_nr_scans_monotone (0.5 * 10) (0.5 * 15) 6 8);
    [discriminate | reflexivity | reflexivity].
Defined.

(** X3: the sanity check sets the bank size to 2 exactly for the products
    below 2: a zero or negative target times rate included, every such
    product gives a bank of 2 scans, and no product of 2 or more does. *)
Theorem sanity_check_binds_below_two (nr_scans : Q) (n : Z) :
  optimized_nr_scans nr_scans = Some n ->
  (sanity_check n = 2%Z <-> nr_scans < 2) /\
  (2 <= nr_scans -> sanity_check n = n).
Proof.
  intros Hn. pose proof (optimized_nr_scans_floor _ _ Hn) as ->.
  pose proof (Qfloor_le nr_scans) as Hlow. pose proof (Qlt_floor nr_scans) as Hup.
  assert (Hcut : (Qfloor nr_scans + 1 <= 2)%Z <-> nr_scans < 2).
  { split.
    - intros Hle. apply (Qlt_le_trans _ _ _ Hup).
      change (inject_Z (Qfloor nr_scans + 1) <= inject_Z 2). rewrite <- Zle_Qle. exact Hle.
    - intros Hlt.
      assert (Hfl : (Qfloor nr_scans < 2)%Z).
      { rewrite Zlt_Qlt. apply (Qle_lt_trans _ _ _ Hlow Hlt). }
      lia. }
  unfold sanity_check.
  destruct (Z.ltb_spec (Qfloor nr_scans + 1) 2) as [Hsmall|Hbig].
  - split.
    + split; [intros _; apply Hcut; lia | reflexivity].
    + intros Htwo. exfalso. assert (nr_scans < 2) by (apply Hcut; lia). lra.
  - split.
    + rewrite <- Hcut. lia.
    + reflexivity.
Qed.

Lemma sanity_check_binds_below_two_witness :
  (sanity_check (-9) = 2%Z <-> -1 * 10 < 2) /\
  (2 <= -1 * 10 -> sanity_check (-9) = (-9)%Z).
Proof.
  apply (sanity_check_binds_below_two (-1 * 10) (-9)). reflexivity.
Defined.

End BankSizeShape.

(** ** The shape of the confidence *)

Section ConfidenceShape.
Local Open Scope Q_scope.

Lemma Qsquare_nonneg (x : Q) : 0 <= x * x.
Proof.
  destruct (Qlt_le_dec x 0) as [Hneg|Hpos].
  - assert (Hopp : 0 <= - x) by lra.
    pose proof (Qmult_le_0_compat _ _ Hopp Hopp) as Hsq.
    assert (Heq : - x * - x == x * x) by ring.
    rewrite Heq in Hsq. exact Hsq.
  - apply Qmult_le_0_compat; assumption.
Qed.

Lemma midpoint_adapted_roots (target : Q) : midpoint (adapted_roots target) == target.
Proof. unfold midpoint, adapted_roots. cbn [root_1 root_2]. field. Qed.

(** The confidence at [dt] against the confidence at the first root. *)
Lemma calculateConfidence_from_root g mo ba w (t1 t2 t3 t4 t5 t6 : bool) dt :
  calculateConfidence g mo ba dt w t1 t2 t3 t4 t5 t6
  - calculateConfidence g mo ba (root_1 g) w t1 t2 t3 t4 t5 t6
  == - (3 * (ema_alpha ba * ((dt - root_1 g) * (dt - root_2 g)))).
Proof.
  unfold calculateConfidence. rewrite a_value.
  destruct (t1 && t2 && t3 && t4 && t5 && t6); ring.
Qed.

(** X4: after a calibration with target [target] the midpoint of the roots
    is [target], and for a smoothing factor that is not negative no window
    duration scores higher than [dt = target], whatever the sign of the
    target. *)
Theorem calibrated_confidence_peaks_at_target target mo ba w
    (t1 t2 t3 t4 t5 t6 : bool) dt :
  0 <= ema_alpha ba ->
  midpoint (adapted_roots target) == target /\
  calculateConfidence (adapted_roots target) mo ba dt w t1 t2 t3 t4 t5 t6
  <= calculateConfidence (adapted_roots target) mo ba target w t1 t2 t3 t4 t5 t6.
Proof.
  intros Halpha. pose proof (midpoint_adapted_roots target) as Hmid.
  split; [exact Hmid|].
  pose proof (calculateConfidence_gap (adapted_roots target) mo ba w
                t1 t2 t3 t4 t5 t6 target dt) as Hgap.
  set (m := midpoint (adapted_roots target)) in *.
  assert (Hzero : (target - m) * (target - m) == 0) by (rewrite Hmid; ring).
  rewrite Hzero in Hgap.
  assert (Hsq : 0 <= (dt - m) * (dt - m)) by apply Qsquare_nonneg.
  assert (Hpos : 0 <= ema_alpha ba * ((dt - m) * (dt - m) - 0))
    by (apply Qmult_le_0_compat; lra).
  lra.
Qed.

Lemma calibrated_confidence_peaks_at_target_witness :
  midpoint (adapted_roots (-2)) == -2 /\
  calculateConfidence (adapted_roots (-2)) example_object example_argument 0.5 0.3
    true true true true true true
  <= calculateConfidence (adapted_roots (-2)) example_object example_argument (-2) 0.3
       true true true true true true.
Proof.
  apply (calibrated_confidence_peaks_at_target (-2) example_object example_argument
           0.3 true true true true true true 0.5).
  discriminate.
Defined.

(** X5: at either root the term of the window duration vanishes, and for a
    positive smoothing factor and roots in order the confidence at [dt] is
    at least the confidence at a root exactly when [dt] lies between the
    roots: the term is a gain inside the roots and a loss outside. *)
Theorem duration_term_gains_between_roots g mo ba w (t1 t2 t3 t4 t5 t6 : bool) dt :
  0 < ema_alpha ba -> root_1 g <= root_2 g ->
  calculateConfidence g mo ba (root_1 g) w t1 t2 t3 t4 t5 t6
  == calculateConfidence g mo ba (root_2 g) w t1 t2 t3 t4 t5 t6 /\
  (calculateConfidence g mo ba (root_1 g) w t1 t2 t3 t4 t5 t6
   <= calculateConfidence g mo ba dt w t1 t2 t3 t4 t5 t6
   <-> root_1 g <= dt <= root_2 g).
Proof.
  intros Halpha Horder.
  pose proof (calculateConfidence_from_root g mo ba w t1 t2 t3 t4 t5 t6 dt) as Hdt.
  pose proof (calculateConfidence_from_root g mo ba w t1 t2 t3 t4 t5 t6 (root_2 g)) as Hr2.
  split.
  - assert (Hz : (root_2 g - root_1 g) * (root_2 g - root_2 g) == 0) by ring.
    rewrite Hz in Hr2. lra.
  - set (x := dt - root_1 g) in *. set (y := dt - root_2 g) in *.
    assert (Hyx : y <= x) by (unfold x, y; lra).
    split.
    + intros Hle.
      assert (Hprod : ema_alpha ba * (x * y) <= 0) by lra.
      assert (Hxy : x * y <= 0).
      { destruct (Qlt_le_dec 0 (x * y)) as [Hpos|Hneg]; [|exact Hneg].
        exfalso. pose proof (Qmult_lt_0_compat _ _ Halpha Hpos). lra. }
      assert (Hx : 0 <= x).
      { destruct (Qlt_le_dec x 0) as [Hneg|Hok]; [|exact Hok]. exfalso. nra. }
      assert (Hy : y <= 0).
      { destruct (Qlt_le_dec 0 y) as [Hpos|Hok]; [|exact Hok]. exfalso. nra. }
      unfold x, y in *. split; lra.
    + intros [Hlow Hhigh].
      assert (Hx : 0 <= x) by (unfold x; lra).
      assert (Hy : 0 <= - y) by (unfold y; lra).
      assert (Hxy : 0 <= x * - y) by (apply Qmult_le_0_compat; assumption).
      assert (Hprod : 0 <= ema_alpha ba * (x * - y))
        by (apply Qmult_le_0_compat; lra).
      assert (Heq : ema_alpha ba * (x * - y) == - (ema_alpha ba * (x * y))) by ring.
      lra.
Qed.

Lemma duration_term_gains_between_roots_witness :
  calculateConfidence globals_init example_object example_argument
    (root_1 globals_init) 0.3 true true true true true true
  == calculateConfidence globals_init example_object example_argument
       (root_2 globals_init) 0.3 true true true true true true /\
  (calculateConfidence globals_init example_object example_argument
     (root_1 globals_init) 0.3 true true true true true true
   <= calculateConfidence globals_init example_object example_argument
        0.5 0.3 true true true true true true
   <-> root_1 globals_init <= 0.5 <= root_2 globals_init).
Proof.
  apply (duration_term_gains_between_roots globals_init example_object
           example_argument 0.3 true true true true true true 0.5).
  - reflexivity.
  - discriminate.
Defined.

(** X6: for a smoothing factor that is not negative the confidence is at
    most [ema_alpha * (base_confidence + 0.5 + 3 h^2)], with [h] half the
    distance of the roots; the bound is met with all six transforms found,
    the window duration at the midpoint of the roots and equal widths. *)
Theorem calculateConfidence_upper_bound g mo ba w (t1 t2 t3 t4 t5 t6 : bool) dt :
  0 <= ema_alpha ba ->
  calculateConfidence g mo ba dt w t1 t2 t3 t4 t5 t6
  <= ema_alpha ba *
     (base_confidence ba + 0.5
      + 3 * (((root_2 g - root_1 g) / 2) * ((root_2 g - root_1 g) / 2))) /\
  calculateConfidence g mo ba (midpoint g) (seen_width mo) true true true true true true
  == ema_alpha ba *
     (base_confidence ba + 0.5
      + 3 * (((root_2 g - root_1 g) / 2) * ((root_2 g - root_1 g) / 2))).
Proof.
  intros Halpha.
  assert (Hbest :
    calculateConfidence g mo ba (midpoint g) (seen_width mo) true true true true true true
    == ema_alpha ba *
       (base_confidence ba + 0.5
        + 3 * (((root_2 g - root_1 g) / 2) * ((root_2 g - root_1 g) / 2)))).
  { unfold calculateConfidence, midpoint. rewrite a_value. cbn [andb].
    assert (Hsame : Qabs (seen_width mo - seen_width mo) == 0).
    { assert (Hz : seen_width mo - seen_width mo == 0) by ring.
      rewrite Hz. reflexivity. }
    rewrite Hsame. field. }
  split; [|exact Hbest].
  rewrite <- Hbest.
  pose proof (calculateConfidence_gap g mo ba w true true true true true true
                (midpoint g) dt) as Hgap.
  assert (Hz : (midpoint g - midpoint g) * (midpoint g - midpoint g) == 0) by ring.
  rewrite Hz in Hgap.
  assert (Hsq : 0 <= (dt - midpoint g) * (dt - midpoint g)) by apply Qsquare_nonneg.
  assert (Hpos : 0 <= ema_alpha ba * ((dt - midpoint g) * (dt - midpoint g) - 0))
    by (apply Qmult_le_0_compat; lra).
  assert (Hflags :
    calculateConfidence g mo ba dt w t1 t2 t3 t4 t5 t6
    <= calculateConfidence g mo ba dt w true true true true true true).
  { destruct (t1 && t2 && t3 && t4 && t5 && t6) eqn:Hall.
    - repeat (apply andb_prop in Hall as [Hall ?]). subst. apply Qle_refl.
    - pose proof (transform_bonus_difference g mo ba dt w _ _ _ _ _ _ Hall). lra. }
  assert (Hwidth :
    calculateConfidence g mo ba dt w true true true true true true
    <= calculateConfidence g mo ba dt (seen_width mo) true true true true true true).
  { assert (Hdiff :
      calculateConfidence g mo ba dt (seen_width mo) true true true true true true
      - calculateConfidence g mo ba dt w true true true true true true
      == 5 * (ema_alpha ba * Qabs (seen_width mo - w))).
    { unfold calculateConfidence. cbn [andb].
      assert (Hsame : Qabs (seen_width mo - seen_width mo) == 0).
      { assert (Hz0 : seen_width mo - seen_width mo == 0) by ring.
        rewrite Hz0. reflexivity. }
      rewrite Hsame. ring. }
    pose proof (Qabs_nonneg (seen_width mo - w)).
    assert (0 <= ema_alpha ba * Qabs (seen_width mo - w))
      by (apply Qmult_le_0_compat; assumption).
    lra. }
  pose proof (calculateConfidence_gap g mo ba (seen_width mo) true true true true true true
                (midpoint g) dt) as Hgap'.
  rewrite Hz in Hgap'.
  lra.
Qed.

Lemma calculateConfidence_upper_bound_witness :
  calculateConfidence globals_init example_object example_argument 1.0 0.1
    true false true true true true
  <= ema_alpha example_argument *
     (base_confidence example_argument + 0.5
      + 3 * (((root_2 globals_init - root_1 globals_init) / 2)
             * ((root_2 globals_init - root_1 globals_init) / 2))) /\
  calculateConfidence globals_init example_object example_argument
    (midpoint globals_init) (seen_width example_object) true true true true true true
  == ema_alpha example_argument *
     (base_confidence example_argument + 0.5
      + 3 * (((root_2 globals_init - root_1 globals_init) / 2)
             * ((root_2 globals_init - root_1 globals_init) / 2))).
Proof.
  apply (calculateConfidence_upper_bound globals_init example_object example_argument
           0.1 true false true true true true 1.0).
  discriminate.
Defined.

(** X7: no target makes the calibration write the default roots: whatever
    the target, the roots after a calibration differ from 0.35 and 0.65. *)
Theorem adapted_roots_are_never_the_defaults (target : Q) :
  ~ (root_1 (adapted_roots target) == root_1 globals_init /\
     root_2 (adapted_roots target) == root_2 globals_init).
Proof.
  unfold adapted_roots, globals_init. cbn [root_1 root_2]. intros [H1 H2]. lra.
Qed.

End ConfidenceShape.

(** ** The rate measurement *)

Section RateMeasurement.
Context {ceilings : Ceilings} {bank_class : BankClass}.

(** What the rate calculation leaves alone, whether it ends the warm-up or
    not. *)
Lemma LS_hz_keeps (time_now : Q) (st st' : LS.Node) :
  LS.hzCalculationCallback time_now st = Some st' →
  LS.received_messages st' = (LS.received_messages st + 1)%Z ∧
  LS.bank st' = LS.bank st ∧
  LS.start_time st' = LS.start_time st ∧
  LS.optimize_nr_scans_in_bank st' = LS.optimize_nr_scans_in_bank st.
Proof.
  intros Hstep.
  destruct (LS_hz_cases _ _ _ Hstep)
    as (elapsed_time & _ & [[_ ->] | (_ & hz & nr_scans & n & _ & _ & _ & ->)]);
    repeat split.
Qed.

Lemma LSA_hz_keeps (time_now : Q) (st st' : LSA.Node) :
  LSA.hzCalculationCallback time_now st = Some st' →
  LSA.received_messages st' = (LSA.received_messages st + 1)%Z ∧
  LSA.banks st' = LSA.banks st ∧
  LSA.start_time st' = LSA.start_time st ∧
  LSA.optimize_nr_scans_in_bank st' = LSA.optimize_nr_scans_in_bank st.
Proof.
  intros Hstep.
  destruct (LSA_hz_cases _ _ _ Hstep)
    as (elapsed_time & _ &
        [[_ ->] | (_ & hz & nr_scans & n & first & _ & _ & _ & _ & ->)]);
    repeat split.
Qed.

(** The counter of a node: not negative, at most the message ceiling (or 1),
    and below the ceiling (or still 0) while the warm-up lasts. *)
Lemma LS_counter_step (ev : Stamped LaserScan) (st st' : LS.Node) :
  (0 ≤ LS.received_messages st ≤ Z.max 1 max_messages)%Z →
  (warming_up (LS.sub st) = true →
   LS.received_messages st = 0%Z ∨ (LS.received_messages st < max_messages)%Z) →
  LS.deliver ev st = Some st' →
  (0 ≤ LS.received_messages st' ≤ Z.max 1 max_messages)%Z ∧
  (warming_up (LS.sub st') = true →
   LS.received_messages st' = 0%Z ∨ (LS.received_messages st' < max_messages)%Z).
Proof.
  intros Hrange Hwarm. unfold LS.deliver.
  destruct (LS.sub st) eqn:Hsub.
  - intros [= <-]. cbn. split; [exact Hrange | intros _; apply Hwarm; reflexivity].
  - intros Hstep. specialize (Hwarm eq_refl).
    destruct (LS_hz_cases _ _ _ Hstep)
      as (elapsed_time & _ & [[Hdone ->] | (_ & hz & nr_scans & n & _ & _ & _ & ->)]);
      cbn [LS.received_messages LS.sub warming_up].
    + unfold are_we_done in Hdone. apply orb_false_iff in Hdone as [_ Hbelow].
      apply Z.leb_gt in Hbelow. split; [lia | intros _; right; lia].
    + split; [lia | discriminate].
  - intros Hstep.
    assert (Hout : warming_up (LS.sub st) = false) by (rewrite Hsub; reflexivity).
    assert (Hdeliver : LS.deliver ev st = Some st')
      by (unfold LS.deliver; rewrite Hsub; exact Hstep).
    destruct (LS_steady_step ev st st' Hout Hdeliver) as (Hout' & _ & _ & Hcount & _).
    rewrite Hcount, Hout'. split; [exact Hrange | discriminate].
  - intros Hstep.
    assert (Hout : warming_up (LS.sub st) = false) by (rewrite Hsub; reflexivity).
    assert (Hdeliver : LS.deliver ev st = Some st')
      by (unfold LS.deliver; rewrite Hsub; exact Hstep).
    destruct (LS_steady_step ev st st' Hout Hdeliver) as (Hout' & _ & _ & Hcount & _).
    rewrite Hcount, Hout'. split; [exact Hrange | discriminate].
Qed.

Lemma LSA_counter_step (ev : Stamped LaserScanArray) (st st' : LSA.Node) :
  (0 ≤ LSA.received_messages st ≤ Z.max 1 max_messages)%Z →
  (warming_up (LSA.sub st) = true →
   LSA.received_messages st = 0%Z ∨ (LSA.received_messages st < max_messages)%Z) →
  LSA.deliver ev st = Some st' →
  (0 ≤ LSA.received_messages st' ≤ Z.max 1 max_messages)%Z ∧
  (warming_up (LSA.sub st') = true →
   LSA.received_messages st' = 0%Z ∨ (LSA.received_messages st' < max_messages)%Z).
Proof.
  intros Hrange Hwarm. unfold LSA.deliver.
  destruct (LSA.sub st) eqn:Hsub.
  - intros [= <-]. cbn. split; [exact Hrange | intros _; apply Hwarm; reflexivity].
  - intros Hstep. specialize (Hwarm eq_refl).
    destruct (LSA_hz_cases _ _ _ Hstep)
      as (elapsed_time & _ &
          [[Hdone ->] | (_ & hz & nr_scans & n & first & _ & _ & _ & _ & ->)]);
      cbn [LSA.received_messages LSA.sub warming_up].
    + unfold are_we_done in Hdone. apply orb_false_iff in Hdone as [_ Hbelow].
      apply Z.leb_gt in Hbelow. split; [lia | intros _; right; lia].
    + split; [lia | discriminate].
  - intros Hstep. destruct (LSA_first_keeps_members _ _ _ Hstep) as (Hcount & _).
    rewrite Hcount, (LSA_first_binds_steady _ _ _ Hstep).
    split; [exact Hrange | discriminate].
  - intros Hstep. destruct (LSA_steady_keeps_members _ _ _ Hstep) as (Hcount & _).
    destruct (LSA_steady_message _ _ _ Hstep) as (Hsame & _).
    rewrite Hcount, Hsame, Hsub. split; [exact Hrange | discriminate].
Qed.

(** X8: in both builds and in every state a node reaches from [onInit],
    [received_messages] is at least 0 and at most the larger of 1 and
    [max_messages]: the increment of the rate calculation never runs past
    the message ceiling. *)
Theorem received_messages_stays_below_ceiling (configured : BankArgument) (optimize : Q) :
  (∀ queue (st : LS.Node),
     spin LS.deliver queue (LS.onInit configured optimize) = Some st →
     (0 ≤ LS.received_messages st ≤ Z.max 1 max_messages)%Z) ∧
  (∀ queue (st : LSA.Node),
     spin LSA.deliver queue (LSA.onInit configured optimize) = Some st →
     (0 ≤ LSA.received_messages st ≤ Z.max 1 max_messages)%Z).
Proof.
  split.
  - assert (Hspin : ∀ queue (st0 st : LS.Node),
      (0 ≤ LS.received_messages st0 ≤ Z.max 1 max_messages)%Z →
      (warming_up (LS.sub st0) = true →
       LS.received_messages st0 = 0%Z ∨ (LS.received_messages st0 < max_messages)%Z) →
      spin LS.deliver queue st0 = Some st →
      (0 ≤ LS.received_messages st ≤ Z.max 1 max_messages)%Z).
    { induction queue as [|ev queue IH]; intros st0 st Hrange Hwarm; cbn [spin].
      - intros [= <-]. exact Hrange.
      - destruct (LS.deliver ev st0) as [st1|] eqn:Hstep; [|discriminate].
        cbn [mbind option_bind].
        destruct (LS_counter_step ev st0 st1 Hrange Hwarm Hstep) as [Hrange1 Hwarm1].
        apply IH; assumption. }
    intros queue st. apply Hspin; cbn; [lia | intros _; left; reflexivity].
  - assert (Hspin : ∀ queue (st0 st : LSA.Node),
      (0 ≤ LSA.received_messages st0 ≤ Z.max 1 max_messages)%Z →
      (warming_up (LSA.sub st0) = true →
       LSA.received_messages st0 = 0%Z ∨ (LSA.received_messages st0 < max_messages)%Z) →
      spin LSA.deliver queue st0 = Some st →
      (0 ≤ LSA.received_messages st ≤ Z.max 1 max_messages)%Z).
    { induction queue as [|ev queue IH]; intros st0 st Hrange Hwarm; cbn [spin].
      - intros [= <-]. exact Hrange.
      - destruct (LSA.deliver ev st0) as [st1|] eqn:Hstep; [|discriminate].
        cbn [mbind option_bind].
        destruct (LSA_counter_step ev st0 st1 Hrange Hwarm Hstep) as [Hrange1 Hwarm1].
        apply IH; assumption. }
    intros queue st. apply Hspin; cbn; [lia | intros _; left; reflexivity].
Qed.
End RateMeasurement.

Section WarmUp.
Context {ceilings : Ceilings} {bank_class : BankClass}.

Lemma LS_warm_step_keeps_bank (ev : Stamped LaserScan) (st st' : LS.Node) :
  warming_up (LS.sub st) = true → LS.deliver ev st = Some st' →
  LS.bank st' = LS.bank st.
Proof.
  unfold LS.deliver. intros Hwarm.
  destruct (LS.sub st); try discriminate Hwarm.
  - intros [= <-]. reflexivity.
  - intros Hstep. apply (LS_hz_keeps _ _ _ Hstep).
Qed.

Lemma LSA_warm_step_keeps_banks (ev : Stamped LaserScanArray) (st st' : LSA.Node) :
  warming_up (LSA.sub st) = true → LSA.deliver ev st = Some st' →
  LSA.banks st' = LSA.banks st.
Proof.
  unfold LSA.deliver. intros Hwarm.
  destruct (LSA.sub st); try discriminate Hwarm.
  - intros [= <-]. reflexivity.
  - intros Hstep. apply (LSA_hz_keeps _ _ _ Hstep).
Qed.

(** A receive loop that ends in the warm-up never left it, and handed no
    message to the Bank. *)
Lemma LS_warm_spin_keeps_bank (queue : list (Stamped LaserScan)) (st st1 : LS.Node) :
  spin LS.deliver queue st = Some st1 → warming_up (LS.sub st1) = true →
  warming_up (LS.sub st) = true ∧ LS.bank st1 = LS.bank st.
Proof.
  revert st. induction queue as [|ev queue IH]; intros st; cbn [spin].
  - intros [= <-] Hwarm. auto.
  - destruct (LS.deliver ev st) as [st'|] eqn:Hstep; [|discriminate].
    cbn [mbind option_bind]. intros Hrun Hwarm1.
    destruct (IH st' Hrun Hwarm1) as [Hwarm' Hbank].
    assert (Hwarm : warming_up (LS.sub st) = true).
    { destruct (warming_up (LS.sub st)) eqn:Hw; [reflexivity|].
      rewrite (LS_warm_up_is_left_for_good ev st st' Hw Hstep) in Hwarm'.
      discriminate. }
    split; [exact Hwarm|].
    rewrite Hbank. exact (LS_warm_step_keeps_bank ev st st' Hwarm Hstep).
Qed.

Lemma LSA_warm_spin_keeps_banks (queue : list (Stamped LaserScanArray))
    (st st1 : LSA.Node) :
  spin LSA.deliver queue st = Some st1 → warming_up (LSA.sub st1) = true →
  warming_up (LSA.sub st) = true ∧ LSA.banks st1 = LSA.banks st.
Proof.
  revert st. induction queue as [|ev queue IH]; intros st; cbn [spin].
  - intros [= <-] Hwarm. auto.
  - destruct (LSA.deliver ev st) as [st'|] eqn:Hstep; [|discriminate].
    cbn [mbind option_bind]. intros Hrun Hwarm1.
    destruct (IH st' Hrun Hwarm1) as [Hwarm' Hbank].
    assert (Hwarm : warming_up (LSA.sub st) = true).
    { destruct (warming_up (LSA.sub st)) eqn:Hw; [reflexivity|].
      rewrite (LSA_warm_up_is_left_for_good ev st st' Hw Hstep) in Hwarm'.
      discriminate. }
    split; [exact Hwarm|].
    rewrite Hbank. exact (LSA_warm_step_keeps_banks ev st st' Hwarm Hstep).
Qed.

(** X9: in both builds no message of the warm-up reaches a Bank: after any
    messages that leave the node in the warm-up, and after one more message,
    the one that ends the warm-up included, the Bank (the vector of Banks) is
    as it was before the first of them. *)
Theorem warm_up_hands_no_message_to_the_bank :
  (∀ queue (st st1 st2 : LS.Node) ev,
     spin LS.deliver queue st = Some st1 → warming_up (LS.sub st1) = true →
     LS.deliver ev st1 = Some st2 →
     LS.bank st2 = LS.bank st) ∧
  (∀ queue (st st1 st2 : LSA.Node) ev,
     spin LSA.deliver queue st = Some st1 → warming_up (LSA.sub st1) = true →
     LSA.deliver ev st1 = Some st2 →
     LSA.banks st2 = LSA.banks st).
Proof.
  split.
  - intros queue st st1 st2 ev Hrun Hwarm Hstep.
    destruct (LS_warm_spin_keeps_bank queue st st1 Hrun Hwarm) as [_ <-].
    exact (LS_warm_step_keeps_bank ev st1 st2 Hwarm Hstep).
  - intros queue st st1 st2 ev Hrun Hwarm Hstep.
    destruct (LSA_warm_spin_keeps_banks queue st st1 Hrun Hwarm) as [_ <-].
    exact (LSA_warm_step_keeps_banks ev st1 st2 Hwarm Hstep).
Qed.

(** Messages that reach no ceiling raise the counter and nothing else. *)
Lemma LS_counting (evs : list (Stamped LaserScan)) (st : LS.Node) :
  LS.sub st = CbHzCalculation →
  (∀ i ev, evs !! i = Some ev →
     ∃ elapsed_time : Q,
       round_double (now ev - LS.start_time st) = Some elapsed_time ∧
       are_we_done max_time max_messages elapsed_time
         (LS.received_messages st + Z.of_nat i + 1) = false) →
  ∃ st', spin LS.deliver evs st = Some st' ∧
         LS.sub st' = CbHzCalculation ∧
         LS.received_messages st' = (LS.received_messages st + Z.of_nat (length evs))%Z ∧
         LS.start_time st' = LS.start_time st ∧
         LS.bank_argument st' = LS.bank_argument st ∧
         LS.globals st' = LS.globals st.
Proof.
  revert st. induction evs as [|ev evs IH]; intros st Hsub Hbelow.
  - exists st. cbn [spin length Z.of_nat]. rewrite Z.add_0_r. repeat split. exact Hsub.
  - destruct (Hbelow 0%nat ev eq_refl) as (elapsed_time & Helapsed & Hfirst).
    cbn [Z.of_nat] in Hfirst. rewrite Z.add_0_r in Hfirst.
    assert (Hstep : LS.deliver ev st = LS.hzCalculationCallback (now ev) st)
      by (unfold LS.deliver; rewrite Hsub; reflexivity).
    cbn [spin]. rewrite Hstep, (LS_hz_not_done _ _ _ Helapsed Hfirst).
    cbn [mbind option_bind].
    destruct (IH {| LS.sub := LS.sub st;
                    LS.received_messages := LS.received_messages st + 1;
                    LS.optimize_nr_scans_in_bank := LS.optimize_nr_scans_in_bank st;
                    LS.start_time := LS.start_time st;
                    LS.bank_argument := LS.bank_argument st;
                    LS.bank := LS.bank st;
                    LS.globals := LS.globals st |})
      as (st' & Hrun & Hs & Hc & Ht & Ha & Hg).
    + exact Hsub.
    + intros i ev' Hi. cbn [LS.received_messages LS.start_time].
      replace (LS.received_messages st + 1 + Z.of_nat i + 1)%Z
        with (LS.received_messages st + Z.of_nat (S i) + 1)%Z by lia.
      apply (Hbelow (S i) ev' Hi).
    + exists st'. split; [exact Hrun|]. cbn in Hc, Ht, Ha, Hg.
      rewrite Hc, Ht, Ha, Hg. cbn [length]. repeat split; [exact Hs | lia].
Qed.

Lemma LSA_counting (evs : list (Stamped LaserScanArray)) (st : LSA.Node) :
  LSA.sub st = CbHzCalculation →
  (∀ i ev, evs !! i = Some ev →
     ∃ elapsed_time : Q,
       round_double (now ev - LSA.start_time st) = Some elapsed_time ∧
       are_we_done max_time max_messages elapsed_time
         (LSA.received_messages st + Z.of_nat i + 1) = false) →
  ∃ st', spin LSA.deliver evs st = Some st' ∧
         LSA.sub st' = CbHzCalculation ∧
         LSA.received_messages st' = (LSA.received_messages st + Z.of_nat (length evs))%Z ∧
         LSA.start_time st' = LSA.start_time st ∧
         LSA.bank_arguments st' = LSA.bank_arguments st ∧
         LSA.globals st' = LSA.globals st.
Proof.
  revert st. induction evs as [|ev evs IH]; intros st Hsub Hbelow.
  - exists st. cbn [spin length Z.of_nat]. rewrite Z.add_0_r. repeat split. exact Hsub.
  - destruct (Hbelow 0%nat ev eq_refl) as (elapsed_time & Helapsed & Hfirst).
    cbn [Z.of_nat] in Hfirst. rewrite Z.add_0_r in Hfirst.
    assert (Hstep : LSA.deliver ev st = LSA.hzCalculationCallback (now ev) st)
      by (unfold LSA.deliver; rewrite Hsub; reflexivity).
    cbn [spin]. rewrite Hstep, (LSA_hz_not_done _ _ _ Helapsed Hfirst).
    cbn [mbind option_bind].
    destruct (IH {| LSA.sub := LSA.sub st;
                    LSA.received_messages := LSA.received_messages st + 1;
                    LSA.optimize_nr_scans_in_bank := LSA.optimize_nr_scans_in_bank st;
                    LSA.start_time := LSA.start_time st;
                    LSA.bank_arguments := LSA.bank_arguments st;
                    LSA.banks := LSA.banks st;
                    LSA.globals := LSA.globals st |})
      as (st' & Hrun & Hs & Hc & Ht & Ha & Hg).
    + exact Hsub.
    + intros i ev' Hi. cbn [LSA.received_messages LSA.start_time].
      replace (LSA.received_messages st + 1 + Z.of_nat i + 1)%Z
        with (LSA.received_messages st + Z.of_nat (S i) + 1)%Z by lia.
      apply (Hbelow (S i) ev' Hi).
    + exists st'. split; [exact Hrun|]. cbn in Hc, Ht, Ha, Hg.
      rewrite Hc, Ht, Ha, Hg. cbn [length]. repeat split; [exact Hs | lia].
Qed.

(** X10: in both builds, with a target that is not zero, the first message
    starts the clock and is not counted: after it and [k] further messages,
    none of which reaches a ceiling (for the [i]-th of them, from 0, the
    [double] difference of its clock reading and that of the first message
    is below [max_time], and [i + 1] is below [max_messages]), the rate
    calculation is still bound, the counter is [k], the start time is the
    time of the first message, and window size and roots are as
    configured. *)
Theorem first_message_starts_the_clock (configured : BankArgument) (optimize : Q)
    (t0 : Q) :
  ¬ (optimize == 0)%Q →
  (∀ (m : LaserScan) (evs : list (Stamped LaserScan)),
     (∀ i ev, evs !! i = Some ev →
        ∃ elapsed_time : Q,
          round_double (now ev - t0) = Some elapsed_time ∧
          are_we_done max_time max_messages elapsed_time (Z.of_nat i + 1) = false) →
     ∃ st, spin LS.deliver ({| now := t0; message := m |} :: evs)
             (LS.onInit configured optimize) = Some st ∧
           LS.sub st = CbHzCalculation ∧
           LS.received_messages st = Z.of_nat (length evs) ∧
           LS.start_time st = t0 ∧
           LS.bank_argument st = configured ∧
           LS.globals st = globals_init) ∧
  (∀ (m : LaserScanArray) (evs : list (Stamped LaserScanArray)),
     (∀ i ev, evs !! i = Some ev →
        ∃ elapsed_time : Q,
          round_double (now ev - t0) = Some elapsed_time ∧
          are_we_done max_time max_messages elapsed_time (Z.of_nat i + 1) = false) →
     ∃ st, spin LSA.deliver ({| now := t0; message := m |} :: evs)
             (LSA.onInit configured optimize) = Some st ∧
           LSA.sub st = CbHzCalculation ∧
           LSA.received_messages st = Z.of_nat (length evs) ∧
           LSA.start_time st = t0 ∧
           LSA.bank_arguments st = [configured] ∧
           LSA.globals st = globals_init).
Proof.
  intros Hnonzero.
  assert (Htest : Qeq_bool optimize 0.0 = false).
  { destruct (Qeq_bool optimize 0.0) eqn:Htest; [|reflexivity].
    exfalso. apply Hnonzero. apply Qeq_bool_iff in Htest. lra. }
  split.
  - intros m evs Hbelow.
    assert (Hstep : LS.deliver {| now := t0; message := m |} (LS.onInit configured optimize)
                    = Some (LS.waitForFirstMessageCallback t0
                              (LS.onInit configured optimize))).
    { unfold LS.deliver, LS.onInit. cbn [LS.sub]. rewrite Htest. reflexivity. }
    cbn [spin]. rewrite Hstep. cbn [mbind option_bind].
    destruct (LS_counting evs
                (LS.waitForFirstMessageCallback t0 (LS.onInit configured optimize)))
      as (st & Hrun & Hs & Hc & Ht & Ha & Hg).
    + reflexivity.
    + intros i ev Hi. cbn. exact (Hbelow i ev Hi).
    + exists st. cbn [now]. split; [exact Hrun|]. cbn in Hc, Ht, Ha, Hg. auto.
  - intros m evs Hbelow.
    assert (Hstep : LSA.deliver {| now := t0; message := m |} (LSA.onInit configured optimize)
                    = Some (LSA.waitForFirstMessageCallback t0
                              (LSA.onInit configured optimize))).
    { unfold LSA.deliver, LSA.onInit. cbn [LSA.sub]. rewrite Htest. reflexivity. }
    cbn [spin]. rewrite Hstep. cbn [mbind option_bind].
    destruct (LSA_counting evs
                (LSA.waitForFirstMessageCallback t0 (LSA.onInit configured optimize)))
      as (st & Hrun & Hs & Hc & Ht & Ha & Hg).
    + reflexivity.
    + intros i ev Hi. cbn. exact (Hbelow i ev Hi).
    + exists st. cbn [now]. split; [exact Hrun|]. cbn in Hc, Ht, Ha, Hg. auto.
Qed.
End WarmUp.

Lemma first_message_starts_the_clock_witness :
  (∀ (m : LaserScan) (evs : list (Stamped LaserScan)),
     (∀ i ev, evs !! i = Some ev →
        ∃ elapsed_time : Q,
          round_double (now ev - 10) = Some elapsed_time ∧
          are_we_done (max_time (Ceilings := example_ceilings))
            (max_messages (Ceilings := example_ceilings)) elapsed_time (Z.of_nat i + 1)
          = false) →
     ∃ st, spin (LS.deliver (ceilings := example_ceilings) (bank_class := spec_bank))
             ({| now := 10%Q; message := m |} :: evs)
             (LS.onInit (bank_class := spec_bank) example_argument 1%Q) = Some st ∧
           LS.sub st = CbHzCalculation ∧
           LS.received_messages st = Z.of_nat (length evs) ∧
           LS.start_time st = 10%Q ∧
           LS.bank_argument st = example_argument ∧
           LS.globals st = globals_init) ∧
  (∀ (m : LaserScanArray) (evs : list (Stamped LaserScanArray)),
     (∀ i ev, evs !! i = Some ev →
        ∃ elapsed_time : Q,
          round_double (now ev - 10) = Some elapsed_time ∧
          are_we_done (max_time (Ceilings := example_ceilings))
            (max_messages (Ceilings := example_ceilings)) elapsed_time (Z.of_nat i + 1)
          = false) →
     ∃ st, spin (LSA.deliver (ceilings := example_ceilings) (bank_class := spec_bank))
             ({| now := 10%Q; message := m |} :: evs)
             (LSA.onInit (bank_class := spec_bank) example_argument 1%Q) = Some st ∧
           LSA.sub st = CbHzCalculation ∧
           LSA.received_messages st = Z.of_nat (length evs) ∧
           LSA.start_time st = 10%Q ∧
           LSA.bank_arguments st = [example_argument] ∧
           LSA.globals st = globals_init).
Proof.
  apply (first_message_starts_the_clock (ceilings := example_ceilings)
           (bank_class := spec_bank) example_argument 1%Q 10%Q).
  apply Qeq_bool_neq. reflexivity.
Defined.

(** ** The steady callback of the scan-array build *)

Section ArraySteady.
Context {ceilings : Ceilings} {bank_class : BankClass}.

(** A loop that has run to its end has run its body at every index. *)
Lemma for_loop_reaches {St : Type} (P : St → Prop) (body : nat → St → option St)
    (n i : nat) (s s' : St) :
  (∀ j t t', P t → body j t = Some t' → P t') →
  P s → for_loop n i body s = Some s' →
  ∀ j, i ≤ j < i + n → ∃ t t', P t ∧ body j t = Some t'.
Proof.
  intros Hbody. revert i s. induction n as [|n IH]; intros i s Hs; cbn [for_loop].
  - intros _ j Hj. lia.
  - destruct (body i s) as [t|] eqn:Ht; [|discriminate].
    cbn [mbind option_bind]. intros Hrun j Hj.
    destruct (decide (j = i)) as [->|Hne].
    + exists s, t. auto.
    + apply (IH (S i) t (Hbody _ _ _ Hs Ht) Hrun). lia.
Qed.

Lemma add_and_report_assigns (scans : list LaserScan) (i : nat)
    (bks : list Bank) (b : Bank) (m : LaserScan) :
  bks !! i = Some b → scans !! i = Some m →
  LSA.add_and_report scans i bks = Some (<[i := add_then_report m b]> bks).
Proof.
  intros Hb Hm. unfold LSA.add_and_report, add_then_report. rewrite Hb, Hm.
  cbn [mbind option_bind]. destruct (addMessage m b) as [rc b'].
  assert (Hi : i < length bks) by (apply lookup_lt_is_Some; eauto).
  destruct (decide (rc ≠ 0%Z)); apply vector_assign_in_range, Hi.
Qed.

(** The loop of the steady callback, slot by slot. *)
Lemma add_and_report_loop (scans : list LaserScan) (bks0 : list Bank) :
  length scans ≤ length bks0 →
  ∃ bks,
    for_loop (length scans) 0 (LSA.add_and_report scans) bks0 = Some bks ∧
    length bks = length bks0 ∧
    (∀ i b m, bks0 !! i = Some b → scans !! i = Some m →
       bks !! i = Some (add_then_report m b)) ∧
    (∀ i, length scans ≤ i → bks !! i = bks0 !! i).
Proof.
  intros Hfit.
  destruct (for_loop_invariant
    (λ j (t : list Bank),
       length t = length bks0 ∧
       (∀ k b m, k < j → bks0 !! k = Some b → scans !! k = Some m →
          t !! k = Some (add_then_report m b)) ∧
       (∀ k, j ≤ k → t !! k = bks0 !! k))
    (LSA.add_and_report scans) (length scans) 0 bks0)
    as (bks & Hrun & Hlen & Hdone & Hrest).
  - split; [reflexivity|]. split; [intros k b m Hk; lia | intros k _; reflexivity].
  - intros j t Hj (Hlen & Hdone & Hrest).
    destruct (lookup_lt_is_Some_2 bks0 j) as [b Hb]; [lia|].
    destruct (lookup_lt_is_Some_2 scans j) as [m Hm]; [lia|].
    assert (Htj : t !! j = Some b) by (rewrite Hrest by lia; exact Hb).
    rewrite (add_and_report_assigns scans j t b m Htj Hm).
    eexists. split; [reflexivity|]. rewrite length_insert. repeat split.
    + exact Hlen.
    + intros k b' m' Hk Hb' Hm'. destruct (decide (j = k)) as [<-|Hne].
      * rewrite Hb in Hb'. rewrite Hm in Hm'.
        injection Hb' as <-. injection Hm' as <-.
        apply list_lookup_insert_eq. lia.
      * rewrite list_lookup_insert_ne by exact Hne.
        apply Hdone; [lia | exact Hb' | exact Hm'].
    + intros k Hk. rewrite list_lookup_insert_ne by lia. apply Hrest. lia.
  - exists bks. repeat split; try assumption.
    intros i b m Hb Hm. apply Hdone; [|exact Hb|exact Hm].
    apply lookup_lt_is_Some. eauto.
Qed.

(** X11: the steady callback of the scan-array build has defined behaviour
    exactly for the array messages with at most as many scans as there are
    Banks: a longer message indexes past the end of [banks]. *)
Theorem array_message_must_fit_the_banks (msg : LaserScanArray) (st : LSA.Node) :
  is_Some (LSA.laserScanArrayCallback msg st) ↔
  length (msgs msg) ≤ length (LSA.banks st).
Proof.
  split.
  - intros [st' Hrun]. unfold LSA.laserScanArrayCallback in Hrun.
    destruct (for_loop _ _ _ _) as [bks|] eqn:Hloop; [|discriminate].
    destruct (le_lt_dec (length (msgs msg)) (length (LSA.banks st))) as [Hfit|Hlong];
      [exact Hfit|].
    exfalso.
    destruct (for_loop_reaches (λ t, length t = length (LSA.banks st))
                (LSA.add_and_report (msgs msg)) _ _ _ _
                (λ j t t' Ht Hstep, eq_trans (add_and_report_length _ _ _ _ Hstep) Ht)
                eq_refl Hloop (length (LSA.banks st)))
      as (t & t' & Hlen & Hstep); [lia|].
    unfold LSA.add_and_report in Hstep.
    rewrite (lookup_ge_None_2 t (length (LSA.banks st))) in Hstep by lia.
    discriminate Hstep.
  - intros Hfit. unfold LSA.laserScanArrayCallback.
    destruct (add_and_report_loop (msgs msg) (LSA.banks st) Hfit) as (bks & -> & _).
    eexists. reflexivity.
Qed.

(** X12: on an array message that fits, the steady callback treats stream
    [i] as the single-scan build treats its one stream: Bank [i] is handed
    scan [i], with [addMessage] and, when that returned 0, with
    [findAndReportMovingObjects]; the Banks beyond the message and every
    other member of the node are left alone. *)
Theorem array_streams_are_handled_one_by_one (msg : LaserScanArray) (st : LSA.Node) :
  length (msgs msg) ≤ length (LSA.banks st) →
  (∃ st',
     LSA.laserScanArrayCallback msg st = Some st' ∧
     length (LSA.banks st') = length (LSA.banks st) ∧
     (∀ i b m, LSA.banks st !! i = Some b → msgs msg !! i = Some m →
        LSA.banks st' !! i = Some (add_then_report m b)) ∧
     (∀ i, length (msgs msg) ≤ i → LSA.banks st' !! i = LSA.banks st !! i) ∧
     LSA.sub st' = LSA.sub st ∧
     LSA.bank_arguments st' = LSA.bank_arguments st ∧
     LSA.globals st' = LSA.globals st) ∧
  (∀ (single : LS.Node) (m : LaserScan),
     LS.bank (LS.laserScanCallback m single) = add_then_report m (LS.bank single)).
Proof.
  intros Hfit. split.
  - unfold LSA.laserScanArrayCallback.
    destruct (add_and_report_loop (msgs msg) (LSA.banks st) Hfit)
      as (bks & -> & Hlen & Hdone & Hrest).
    eexists. split; [reflexivity|]. cbn. repeat split; assumption.
  - intros single m. unfold LS.laserScanCallback, add_then_report.
    destruct (addMessage m (LS.bank single)) as [rc b]. reflexivity.
Qed.
End ArraySteady.

(** ** The first message, once more *)

Section FirstMessageSlots.
Context {ceilings : Ceilings} {bank_class : BankClass}.

Lemma vector_assign_Some {A : Type} (i : nat) (x : A) (v v' : list A) :
  vector_assign i x v = Some v' → v' = <[i := x]> v.
Proof.
  unfold vector_assign. destruct (decide _); [|discriminate].
  intros [= <-]. reflexivity.
Qed.

(** The creation loop leaves a fresh Bank in every slot. *)
Lemma create_banks_fresh (n : nat) (bas0 bas : list BankArgument) (bks : list Bank) :
  for_loop n 0 LSA.create_bank (resize n Bank_new [], bas0) = Some (bks, bas) →
  bks = replicate n Bank_new.
Proof.
  intros Hrun.
  apply (for_loop_preserves
           (λ s : list Bank * list BankArgument, s.1 = replicate n Bank_new)
           LSA.create_bank n 0 _ (bks, bas)) in Hrun.
  - exact Hrun.
  - intros j [t1 t2] [u1 u2]. cbn [fst snd]. intros -> Hstep.
    unfold LSA.create_bank in Hstep. cbn [fst snd] in Hstep.
    destruct (vector_assign j Bank_new (replicate n Bank_new)) as [bks1|] eqn:Hassign;
      cbn [mbind option_bind] in Hstep; [|discriminate Hstep].
    destruct (t2 !! 0) as [first|]; cbn [mbind option_bind] in Hstep;
      [|discriminate Hstep].
    destruct (vector_assign j first t2); cbn [mbind option_bind] in Hstep;
      [|discriminate Hstep].
    injection Hstep as <- _. rewrite (vector_assign_Some _ _ _ _ Hassign).
    apply insert_replicate.
  - cbn [fst]. apply resize_nil.
Qed.

(** The initialization loop, slot by slot. *)
Lemma init_banks_each (bas : list BankArgument) (scans : list LaserScan)
    (bks0 : list Bank) :
  length bks0 = length scans → length bas = length scans →
  ∃ bks,
    for_loop (length scans) 0 (LSA.init_bank bas scans) bks0 = Some bks ∧
    ∀ i b ba m, bks0 !! i = Some b → bas !! i = Some ba → scans !! i = Some m →
      bks !! i = Some (init ba m b).2.
Proof.
  intros Hbks Hbas.
  destruct (for_loop_invariant
    (λ j (t : list Bank),
       length t = length scans ∧
       (∀ k b ba m, k < j → bks0 !! k = Some b → bas !! k = Some ba →
          scans !! k = Some m → t !! k = Some (init ba m b).2) ∧
       (∀ k, j ≤ k → t !! k = bks0 !! k))
    (LSA.init_bank bas scans) (length scans) 0 bks0)
    as (bks & Hrun & Hlen & Hdone & _).
  - split; [exact Hbks|]. split; [intros k b ba m Hk; lia | intros k _; reflexivity].
  - intros j t Hj (Hlen & Hdone & Hrest).
    destruct (lookup_lt_is_Some_2 bks0 j) as [b Hb]; [lia|].
    destruct (lookup_lt_is_Some_2 bas j) as [ba Hba]; [lia|].
    destruct (lookup_lt_is_Some_2 scans j) as [m Hm]; [lia|].
    unfold LSA.init_bank. rewrite (Hrest j) by lia. rewrite Hb, Hba, Hm.
    cbn [mbind option_bind]. rewrite vector_assign_in_range by lia.
    eexists. split; [reflexivity|]. rewrite length_insert. repeat split.
    + exact Hlen.
    + intros k b' ba' m' Hk Hb' Hba' Hm'. destruct (decide (j = k)) as [<-|Hne].
      * rewrite Hb in Hb'. rewrite Hba in Hba'. rewrite Hm in Hm'.
        injection Hb' as <-. injection Hba' as <-. injection Hm' as <-.
        apply list_lookup_insert_eq. lia.
      * rewrite list_lookup_insert_ne by exact Hne.
        apply Hdone; [lia | exact Hb' | exact Hba' | exact Hm'].
    + intros k Hk. rewrite list_lookup_insert_ne by lia. apply Hrest. lia.
  - exists bks. split; [exact Hrun|].
    intros i b ba m Hb Hba Hm. apply Hdone; [|exact Hb|exact Hba|exact Hm].
    apply lookup_lt_is_Some. eauto.
Qed.

(** X13: on the first array message of a node as [onInit] left it, Bank [i]
    is a fresh Bank on which [init] was called once, with the argument of
    stream [i] (the first argument with the suffix of [i]) and with scan [i]
    of the message. *)
Theorem first_array_message_initializes_each_bank (msg : LaserScanArray)
    (st : LSA.Node) (first : BankArgument) :
  LSA.banks st = [] → LSA.bank_arguments st = [first] →
  ∃ st',
    LSA.laserScanArrayCallbackFirst msg st = Some st' ∧
    ∀ i m, msgs msg !! i = Some m →
      LSA.banks st' !! i
      = Some (init (append_names (append_str_of i) first) m Bank_new).2.
Proof.
  intros Hbanks Hargs. unfold LSA.laserScanArrayCallbackFirst. cbv zeta.
  rewrite Hbanks, Hargs. cbn [length]. rewrite decide_True by reflexivity.
  destruct (create_banks_loop (length (msgs msg)) first)
    as (bks & bas & Hcreate & Hbks & Hbas & Hcopies).
  pose proof (create_banks_fresh _ _ _ _ Hcreate) as Hfresh.
  rewrite Hcreate. cbn [mbind option_bind].
  destruct (modify_bank_arguments_loop _ first bas Hbas Hcopies)
    as (bas' & -> & Hbas' & Hsuffixed).
  cbn [mbind option_bind].
  destruct (init_banks_each bas' (msgs msg) bks Hbks Hbas') as (bks' & -> & Heach).
  cbn [mbind option_bind].
  eexists. split; [reflexivity|]. cbn [LSA.banks].
  intros i m Hm.
  assert (Hi : i < length (msgs msg)) by (apply lookup_lt_is_Some; eauto).
  apply Heach.
  - rewrite Hfresh. apply lookup_replicate_2, Hi.
  - apply Hsuffixed, Hi.
  - exact Hm.
Qed.

(** X14: a first array message without scans leaves a node as [onInit] left
    it without Banks and without arguments, the configured one included, and
    with the steady callback bound; from then on an array message without
    scans changes nothing, and an array message with a scan indexes an empty
    vector. *)
Theorem empty_first_array_message (st : LSA.Node) (first : BankArgument)
    (ev : Stamped LaserScanArray) :
  LSA.sub st = CbFirst → LSA.banks st = [] → LSA.bank_arguments st = [first] →
  msgs (message ev) = [] →
  ∃ st',
    LSA.deliver ev st = Some st' ∧
    LSA.sub st' = CbSteady ∧ LSA.banks st' = [] ∧ LSA.bank_arguments st' = [] ∧
    (∀ ev', msgs (message ev') = [] → LSA.deliver ev' st' = Some st') ∧
    (∀ ev', msgs (message ev') ≠ [] → LSA.deliver ev' st' = None).
Proof.
  intros Hsub Hbanks Hargs Hempty.
  unfold LSA.deliver at 1. rewrite Hsub.
  unfold LSA.laserScanArrayCallbackFirst. cbv zeta.
  rewrite Hbanks, Hargs, Hempty. cbn.
  eexists. split; [reflexivity|]. cbn. repeat split.
  - intros ev' Hnone. unfold LSA.deliver, LSA.laserScanArrayCallback. cbn.
    rewrite Hnone. reflexivity.
  - intros ev' Hsome. unfold LSA.deliver, LSA.laserScanArrayCallback. cbn.
    destruct (msgs (message ev')) as [|m scans]; [congruence|]. reflexivity.
Qed.

(** X16: in the scan-array build the bank size of the calibration reaches
    every stream: when the rate calculation ends the warm-up of a node as
    [onInit] left it and the first array message follows, every argument
    holds the size calculated from the [double] product of target and
    measured rate, which is at least 2. *)
Theorem calibrated_size_reaches_every_stream (st st1 st2 : LSA.Node)
    (ev ev2 : Stamped LaserScanArray) :
  awaiting_first_array st → LSA.sub st = CbHzCalculation →
  LSA.deliver ev st = Some st1 → LSA.sub st1 = CbFirst →
  LSA.deliver ev2 st1 = Some st2 →
  ∃ (elapsed_time hz nr_scans : Q) (n : Z),
    round_double (now ev - LSA.start_time st) = Some elapsed_time ∧
    round_double (inject_Z (LSA.received_messages st + 1) / elapsed_time) = Some hz ∧
    round_double (LSA.optimize_nr_scans_in_bank st * hz) = Some nr_scans ∧
    optimized_nr_scans nr_scans = Some n ∧
    length (LSA.bank_arguments st2) = length (msgs (message ev2)) ∧
    ∀ ba, ba ∈ LSA.bank_arguments st2 →
      nr_scans_in_bank ba = sanity_check n ∧ (2 ≤ nr_scans_in_bank ba)%Z.
Proof.
  intros (Hbanks & first & Hargs) Hsub Hstep Hfirst Hstep2.
  unfold LSA.deliver in Hstep. rewrite Hsub in Hstep.
  destruct (LSA_hz_cases _ _ _ Hstep)
    as (elapsed_time & Helapsed &
        [[_ Hst1] | (_ & hz & nr_scans & n & first' & Hhz & Hnr & Hn & Hlook & Hst1)]).
  { rewrite Hst1 in Hfirst. cbn in Hfirst. congruence. }
  apply measured_hz_Some in Hhz as [_ Hhz].
  rewrite Hargs in Hlook. injection Hlook as <-.
  assert (Hbanks1 : LSA.banks st1 = []) by (rewrite Hst1; exact Hbanks).
  assert (Hargs1 : LSA.bank_arguments st1
                   = [set_nr_scans_in_bank (sanity_check n) first])
    by (rewrite Hst1; cbn [LSA.bank_arguments]; rewrite Hargs; reflexivity).
  unfold LSA.deliver in Hstep2. rewrite Hfirst in Hstep2.
  destruct (LSA_first_array_message (message ev2) st1 _ Hbanks1 Hargs1)
    as (st2' & Hrun & _ & _ & Hlen & Hsuffixed & _).
  rewrite Hrun in Hstep2. injection Hstep2 as <-.
  exists elapsed_time, hz, nr_scans, n.
  do 4 (split; [assumption|]). split; [exact Hlen|].
  intros ba Hba. apply list_elem_of_lookup in Hba as (i & Hi).
  assert (Hrange : i < length (msgs (message ev2))).
  { rewrite <- Hlen. apply lookup_lt_is_Some. eauto. }
  rewrite (Hsuffixed i Hrange) in Hi. injection Hi as <-. cbn.
  split; [reflexivity | apply sanity_check_floor].
Qed.

(** A failing [init] that keeps the Bank leaves the single-scan node as it
    was. *)
Lemma LS_first_failure (ev : Stamped LaserScan) (st : LS.Node) :
  init_failure_keeps_bank bank_class → LS.sub st = CbFirst →
  (init (LS.bank_argument st) (message ev) (LS.bank st)).1 ≠ 0%Z →
  LS.deliver ev st = Some st.
Proof.
  intros Hkeeps Hsub Hfail. unfold LS.deliver, LS.laserScanCallbackFirst.
  rewrite Hsub. pose proof (Hkeeps _ _ _ Hfail) as Hbank.
  destruct (init _ _ _) as [rc b]. cbn [fst snd] in *.
  rewrite decide_True by exact Hfail. subst b. rewrite <- Hsub.
  destruct st; reflexivity.
Qed.

(** X15: in the single-scan build, with an [init] that keeps the Bank when
    it fails, the first scan the Bank holds is the first scan [init]
    accepts: after any number of scans on which [init] fails and one on
    which it returns 0, the node is as it started but for the steady
    callback now bound and the Bank as that last call of [init] left it. *)
Theorem first_accepted_scan_initializes (fails : list (Stamped LaserScan))
    (ok : Stamped LaserScan) (st : LS.Node) :
  init_failure_keeps_bank bank_class → LS.sub st = CbFirst →
  (∀ ev, ev ∈ fails →
     (init (LS.bank_argument st) (message ev) (LS.bank st)).1 ≠ 0%Z) →
  (init (LS.bank_argument st) (message ok) (LS.bank st)).1 = 0%Z →
  spin LS.deliver (fails ++ [ok]) st =
  Some {| LS.sub := CbSteady;
          LS.received_messages := LS.received_messages st;
          LS.optimize_nr_scans_in_bank := LS.optimize_nr_scans_in_bank st;
          LS.start_time := LS.start_time st;
          LS.bank_argument := LS.bank_argument st;
          LS.bank := (init (LS.bank_argument st) (message ok) (LS.bank st)).2;
          LS.globals := LS.globals st |}.
Proof.
  intros Hkeeps Hsub Hfails Hok.
  induction fails as [|ev fails IH]; cbn [app spin].
  - unfold LS.deliver, LS.laserScanCallbackFirst. rewrite Hsub.
    destruct (init _ _ _) as [rc b]. cbn [fst snd] in *. subst rc.
    rewrite decide_False by (intros Hne; apply Hne; reflexivity). reflexivity.
  - rewrite (LS_first_failure ev st Hkeeps Hsub)
      by (apply Hfails; left).
    cbn [mbind option_bind]. apply IH.
    intros ev' Hin. apply Hfails. right. exact Hin.
Qed.
End FirstMessageSlots.

(** ** The further properties on concrete nodes *)

Lemma array_streams_are_handled_one_by_one_witness :
  (∃ st',
     LSA.laserScanArrayCallback (bank_class := spec_bank)
       {| msgs := [three_ranges_scan] |} two_stream_node = Some st' ∧
     length (LSA.banks st') = length (LSA.banks two_stream_node) ∧
     (∀ i b m, LSA.banks two_stream_node !! i = Some b →
        msgs {| msgs := [three_ranges_scan] |} !! i = Some m →
        LSA.banks st' !! i = Some (add_then_report m b)) ∧
     (∀ i, length (msgs {| msgs := [three_ranges_scan] |}) ≤ i →
        LSA.banks st' !! i = LSA.banks two_stream_node !! i) ∧
     LSA.sub st' = LSA.sub two_stream_node ∧
     LSA.bank_arguments st' = LSA.bank_arguments two_stream_node ∧
     LSA.globals st' = LSA.globals two_stream_node) ∧
  (∀ (single : LS.Node (bank_class := spec_bank)) (m : LaserScan),
     LS.bank (LS.laserScanCallback m single) = add_then_report m (LS.bank single)).
Proof.
  apply (array_streams_are_handled_one_by_one
           (bank_class := spec_bank) {| msgs := [three_ranges_scan] |} two_stream_node).
  cbn. lia.
Defined.

Lemma first_array_message_initializes_each_bank_witness :
  ∃ st',
    LSA.laserScanArrayCallbackFirst
      (bank_class := spec_bank) {| msgs := [three_ranges_scan; empty_scan] |}
      (LSA.onInit (bank_class := spec_bank) example_argument 0%Q) = Some st' ∧
    ∀ i m, msgs {| msgs := [three_ranges_scan; empty_scan] |} !! i = Some m →
      LSA.banks st' !! i
      = Some (init (BankClass := spec_bank)
                (append_names (append_str_of i) example_argument) m Bank_new).2.
Proof.
  apply (first_array_message_initializes_each_bank
           (bank_class := spec_bank) {| msgs := [three_ranges_scan; empty_scan] |}
           (LSA.onInit (bank_class := spec_bank) example_argument 0%Q) example_argument);
    reflexivity.
Defined.

Lemma empty_first_array_message_witness :
  ∃ st',
    LSA.deliver (ceilings := example_ceilings) (bank_class := spec_bank)
      {| now := 1%Q; message := {| msgs := [] |} |}
      (LSA.onInit (bank_class := spec_bank) example_argument 0%Q) = Some st' ∧
    LSA.sub st' = CbSteady ∧ LSA.banks st' = [] ∧ LSA.bank_arguments st' = [] ∧
    (∀ ev', msgs (message ev') = [] →
       LSA.deliver (ceilings := example_ceilings) ev' st' = Some st') ∧
    (∀ ev', msgs (message ev') ≠ [] →
       LSA.deliver (ceilings := example_ceilings) ev' st' = None).
Proof.
  apply (empty_first_array_message (ceilings := example_ceilings)
           (bank_class := spec_bank)
           (LSA.onInit (bank_class := spec_bank) example_argument 0%Q) example_argument
           {| now := 1%Q; message := {| msgs := [] |} |});
    reflexivity.
Defined.

Lemma first_accepted_scan_initializes_witness :
  spin (LS.deliver (ceilings := example_ceilings) (bank_class := spec_bank))
    ([ {| now := 1%Q; message := empty_scan |};
       {| now := 2%Q; message := empty_scan |} ]
     ++ [ {| now := 3%Q; message := three_ranges_scan |} ])
    (LS.onInit (bank_class := spec_bank) example_argument 0%Q)
  = Some {| LS.sub := CbSteady;
            LS.received_messages := 0;
            LS.optimize_nr_scans_in_bank := 0%Q;
            LS.start_time := 0%Q;
            LS.bank_argument := example_argument;
            LS.bank := (init (BankClass := spec_bank) example_argument
                          three_ranges_scan Bank_new).2;
            LS.globals := globals_init |}.
Proof.
  apply (first_accepted_scan_initializes (ceilings := example_ceilings)
           (bank_class := spec_bank)
           [ {| now := 1%Q; message := empty_scan |};
             {| now := 2%Q; message := empty_scan |} ]
           {| now := 3%Q; message := three_ranges_scan |}
           (LS.onInit (bank_class := spec_bank) example_argument 0%Q)).
  - exact spec_bank_init_failure_keeps_bank.
  - reflexivity.
  - intros ev Hin.
    apply elem_of_cons in Hin as [->|Hin]; [discriminate|].
    apply list_elem_of_singleton in Hin as ->. discriminate.
  - reflexivity.
Defined.

Lemma calibrated_size_reaches_every_stream_witness :
  ∃ (st1 st2 : LSA.Node) (elapsed_time hz nr_scans : Q) (n : Z),
    LSA.deliver (ceilings := time_ceilings) (bank_class := spec_bank)
      (tenth_message {| msgs := [three_ranges_scan; empty_scan] |})
      rounding_array_node = Some st1 ∧
    LSA.deliver (ceilings := time_ceilings) (bank_class := spec_bank)
      {| now := 2%Q; message := {| msgs := [three_ranges_scan; empty_scan] |} |}
      st1 = Some st2 ∧
    window_sizes st2 = [4%Z; 4%Z] ∧
    round_double (double_literal 1.2 - double_literal 0.2) = Some elapsed_time ∧
    round_double (inject_Z (9 + 1) / elapsed_time) = Some hz ∧
    round_double (double_literal 0.3 * hz) = Some nr_scans ∧
    optimized_nr_scans nr_scans = Some n ∧
    length (LSA.bank_arguments st2) = 2 ∧
    ∀ ba, ba ∈ LSA.bank_arguments st2 →
      nr_scans_in_bank ba = sanity_check n ∧ (2 ≤ nr_scans_in_bank ba)%Z.
Proof.
  destruct (LSA.deliver (ceilings := time_ceilings) (bank_class := spec_bank)
              (tenth_message {| msgs := [three_ranges_scan; empty_scan] |})
              rounding_array_node) as [st1|] eqn:Hstep1;
    [|vm_compute in Hstep1; discriminate Hstep1].
  assert (Hfirst : LSA.sub st1 = CbFirst).
  { vm_compute in Hstep1. injection Hstep1 as <-. reflexivity. }
  destruct (LSA.deliver (ceilings := time_ceilings) (bank_class := spec_bank)
              {| now := 2%Q; message := {| msgs := [three_ranges_scan; empty_scan] |} |}
              st1) as [st2|] eqn:Hstep2.
  2:{ exfalso. vm_compute in Hstep1. injection Hstep1 as <-.
      vm_compute in Hstep2. discriminate Hstep2. }
  destruct (calibrated_size_reaches_every_stream (ceilings := time_ceilings)
              (bank_class := spec_bank) rounding_array_node st1 st2 _ _
              (conj eq_refl (ex_intro _ example_argument eq_refl))
              eq_refl Hstep1 Hfirst Hstep2)
    as (elapsed_time & hz & nr_scans & n & Hresult).
  exists st1, st2, elapsed_time, hz, nr_scans, n.
  split; [reflexivity|]. split; [exact Hstep2|]. split; [|exact Hresult].
  vm_compute in Hstep1. injection Hstep1 as <-.
  vm_compute in Hstep2. injection Hstep2 as <-. reflexivity.
Defined.
